(** * KodeX code editor: file explorer, editor session and terminal

    A shallow embedding of the state-carrying parts of the React front end
    (components [FileExplorer], [CodeEditor], [Terminal] and the [KodeXApp]
    that wires them), together with the properties stated for them.

    Conventions.
    - A JavaScript string is a Rocq [string]; its characters are read as the
      code units 0..255 (Latin-1 range).
    - [useState] cells are the fields of a record; an event handler is a
      function from the record to the record after the batched updates.
    - A pending [setTimeout] callback or an awaited API call is an entry of
      an explicit list of pending continuations, each carrying the values
      its closure captured.
    - A value that may be [undefined] is an [option]. *)

From Stdlib Require Import ZArith List String Ascii Bool Lia DecimalString.
From stdpp Require Import base option list strings gmap.
Import ListNotations.

#[local] Set Warnings "-register-all,-clear-no-such-hyp".

Local Open Scope string_scope.
Local Open Scope Z_scope.
Local Open Scope list_scope.

(** ** JavaScript strings *)

Module Js.

(** WhiteSpace and LineTerminator code units below 256, as removed by
    [String.prototype.trim]: TAB, LF, VT, FF, CR, SP, NBSP. *)
Definition isWhiteSpace (c : ascii) : bool :=
  let n := nat_of_ascii c in
  existsb (Nat.eqb n) [9; 10; 11; 12; 13; 32; 160]%nat.

Fixpoint trimStart (s : string) : string :=
  match s with
  | EmptyString => EmptyString
  | String c s' => if isWhiteSpace c then trimStart s' else s
  end.

Fixpoint trimEnd (s : string) : string :=
  match s with
  | EmptyString => EmptyString
  | String c s' =>
      match trimEnd s' with
      | EmptyString => if isWhiteSpace c then EmptyString else String c EmptyString
      | t => String c t
      end
  end.

(** [s.trim()] *)
Definition trim (s : string) : string := trimEnd (trimStart s).

(** Truthiness of a string: only the empty string is falsy. *)
Definition truthy (s : string) : bool :=
  match s with EmptyString => false | _ => true end.

(** [s.startsWith(p)] *)
Fixpoint startsWith (p s : string) : bool :=
  match p, s with
  | EmptyString, _ => true
  | String a p', String b s' => Ascii.eqb a b && startsWith p' s'
  | String _ _, EmptyString => false
  end.

(** [s.substring(n)] for a non-negative literal [n]. *)
Fixpoint substring (n : nat) (s : string) : string :=
  match n, s with
  | O, _ => s
  | S n', String _ s' => substring n' s'
  | S _, EmptyString => EmptyString
  end.

(** [s.split(sep)] for a one-character separator; the result always has
    at least one element, represented as (first segment, other segments). *)
Fixpoint split1 (sep : ascii) (s : string) : string * list string :=
  match s with
  | EmptyString => (EmptyString, [])
  | String c s' =>
      let '(seg, rest) := split1 sep s' in
      if Ascii.eqb c sep then (EmptyString, seg :: rest)
      else (String c seg, rest)
  end.

Definition split (sep : ascii) (s : string) : list string :=
  let '(seg, rest) := split1 sep s in seg :: rest.

(** [s.includes(c)] for a one-character [c]. *)
Fixpoint includes (c : ascii) (s : string) : bool :=
  match s with
  | EmptyString => false
  | String a s' => Ascii.eqb a c || includes c s'
  end.

(** [a.pop()] : the last element, [undefined] on the empty array. *)
Definition pop {A} (a : list A) : option A := last a.

(** [toLowerCase] on code units below 256: A-Z, and the Latin-1 capitals
    0xC0-0xDE other than the multiplication sign 0xD7. *)
Definition lowerChar (c : ascii) : ascii :=
  let n := nat_of_ascii c in
  if ((65 <=? n) && (n <=? 90))%nat then ascii_of_nat (n + 32)
  else if ((192 <=? n) && (n <=? 222) && negb (n =? 215))%nat
       then ascii_of_nat (n + 32)
  else c.

Fixpoint toLowerCase (s : string) : string :=
  match s with
  | EmptyString => EmptyString
  | String c s' => String (lowerChar c) (toLowerCase s')
  end.

(** The line feed used by [\n] in string literals. *)
Definition nl : string := String (ascii_of_nat 10) EmptyString.

(** [lines.join("\n")] *)
Fixpoint joinLines (ls : list string) : string :=
  match ls with
  | [] => EmptyString
  | [l] => l
  | l :: ls' => l +:+ nl +:+ joinLines ls'
  end.

(** [a[i]] for an array of strings and an integer index. *)
Definition get {A} (a : list A) (i : Z) : option A :=
  if i <? 0 then None else a !! Z.to_nat i.

(** [s.includes(t)] for a string [t]: [t] occurs in [s]. *)
Fixpoint includesText (t s : string) : bool :=
  startsWith t s ||
  match s with
  | EmptyString => false
  | String _ s' => includesText t s'
  end.

(** [s.replace(pattern, replacement)] for a string pattern: the first
    occurrence is replaced, the rest of the string is kept. *)
Fixpoint replace (pattern replacement s : string) : string :=
  if startsWith pattern s
  then replacement +:+ substring (String.length pattern) s
  else match s with
       | EmptyString => EmptyString
       | String c s' => String c (replace pattern replacement s')
       end.

(** The string is empty or starts with a character that [trim] keeps. *)
Definition headKept (s : string) : Prop :=
  match s with
  | EmptyString => True
  | String c _ => isWhiteSpace c = false
  end.

(** Number of occurrences of the character [c]. *)
Fixpoint count (c : ascii) (s : string) : nat :=
  match s with
  | EmptyString => O
  | String a s' => (if Ascii.eqb a c then 1 else 0) + count c s'
  end.

End Js.

(** ** The mock file system of [FileExplorer] *)

Module FileExplorer.

(** A JavaScript value as it can end up in the [language] property: a
    string, [undefined], or a member found on [Object.prototype] through
    the prototype chain of an object literal. *)
Inductive Value :=
| VUndefined
| VString (s : string)
| VInherited (key : string).

Inductive ItemType := file | folder.

(** A node of [mockFileSystem]; [children] is absent on files. *)
Inductive Item := mkItem {
  id : string;
  name : string;
  type : ItemType;
  language : Value;
  content : option string;
  children : option (list Item)
}.

Definition with_children (item : Item) (cs : option (list Item)) : Item :=
  mkItem (id item) (name item) (type item) (language item) (content item) cs.

(** [`file_${Date.now()}`] *)
Definition fileId (now : Z) : string :=
  "file_" +:+ DecimalString.NilZero.string_of_int (Z.to_int now).

Definition newFile (now : Z) : Item :=
  mkItem (fileId now) "untitled.txt" file (VString "plaintext") (Some "") None.

(** *** createFile *)

Section CreateFile.
Variable parentId : string.
Variable nf : Item.

Fixpoint createFile_updateItem (item : Item) : Item :=
  match item with
  | mkItem i n t l c ch =>
      if String.eqb i parentId
      then mkItem i n t l c (Some (default [] ch ++ [nf]))
      else match ch with
           | Some cs => mkItem i n t l c (Some (map createFile_updateItem cs))
           | None => item
           end
  end.

Definition createFile_updateTree (items : list Item) : list Item :=
  map createFile_updateItem items.
End CreateFile.

(** [createFile(parentId)]; the argument [now] is the value of
    [Date.now()].  The result is the tree handed to [onUpdateFileSystem];
    [None] stands for the TypeError raised when [fileSystem.children] is
    not an array. *)
Definition createFile (fileSystem : Item) (parentId : string) (now : Z)
  : option Item :=
  match children fileSystem with
  | Some cs =>
      Some (with_children fileSystem
              (Some (if String.eqb parentId "root"
                     then cs ++ [newFile now]
                     else createFile_updateTree parentId (newFile now) cs)))
  | None => None
  end.

(** *** deleteItem *)

Section DeleteItem.
Variable itemId : string.

(** [items.filter(keep).map(recurse)], written as one pass: the filter
    drops exactly the items carrying [itemId] (its other branches
    return a truthy value), the map descends into what is kept. *)
Fixpoint removeFromTree_item (item : Item) : Item :=
  match item with
  | mkItem i n t l c ch =>
      match ch with
      | Some cs =>
          mkItem i n t l c
            (Some ((fix go (items : list Item) : list Item :=
                      match items with
                      | [] => []
                      | x :: xs =>
                          if String.eqb (id x) itemId then go xs
                          else removeFromTree_item x :: go xs
                      end) cs))
      | None => item
      end
  end.

Fixpoint removeFromTree (items : list Item) : list Item :=
  match items with
  | [] => []
  | x :: xs =>
      if String.eqb (id x) itemId then removeFromTree xs
      else removeFromTree_item x :: removeFromTree xs
  end.
End DeleteItem.

Definition deleteItem (fileSystem : Item) (itemId : string) : option Item :=
  match children fileSystem with
  | Some cs => Some (with_children fileSystem (Some (removeFromTree itemId cs)))
  | None => None
  end.

(** *** renameItem *)

(** The own properties of the object literal [langMap]. *)
Definition langMap : gmap string string :=
  list_to_map
    [ ("js", "javascript"); ("jsx", "javascript");
      ("ts", "typescript"); ("tsx", "typescript");
      ("py", "python"); ("html", "html"); ("css", "css");
      ("java", "java"); ("cpp", "cpp"); ("c", "c"); ("go", "go");
      ("rs", "rust"); ("php", "php"); ("rb", "ruby") ].

(** Property names every object literal inherits from [Object.prototype]. *)
Definition objectPrototypeKeys : list string :=
  [ "constructor"; "__defineGetter__"; "__defineSetter__"; "hasOwnProperty";
    "__lookupGetter__"; "__lookupSetter__"; "isPrototypeOf";
    "propertyIsEnumerable"; "toString"; "valueOf"; "__proto__";
    "toLocaleString" ].

(** [langMap[ext]]: an own property first, then the prototype chain. *)
Definition langMap_get (ext : string) : Value :=
  match langMap !! ext with
  | Some v => VString v
  | None =>
      if existsb (String.eqb ext) objectPrototypeKeys
      then VInherited ext else VUndefined
  end.

(** [v || d] for a string default [d]. *)
Definition or_else (v : Value) (d : string) : Value :=
  match v with
  | VUndefined => VString d
  | VString s => if Js.truthy s then v else VString d
  | VInherited _ => v
  end.

(** [newName.split('.').pop().toLowerCase()] *)
Definition extension (newName : string) : string :=
  match Js.pop (Js.split "." newName) with
  | Some e => Js.toLowerCase e
  | None => EmptyString
  end.

(** The value computed for [language] when the renamed item is a file. *)
Definition languageOf (newName : string) : Value :=
  or_else (langMap_get (extension newName)) "plaintext".

Definition renamed (item : Item) (newName : string) : Item :=
  mkItem (id item) newName (type item)
    (match type item with
     | file => languageOf newName
     | folder => VUndefined
     end)
    (content item) (children item).

Section RenameItem.
Variable itemId : string.
Variable newName : string.

Fixpoint renameItem_updateItem (item : Item) : Item :=
  match item with
  | mkItem i n t l c ch =>
      if String.eqb i itemId then renamed item newName
      else match ch with
           | Some cs => mkItem i n t l c (Some (map renameItem_updateItem cs))
           | None => item
           end
  end.

Definition renameItem_updateTree (items : list Item) : list Item :=
  map renameItem_updateItem items.
End RenameItem.

Definition renameItem (fileSystem : Item) (itemId newName : string)
  : option Item :=
  match children fileSystem with
  | Some cs =>
      Some (with_children fileSystem
              (Some (renameItem_updateTree itemId newName cs)))
  | None => None
  end.

(** *** Looking a node up by id

    The first node carrying the id in the order in which the [map]
    callbacks of [updateTree] meet the nodes: an item before its
    children, children before later siblings, and nothing below a node
    that already carries the id. *)
Fixpoint findItem (target : string) (item : Item) : option Item :=
  match item with
  | mkItem i n t l c ch =>
      if String.eqb i target then Some item
      else match ch with
           | Some cs =>
               (fix go (items : list Item) : option Item :=
                  match items with
                  | [] => None
                  | x :: xs =>
                      match findItem target x with
                      | Some r => Some r
                      | None => go xs
                      end
                  end) cs
           | None => None
           end
  end.

Fixpoint findItems (target : string) (items : list Item) : option Item :=
  match items with
  | [] => None
  | x :: xs =>
      match findItem target x with
      | Some r => Some r
      | None => findItems target xs
      end
  end.

(** Induction on items that reaches the children inside the optional
    array. *)
Section ItemInduction.
Variable P : Item -> Prop.
Hypothesis step :
  forall i n t l c ch,
    match ch with Some cs => Forall P cs | None => True end ->
    P (mkItem i n t l c ch).

Fixpoint Item_nested_ind (item : Item) : P item :=
  match item with
  | mkItem i n t l c ch =>
      step i n t l c ch
        (match ch return match ch with Some cs => Forall P cs | None => True end
         with
         | Some cs =>
             (fix all (items : list Item) : Forall P items :=
                match items with
                | [] => @List.Forall_nil _ P
                | x :: xs =>
                    @List.Forall_cons _ P x xs (Item_nested_ind x) (all xs)
                end) cs
         | None => I
         end)
  end.
End ItemInduction.

(** The target of [createFile] after the update:
    [{...item, children: [...(item.children || []), newFile]}]. *)
Definition appended (nf : Item) (p : Item) : Item :=
  with_children p (Some (default [] (children p) ++ [nf])).


(** *** filterTree, toggleFolder and handleRename *)

(** [item.name.toLowerCase().includes(searchTerm.toLowerCase())] *)
Definition nameMatches (searchTerm : string) (item : Item) : bool :=
  Js.includesText (Js.toLowerCase searchTerm) (Js.toLowerCase (name item)).

Section FilterTree.
Variable searchTerm : string.

(** One item through the [filter] and the [map] of [filterTree], for a
    non-empty search term: [None] when the filter drops it, otherwise the
    copy made by the map, whose children are the filtered children. *)
Fixpoint filterTree_item (item : Item) : option Item :=
  match item with
  | mkItem i n t l c ch =>
      let filteredChildren :=
        match ch with
        | Some cs =>
            Some ((fix go (items : list Item) : list Item :=
                     match items with
                     | [] => []
                     | x :: xs =>
                         match filterTree_item x with
                         | Some y => y :: go xs
                         | None => go xs
                         end
                     end) cs)
        | None => None
        end in
      if nameMatches searchTerm item
      then Some (mkItem i n t l c filteredChildren)
      else match filteredChildren with
           | Some (_ :: _) => Some (mkItem i n t l c filteredChildren)
           | _ => None
           end
  end.

Fixpoint filterTree_items (items : list Item) : list Item :=
  match items with
  | [] => []
  | x :: xs =>
      match filterTree_item x with
      | Some y => y :: filterTree_items xs
      | None => filterTree_items xs
      end
  end.
End FilterTree.

(** [filterTree(items, searchTerm)] *)
Definition filterTree (items : list Item) (searchTerm : string) : list Item :=
  if Js.truthy searchTerm then filterTree_items searchTerm items else items.

(** Every node of a forest, parents before children. *)
Fixpoint allItems_item (item : Item) : list Item :=
  item ::
  match children item with
  | Some cs =>
      (fix go (items : list Item) : list Item :=
         match items with
         | [] => []
         | x :: xs => allItems_item x ++ go xs
         end) cs
  | None => []
  end.

Fixpoint allItems (items : list Item) : list Item :=
  match items with
  | [] => []
  | x :: xs => allItems_item x ++ allItems xs
  end.

Definition allIds (items : list Item) : list string := map id (allItems items).

(** A node without what is below it: its own properties, and whether it
    has a [children] array. *)
Definition shell (item : Item) : Item :=
  with_children item
    (match children item with Some _ => Some [] | None => None end).

(** Every node of a forest, parents before children, each with the ids met
    on the way down to it (its own id last) and its shell; [above] holds
    the ids of the ancestors of the forest. *)
Fixpoint located_item (above : list string) (item : Item)
  : list (list string * Item) :=
  (above ++ [id item], shell item) ::
  match children item with
  | Some cs =>
      (fix go (items : list Item) : list (list string * Item) :=
         match items with
         | [] => []
         | x :: xs => located_item (above ++ [id item]) x ++ go xs
         end) cs
  | None => []
  end.

Fixpoint located (above : list string) (items : list Item)
  : list (list string * Item) :=
  match items with
  | [] => []
  | x :: xs => located_item above x ++ located above xs
  end.

(** No node on the way down to the node carries [itemId]. *)
Definition awayFrom (itemId : string) (p : list string * Item) : bool :=
  negb (existsb (fun i => String.eqb i itemId) (fst p)).

(** What makes the search keep a node: its name matches, or it still has
    a child after the search. *)
Definition shown (searchTerm : string) (item : Item) : Prop :=
  nameMatches searchTerm item = true \/
  exists c cs, children item = Some (c :: cs).

(** [toggleFolder(folderId)] on the set [expandedFolders]. *)
Definition toggleFolder (expandedFolders : gset string) (folderId : string)
  : gset string :=
  if bool_decide (folderId ∈ expandedFolders)
  then expandedFolders ∖ {[folderId]}
  else expandedFolders ∪ {[folderId]}.

(** [handleRename()] of [FileTreeItem]: the name handed to
    [onRenameItem], or [None] when it is not called. *)
Definition handleRename (newName : string) (item : Item) : option string :=
  if Js.truthy (Js.trim newName) && negb (String.eqb newName (name item))
  then Some (Js.trim newName)
  else None.

(** *** [handleFileChange] and [findFileById] of the mock application *)

Section UpdateFileContent.
Variable fileId : string.
Variable newContent : string.

Fixpoint updateFileContent_item (item : Item) : Item :=
  match item with
  | mkItem i n t l c ch =>
      if String.eqb i fileId then mkItem i n t l (Some newContent) ch
      else match ch with
           | Some cs => mkItem i n t l c (Some (map updateFileContent_item cs))
           | None => item
           end
  end.

Definition updateFileContent (items : list Item) : list Item :=
  map updateFileContent_item items.
End UpdateFileContent.

(** The tree given to [setFileSystem] by [handleFileChange]. *)
Definition handleFileChange (fileSystem : Item) (fileId newContent : string)
  : option Item :=
  match children fileSystem with
  | Some cs =>
      Some (with_children fileSystem
              (Some (updateFileContent fileId newContent cs)))
  | None => None
  end.

(** [findFileById(items, fileId)]: the loop visits an item, then its
    children, then the next item, and stops at the first hit. *)
Definition findFileById (items : list Item) (fileId : string) : option Item :=
  findItems fileId items.

(** The scalar properties of two nodes agree. *)
Definition sameData (x y : Item) : Prop :=
  id x = id y /\ name x = name y /\ type x = type y /\
  language x = language y /\ content x = content y.

(** A small tree used to evaluate the operations: a project folder with
    one JavaScript file, and a file directly under the root. *)
Definition sampleFile : Item :=
  mkItem "file2" "a.js" file (VString "javascript")
    (Some "console.log(1);") None.

Definition sampleChildren : list Item :=
  [ mkItem "project1" "my-web-app" folder VUndefined None
      (Some [sampleFile]);
    mkItem "file_1" "untitled.txt" file (VString "plaintext")
      (Some "") None ].

Definition sampleTree : Item :=
  mkItem "root" "Projects" folder VUndefined None (Some sampleChildren).

End FileExplorer.

(** ** The terminal, mock version (first [Terminal] component) *)

(** The [type] property of an entry: 'running', 'success' or 'error'. *)
Inductive EntryType := type_running | type_success | type_error.

(** An element of the [history] array.  [working_directory] and
    [execution_time] exist only on entries of the API-backed terminal. *)
Record Entry := {
  entry_command : string;
  entry_output : string;
  entry_type : EntryType;
  working_directory : option string;
  execution_time : option Z
}.

Definition isRunningEntry (e : Entry) : bool :=
  match entry_type e with type_running => true | _ => false end.

Definition nonRunning (e : Entry) : Prop := isRunningEntry e = false.

(** Number of entries displayed as running. *)
Definition runningCount (h : list Entry) : nat :=
  length (List.filter isRunningEntry h).

(** [newHistory[newHistory.length - 1] = f(newHistory[newHistory.length - 1])]
    on a copy of the array.  On the empty array the assignment goes to the
    property "-1", which is not an element: the array stays empty. *)
Fixpoint updateLast (f : Entry -> Entry) (h : list Entry) : list Entry :=
  match h with
  | [] => []
  | [e] => [f e]
  | e :: h' => e :: updateLast f h'
  end.

Module TerminalMock.
Import FileExplorer.

Definition mockEntry (c o : string) (t : EntryType) : Entry :=
  {| entry_command := c; entry_output := o; entry_type := t;
     working_directory := None; execution_time := None |}.

Definition mockTerminalHistory : list Entry :=
  [ mockEntry "ls -la"
      (Js.joinLines
         [ "total 12";
           "drwxr-xr-x 3 user user 4096 Jun 15 10:30 .";
           "drwxr-xr-x 5 user user 4096 Jun 15 10:25 ..";
           "-rw-r--r-- 1 user user  243 Jun 15 10:30 index.html";
           "-rw-r--r-- 1 user user  156 Jun 15 10:30 script.js" ])
      type_success;
    mockEntry "python hello.py"
      (Js.joinLines
         [ "Hello from Python!";
           "What's your name? Developer";
           "Nice to meet you, Developer!" ])
      type_success;
    mockEntry "node script.js"
      (Js.joinLines
         [ "Hello from JavaScript!";
           "Hello, Developer! Welcome to my app." ])
      type_success;
    mockEntry "invalid-command"
      "bash: invalid-command: command not found"
      type_error ].

(** What the callback given to [setTimeout] closes over. *)
Record Pending := {
  trimmedCmd : string;
  activeFile : option Item
}.

Record State := {
  command : option string;
  history : list Entry;
  isRunning : bool;
  commandHistory : list string;
  historyIndex : Z;
  timers : list Pending
}.

Definition initial : State :=
  {| command := Some ""; history := mockTerminalHistory; isRunning := false;
     commandHistory := []; historyIndex := -1; timers := [] |}.

Definition setCommand (v : option string) (s : State) : State :=
  {| command := v; history := history s; isRunning := isRunning s;
     commandHistory := commandHistory s; historyIndex := historyIndex s;
     timers := timers s |}.

Definition setHistory (h : list Entry) (s : State) : State :=
  {| command := command s; history := h; isRunning := isRunning s;
     commandHistory := commandHistory s; historyIndex := historyIndex s;
     timers := timers s |}.

Definition setIsRunning (b : bool) (s : State) : State :=
  {| command := command s; history := history s; isRunning := b;
     commandHistory := commandHistory s; historyIndex := historyIndex s;
     timers := timers s |}.

Definition setCommandHistory (l : list string) (s : State) : State :=
  {| command := command s; history := history s; isRunning := isRunning s;
     commandHistory := l; historyIndex := historyIndex s;
     timers := timers s |}.

Definition setHistoryIndex (i : Z) (s : State) : State :=
  {| command := command s; history := history s; isRunning := isRunning s;
     commandHistory := commandHistory s; historyIndex := i;
     timers := timers s |}.

Definition setTimers (l : list Pending) (s : State) : State :=
  {| command := command s; history := history s; isRunning := isRunning s;
     commandHistory := commandHistory s; historyIndex := historyIndex s;
     timers := l |}.

(** [executeCommand(cmd)] up to and including [setTimeout]; [af] is the
    [activeFile] prop of the render the handler belongs to. *)
Definition executeCommand (cmd : string) (af : option Item) (s : State)
  : State :=
  let trimmedCmd := Js.trim cmd in
  if negb (Js.truthy trimmedCmd) then s
  else
    let s1 := setCommandHistory (commandHistory s ++ [trimmedCmd]) s in
    let s2 := setHistoryIndex (-1) s1 in
    let commandEntry := mockEntry trimmedCmd "" type_running in
    let s3 := setHistory (history s2 ++ [commandEntry]) s2 in
    let s4 := setIsRunning true s3 in
    setTimers (timers s4 ++ [{| trimmedCmd := trimmedCmd; activeFile := af |}]) s4.

(** The guard of [handleSubmit]: [command.trim() && !isRunning]. *)
Definition submitAccepted (c : string) (s : State) : bool :=
  Js.truthy (Js.trim c) && negb (isRunning s).

(** [handleSubmit(e)].  With [command] undefined, [command.trim()] raises
    before any update. *)
Definition handleSubmit (af : option Item) (s : State) : State :=
  match command s with
  | None => s
  | Some c =>
      if submitAccepted c s
      then setCommand (Some "") (executeCommand c af s)
      else s
  end.

Definition helpText : string :=
  Js.joinLines
    [ "Available commands:";
      "ls         - List directory contents";
      "pwd        - Show current directory";
      "whoami     - Show current user";
      "date       - Show current date and time";
      "echo       - Display text";
      "cat        - Display file contents";
      "python/py  - Run Python scripts";
      "node/npm   - Run JavaScript/Node.js";
      "clear      - Clear terminal";
      "help       - Show this help message";
      "";
      "Mock terminal - commands are simulated for demo purposes." ].

Definition hasLanguage (af : option Item) (l : string) : bool :=
  match af with
  | Some f => match language f with
              | VString s => String.eqb s l
              | _ => false
              end
  | None => false
  end.

(** Update the last command with output. *)
Definition finish (output : string) (type : EntryType) (s : State) : State :=
  setIsRunning false
    (setHistory
       (updateLast
          (fun e => {| entry_command := entry_command e;
                       entry_output := output; entry_type := type;
                       working_directory := working_directory e;
                       execution_time := execution_time e |})
          (history s))
       s).

(** The callback of [setTimeout] in [executeCommand]; [dateString] is
    [new Date().toString()] at the time it runs. *)
Definition onTimeout (p : Pending) (dateString : string) (s : State) : State :=
  let c := trimmedCmd p in
  if Js.startsWith "ls" c then
    finish (Js.joinLines ["index.html"; "script.js"; "styles.css";
                          "hello.py"; "README.md"]) type_success s
  else if Js.startsWith "pwd" c then finish "/home/user/projects" type_success s
  else if Js.startsWith "whoami" c then finish "developer" type_success s
  else if Js.startsWith "date" c then finish dateString type_success s
  else if Js.startsWith "echo" c then finish (Js.substring 5 c) type_success s
  else if Js.startsWith "cat" c && bool_decide (is_Some (activeFile p)) then
    finish (match activeFile p with
            | Some f => match content f with
                        | Some t => if Js.truthy t then t else "File is empty"
                        | None => "File is empty"
                        end
            | None => "File is empty"
            end) type_success s
  else if Js.startsWith "python" c || Js.startsWith "py" c then
    finish (if hasLanguage (activeFile p) "python"
            then Js.joinLines ["Hello from Python!";
                               "Script executed successfully."]
            else "Python 3.9.7 - Ready to execute Python scripts") type_success s
  else if Js.startsWith "node" c || Js.startsWith "npm" c then
    finish (if hasLanguage (activeFile p) "javascript"
            then Js.joinLines ["Hello from JavaScript!";
                               "Script executed successfully."]
            else "Node.js v16.14.0 - Ready to execute JavaScript") type_success s
  else if String.eqb c "clear" then setIsRunning false (setHistory [] s)
  else if String.eqb c "help" then finish helpText type_success s
  else finish ("bash: " +:+ c +:+ ": command not found") type_error s.

(** The [i]-th pending timer expires. *)
Definition fireTimer (i : nat) (dateString : string) (s : State)
  : option State :=
  match timers s !! i with
  | Some p => Some (onTimeout p dateString (setTimers (delete i (timers s)) s))
  | None => None
  end.

(** [handleKeyDown(e)] with [e.key = key]. *)
Definition handleKeyDown (key : string) (s : State) : State :=
  let len := Z.of_nat (length (commandHistory s)) in
  if String.eqb key "ArrowUp" then
    if 0 <? len then
      let newIndex :=
        if historyIndex s =? -1 then len - 1
        else Z.max 0 (historyIndex s - 1) in
      setCommand (Js.get (commandHistory s) newIndex)
        (setHistoryIndex newIndex s)
    else s
  else if String.eqb key "ArrowDown" then
    if negb (historyIndex s =? -1) then
      let newIndex := historyIndex s + 1 in
      if len <=? newIndex
      then setCommand (Some "") (setHistoryIndex (-1) s)
      else setCommand (Js.get (commandHistory s) newIndex)
             (setHistoryIndex newIndex s)
    else s
  else s.

(** The Clear button: [onClick={() => setHistory([])}]. *)
Definition clearClicked (s : State) : State := setHistory [] s.

(** Events of the component. *)
Inductive Event :=
| Typed (text : string)
| Submitted (af : option Item)
| KeyPressed (key : string)
| ClearClicked
| TimerFired (i : nat) (dateString : string).

Definition step (e : Event) (s : State) : option State :=
  match e with
  | Typed text => Some (setCommand (Some text) s)
  | Submitted af => Some (handleSubmit af s)
  | KeyPressed key => Some (handleKeyDown key s)
  | ClearClicked => Some (clearClicked s)
  | TimerFired i d => fireTimer i d s
  end.

Inductive reachable : State -> Prop :=
| reachable_initial : reachable initial
| reachable_step s e s' : reachable s -> step e s = Some s' -> reachable s'.

(** Running a list of events, stopping at one that cannot happen. *)
Fixpoint run (es : list Event) (s : State) : option State :=
  match es with
  | [] => Some s
  | e :: es' => match step e s with
                | Some s' => run es' s'
                | None => None
                end
  end.

(** The two arrow keys, and the state shown at index [i] of the
    command-text log. *)
Definition recallPrevious (s : State) : State := handleKeyDown "ArrowUp" s.
Definition recallNext (s : State) : State := handleKeyDown "ArrowDown" s.

Definition atIndex (i : Z) (s : State) : State :=
  setCommand (Js.get (commandHistory s) i) (setHistoryIndex i s).

(** Type a command, submit it, and let its timer expire. *)
Definition submitAndComplete (af : option Item) (dateString : string)
    (c : string) (s : State) : option State :=
  fireTimer 0 dateString (handleSubmit af (setCommand (Some c) s)).

Fixpoint submitAll (af : option Item) (dateString : string)
    (cs : list string) (s : State) : option State :=
  match cs with
  | [] => Some s
  | c :: cs' =>
      match submitAndComplete af dateString c s with
      | Some s' => submitAll af dateString cs' s'
      | None => None
      end
  end.

(** A session in the empty draft state with two commands in the log. *)
Definition sampleSession : State :=
  {| command := Some ""; history := []; isRunning := false;
     commandHistory := ["ls"; "pwd"]; historyIndex := -1; timers := [] |}.

(** What the session looks like between events: a timer is pending
    exactly while a command runs, and only the last entry can be shown as
    running. *)
Definition consistent (s : State) : Prop :=
  length (timers s) = (if isRunning s then 1 else 0)%nat /\
  Forall nonRunning (removelast (history s)) /\
  (isRunning s = false -> Forall nonRunning (history s)).

(** The mock session while ls is running, and a list of fifty-one
    commands. *)
Definition busySession : State :=
  handleSubmit None (setCommand (Some "ls") initial).

Definition fiftyOneCommands : list string :=
  "echo oldest" :: repeat "ls" 50.

(** The input holds a string, the recall cursor is -1 or an index of the
    command-text log, and the log holds trimmed, non-empty commands. *)
Definition wellFormed (s : State) : Prop :=
  is_Some (command s) /\
  (historyIndex s = -1 \/
   0 <= historyIndex s < Z.of_nat (length (commandHistory s))) /\
  Forall (fun c => c <> "" /\ Js.trim c = c) (commandHistory s).

End TerminalMock.

(** ** The terminal, API-backed version (second [Terminal] component) *)

Module TerminalApi.
Import FileExplorer.

(** A command as the backend reports it ([response.command], and the
    elements of the array returned by [getHistory]). *)
Record CommandResult := {
  result_command : string;
  result_output : string;
  exit_code : Z;
  result_working_directory : string;
  result_execution_time : option Z
}.

(** An awaited call of [terminalAPI], with what its continuation
    captured. *)
Inductive Call :=
| CallExecute (trimmedCmd workingDirectory : string)
| CallGetHistory
| CallClearHistory.

Inductive Response :=
| Executed (result : CommandResult)
| History (terminalHistory : list CommandResult)
| Cleared.

Record State := {
  command : option string;
  history : list Entry;
  isRunning : bool;
  commandHistory : list string;
  historyIndex : Z;
  workingDirectory : string;
  error : option string;
  calls : list Call;
  console : list string
}.

Definition initial : State :=
  {| command := Some ""; history := []; isRunning := false;
     commandHistory := []; historyIndex := -1;
     workingDirectory := "/tmp/codeeditor"; error := None;
     calls := []; console := [] |}.

Definition setCommand (v : option string) (s : State) : State :=
  {| command := v; history := history s; isRunning := isRunning s;
     commandHistory := commandHistory s; historyIndex := historyIndex s;
     workingDirectory := workingDirectory s; error := error s;
     calls := calls s; console := console s |}.

Definition setHistory (h : list Entry) (s : State) : State :=
  {| command := command s; history := h; isRunning := isRunning s;
     commandHistory := commandHistory s; historyIndex := historyIndex s;
     workingDirectory := workingDirectory s; error := error s;
     calls := calls s; console := console s |}.

Definition setIsRunning (b : bool) (s : State) : State :=
  {| command := command s; history := history s; isRunning := b;
     commandHistory := commandHistory s; historyIndex := historyIndex s;
     workingDirectory := workingDirectory s; error := error s;
     calls := calls s; console := console s |}.

Definition setCommandHistory (l : list string) (s : State) : State :=
  {| command := command s; history := history s; isRunning := isRunning s;
     commandHistory := l; historyIndex := historyIndex s;
     workingDirectory := workingDirectory s; error := error s;
     calls := calls s; console := console s |}.

Definition setHistoryIndex (i : Z) (s : State) : State :=
  {| command := command s; history := history s; isRunning := isRunning s;
     commandHistory := commandHistory s; historyIndex := i;
     workingDirectory := workingDirectory s; error := error s;
     calls := calls s; console := console s |}.

Definition setWorkingDirectory (d : string) (s : State) : State :=
  {| command := command s; history := history s; isRunning := isRunning s;
     commandHistory := commandHistory s; historyIndex := historyIndex s;
     workingDirectory := d; error := error s;
     calls := calls s; console := console s |}.

Definition setError (e : option string) (s : State) : State :=
  {| command := command s; history := history s; isRunning := isRunning s;
     commandHistory := commandHistory s; historyIndex := historyIndex s;
     workingDirectory := workingDirectory s; error := e;
     calls := calls s; console := console s |}.

Definition setCalls (l : list Call) (s : State) : State :=
  {| command := command s; history := history s; isRunning := isRunning s;
     commandHistory := commandHistory s; historyIndex := historyIndex s;
     workingDirectory := workingDirectory s; error := error s;
     calls := l; console := console s |}.

Definition consoleError (msg : string) (s : State) : State :=
  {| command := command s; history := history s; isRunning := isRunning s;
     commandHistory := commandHistory s; historyIndex := historyIndex s;
     workingDirectory := workingDirectory s; error := error s;
     calls := calls s; console := console s ++ [msg] |}.

Definition entryOfResult (r : CommandResult) : Entry :=
  {| entry_command := result_command r;
     entry_output := result_output r;
     entry_type := if exit_code r =? 0 then type_success else type_error;
     working_directory := Some (result_working_directory r);
     execution_time := result_execution_time r |}.

(** [loadHistory()] up to its [await]. *)
Definition loadHistory (s : State) : State :=
  setCalls (calls s ++ [CallGetHistory]) s.

(** [executeCommand(cmd)] up to its [await]. *)
Definition executeCommand (cmd : string) (s : State) : State :=
  let trimmedCmd := Js.trim cmd in
  if negb (Js.truthy trimmedCmd) then s
  else
    let s1 := setCommandHistory (commandHistory s ++ [trimmedCmd]) s in
    let s2 := setHistoryIndex (-1) s1 in
    let commandEntry :=
      {| entry_command := trimmedCmd; entry_output := "";
         entry_type := type_running;
         working_directory := Some (workingDirectory s);
         execution_time := None |} in
    let s3 := setHistory (history s2 ++ [commandEntry]) s2 in
    let s4 := setIsRunning true s3 in
    let s5 := setError None s4 in
    setCalls (calls s5 ++ [CallExecute trimmedCmd (workingDirectory s)]) s5.

Definition submitAccepted (c : string) (s : State) : bool :=
  Js.truthy (Js.trim c) && negb (isRunning s).

Definition handleSubmit (s : State) : State :=
  match command s with
  | None => s
  | Some c =>
      if submitAccepted c s
      then setCommand (Some "") (executeCommand c s)
      else s
  end.

Definition handleKeyDown (key : string) (s : State) : State :=
  let len := Z.of_nat (length (commandHistory s)) in
  if String.eqb key "ArrowUp" then
    if 0 <? len then
      let newIndex :=
        if historyIndex s =? -1 then len - 1
        else Z.max 0 (historyIndex s - 1) in
      setCommand (Js.get (commandHistory s) newIndex)
        (setHistoryIndex newIndex s)
    else s
  else if String.eqb key "ArrowDown" then
    if negb (historyIndex s =? -1) then
      let newIndex := historyIndex s + 1 in
      if len <=? newIndex
      then setCommand (Some "") (setHistoryIndex (-1) s)
      else setCommand (Js.get (commandHistory s) newIndex)
             (setHistoryIndex newIndex s)
    else s
  else s.

(** [clearTerminal()] up to its [await]. *)
Definition clearTerminal (s : State) : State :=
  let s1 := setHistory [] s in
  setCalls (calls s1 ++ [CallClearHistory]) s1.

(** The continuation of an awaited call when the promise is fulfilled;
    [None] when the response is not one the call can receive. *)
Definition resolved (c : Call) (r : Response) (s : State) : option State :=
  match c, r with
  | CallExecute _ _, Executed result =>
      let s1 := setHistory (updateLast (fun _ => entryOfResult result)
                              (history s)) s in
      let s2 := if exit_code result =? 0
                then setWorkingDirectory (result_working_directory result) s1
                else s1 in
      Some (setIsRunning false s2)
  | CallGetHistory, History terminalHistory =>
      Some (setHistory (map entryOfResult terminalHistory) s)
  | CallClearHistory, Cleared => Some s
  | _, _ => None
  end.

(** The continuation when the promise is rejected with an error whose
    [message] is [msg]. *)
Definition rejected (c : Call) (msg : string) (s : State) : State :=
  match c with
  | CallExecute trimmedCmd wd =>
      let s1 := consoleError ("Error executing command: " +:+ msg) s in
      let s2 := setError (Some "Failed to execute command") s1 in
      let s3 :=
        setHistory
          (updateLast
             (fun _ => {| entry_command := trimmedCmd;
                          entry_output := "Error: " +:+ msg;
                          entry_type := type_error;
                          working_directory := Some wd;
                          execution_time := None |})
             (history s2)) s2 in
      setIsRunning false s3
  | CallGetHistory =>
      consoleError ("Error loading terminal history: " +:+ msg) s
  | CallClearHistory =>
      consoleError ("Error clearing terminal history: " +:+ msg) s
  end.

Inductive Event :=
| Typed (text : string)
| Submitted
| KeyPressed (key : string)
| ClearClicked
| Opened
| Fulfilled (i : nat) (r : Response)
| Rejected (i : nat) (msg : string).

Definition step (e : Event) (s : State) : option State :=
  match e with
  | Typed text => Some (setCommand (Some text) s)
  | Submitted => Some (handleSubmit s)
  | KeyPressed key => Some (handleKeyDown key s)
  | ClearClicked => Some (clearTerminal s)
  | Opened => Some (loadHistory s)
  | Fulfilled i r =>
      match calls s !! i with
      | Some c => resolved c r (setCalls (delete i (calls s)) s)
      | None => None
      end
  | Rejected i msg =>
      match calls s !! i with
      | Some c => Some (rejected c msg (setCalls (delete i (calls s)) s))
      | None => None
      end
  end.

Inductive reachable : State -> Prop :=
| reachable_initial : reachable initial
| reachable_step s e s' : reachable s -> step e s = Some s' -> reachable s'.

Fixpoint run (es : list Event) (s : State) : option State :=
  match es with
  | [] => Some s
  | e :: es' => match step e s with
                | Some s' => run es' s'
                | None => None
                end
  end.

Definition isExecute (c : Call) : bool :=
  match c with CallExecute _ _ => true | _ => false end.

(** Number of commands whose execution is awaited. *)
Definition executeCount (l : list Call) : nat :=
  length (List.filter isExecute l).

(** What the session looks like between events. *)
Definition consistent (s : State) : Prop :=
  executeCount (calls s) = (if isRunning s then 1 else 0)%nat /\
  Forall nonRunning (removelast (history s)) /\
  (isRunning s = false -> Forall nonRunning (history s)).

(** The last command-text shown again with the up arrow, after one
    command ran to completion. *)
Definition sampleResult : CommandResult :=
  {| result_command := "cd src"; result_output := ""; exit_code := 0;
     result_working_directory := "/tmp/codeeditor/src";
     result_execution_time := None |}.

Definition sampleEvents : list Event :=
  [Typed "cd src"; Submitted; Fulfilled 0 (Executed sampleResult);
   KeyPressed "ArrowUp"].

(** [getPrompt()] *)
Definition getPrompt (s : State) : string :=
  let dir := Js.replace "/tmp/codeeditor" "~" (workingDirectory s) in
  "user@kodex:" +:+ dir +:+ "$".

End TerminalApi.

(** ** The editor session: [CodeEditor] under [KodeXApp]

    The hooks of [CodeEditor] that carry the save logic ([content],
    [hasChanges], [isSaving], [lastSaved], [saveTimeoutRef]), the
    [activeFile] state of [KodeXApp] that is passed down as a prop, and the
    two callbacks [handleFileChange] and [handleFileUpdate] that [KodeXApp]
    passes as [onFileChange] and [onFileUpdate].  Cursor position and AI
    suggestions are display state that none of these handlers reads.

    React is modelled as follows.  The updates made by one event handler
    are batched; then the component renders and commits.  On a commit the
    effects whose dependency arrays changed ([Object.is], so objects by
    identity) run: first the cleanup of their previous run, then their
    body, on the values of that render.  Updates made by an effect lead to
    another render and commit.  A function defined in the component body
    sees the values of the render it was created in. *)

Module CodeEditor.

(** An object used as [activeFile]; [ref] is the identity of the object. *)
Record FileObj := {
  ref : nat;
  file_id : string;
  file_path : string;
  file_content : option string;
  modified_at : option string
}.

(** [{...f, content: newContent}] allocated at identity [r]. *)
Definition withContent (r : nat) (f : FileObj) (newContent : string)
  : FileObj :=
  {| ref := r; file_id := file_id f; file_path := file_path f;
     file_content := Some newContent; modified_at := modified_at f |}.

Definition allocatedAt (r : nat) (f : FileObj) : FileObj :=
  {| ref := r; file_id := file_id f; file_path := file_path f;
     file_content := file_content f; modified_at := modified_at f |}.

(** The values of one render that the functions created in it close
    over.  [KodeXApp] and [CodeEditor] render together, so the
    [activeFile] seen by [handleFileChange] and [handleFileUpdate] of that
    render is the same object. *)
Record Render := {
  activeFile : option FileObj;
  render_content : string;
  render_hasChanges : bool
}.

(** A pending [setTimeout(() => saveFile(), 2000)]. *)
Record Timer := {
  timer_id : nat;
  due : Z;
  callback : Render
}.

Record System := mkSystem {
  (* KodeXApp *)
  app_activeFile : option FileObj;
  nextRef : nat;
  (* CodeEditor: useState and useRef *)
  content : string;
  hasChanges : bool;
  isSaving : bool;
  lastSaved : option string;
  saveTimeoutRef : option nat;
  (* dependency arrays of the last run of the two effects *)
  deps1 : option (option nat);
  deps2 : option (string * bool * option nat);
  (* environment *)
  clock : Z;
  timers : list Timer;
  nextTimer : nat;
  requests : list (string * string);
  inflight : list Render;
  console : list string
}.

Definition setActiveFile (v : option FileObj) (s : System) : System :=
  match s with
  | mkSystem _ nr ct hc sv ls tr d1 d2 ck tm nt rq fl cs =>
      mkSystem v nr ct hc sv ls tr d1 d2 ck tm nt rq fl cs
  end.

Definition setContent (v : string) (s : System) : System :=
  match s with
  | mkSystem af nr _ hc sv ls tr d1 d2 ck tm nt rq fl cs =>
      mkSystem af nr v hc sv ls tr d1 d2 ck tm nt rq fl cs
  end.

Definition setHasChanges (v : bool) (s : System) : System :=
  match s with
  | mkSystem af nr ct _ sv ls tr d1 d2 ck tm nt rq fl cs =>
      mkSystem af nr ct v sv ls tr d1 d2 ck tm nt rq fl cs
  end.

Definition setIsSaving (v : bool) (s : System) : System :=
  match s with
  | mkSystem af nr ct hc _ ls tr d1 d2 ck tm nt rq fl cs =>
      mkSystem af nr ct hc v ls tr d1 d2 ck tm nt rq fl cs
  end.

Definition setLastSaved (v : option string) (s : System) : System :=
  match s with
  | mkSystem af nr ct hc sv _ tr d1 d2 ck tm nt rq fl cs =>
      mkSystem af nr ct hc sv v tr d1 d2 ck tm nt rq fl cs
  end.

Definition setSaveTimeoutRef (v : option nat) (s : System) : System :=
  match s with
  | mkSystem af nr ct hc sv ls _ d1 d2 ck tm nt rq fl cs =>
      mkSystem af nr ct hc sv ls v d1 d2 ck tm nt rq fl cs
  end.

Definition setTimers (v : list Timer) (s : System) : System :=
  match s with
  | mkSystem af nr ct hc sv ls tr d1 d2 ck _ nt rq fl cs =>
      mkSystem af nr ct hc sv ls tr d1 d2 ck v nt rq fl cs
  end.

Definition setNextRef (v : nat) (s : System) : System :=
  match s with
  | mkSystem af _ ct hc sv ls tr d1 d2 ck tm nt rq fl cs =>
      mkSystem af v ct hc sv ls tr d1 d2 ck tm nt rq fl cs
  end.

Definition setNextTimer (v : nat) (s : System) : System :=
  match s with
  | mkSystem af nr ct hc sv ls tr d1 d2 ck tm _ rq fl cs =>
      mkSystem af nr ct hc sv ls tr d1 d2 ck tm v rq fl cs
  end.

Definition setDeps1 (v : option (option nat)) (s : System) : System :=
  match s with
  | mkSystem af nr ct hc sv ls tr _ d2 ck tm nt rq fl cs =>
      mkSystem af nr ct hc sv ls tr v d2 ck tm nt rq fl cs
  end.

Definition setDeps2 (v : option (string * bool * option nat)) (s : System)
  : System :=
  match s with
  | mkSystem af nr ct hc sv ls tr d1 _ ck tm nt rq fl cs =>
      mkSystem af nr ct hc sv ls tr d1 v ck tm nt rq fl cs
  end.

Definition setClock (v : Z) (s : System) : System :=
  match s with
  | mkSystem af nr ct hc sv ls tr d1 d2 _ tm nt rq fl cs =>
      mkSystem af nr ct hc sv ls tr d1 d2 v tm nt rq fl cs
  end.

Definition setConsole (v : list string) (s : System) : System :=
  match s with
  | mkSystem af nr ct hc sv ls tr d1 d2 ck tm nt rq fl _ =>
      mkSystem af nr ct hc sv ls tr d1 d2 ck tm nt rq fl v
  end.

Definition setRequests (v : list (string * string)) (s : System) : System :=
  match s with
  | mkSystem af nr ct hc sv ls tr d1 d2 ck tm nt _ fl cs =>
      mkSystem af nr ct hc sv ls tr d1 d2 ck tm nt v fl cs
  end.

Definition setInflight (v : list Render) (s : System) : System :=
  match s with
  | mkSystem af nr ct hc sv ls tr d1 d2 ck tm nt rq _ cs =>
      mkSystem af nr ct hc sv ls tr d1 d2 ck tm nt rq v cs
  end.

Definition render (s : System) : Render :=
  {| activeFile := app_activeFile s; render_content := content s;
     render_hasChanges := hasChanges s |}.

(** [[activeFile]] and [[content, hasChanges, activeFile]]. *)
Definition depsOf1 (r : Render) : option nat := ref <$> activeFile r.
Definition depsOf2 (r : Render) : string * bool * option nat :=
  (render_content r, render_hasChanges r, ref <$> activeFile r).

Definition clearTimeout (t : nat) (s : System) : System :=
  setTimers (List.filter (fun x => negb (Nat.eqb (timer_id x) t)) (timers s)) s.

(** [saveTimeoutRef.current = setTimeout(() => saveFile(), delay)] in the
    render [r].  Timer ids are positive, hence truthy. *)
Definition setSaveTimeout (r : Render) (delay : Z) (s : System) : System :=
  let t := nextTimer s in
  setSaveTimeoutRef (Some t)
    (setNextTimer (S t)
       (setTimers (timers s ++ [{| timer_id := t; due := clock s + delay;
                                   callback := r |}]) s)).

(** [if (saveTimeoutRef.current) clearTimeout(saveTimeoutRef.current)] *)
Definition clearSaveTimeout (s : System) : System :=
  match saveTimeoutRef s with
  | Some t => clearTimeout t s
  | None => s
  end.

(** First effect, dependencies [[activeFile]]. *)
Definition effect1 (r : Render) (s : System) : System :=
  match activeFile r with
  | Some f =>
      setLastSaved (modified_at f)
        (setHasChanges false
           (setContent (default "" (file_content f)) s))
  | None => s
  end.

(** Auto-save effect, dependencies [[content, hasChanges, activeFile]]. *)
Definition effect2 (r : Render) (s : System) : System :=
  if render_hasChanges r && bool_decide (is_Some (activeFile r))
  then setSaveTimeout r 2000 (clearSaveTimeout s)
  else s.

Definition changed1 (r : Render) (s : System) : bool :=
  negb (bool_decide (deps1 s = Some (depsOf1 r))).
Definition changed2 (r : Render) (s : System) : bool :=
  negb (bool_decide (deps2 s = Some (depsOf2 r))).

(** One render and commit. *)
Definition commit (s : System) : System :=
  let r := render s in
  let run1 := changed1 r s in
  let run2 := changed2 r s in
  let s1 := if run2 && bool_decide (is_Some (deps2 s))
            then clearSaveTimeout s else s in
  let s2 := if run1 then effect1 r s1 else s1 in
  let s3 := if run2 then effect2 r s2 else s2 in
  setDeps2 (Some (depsOf2 r)) (setDeps1 (Some (depsOf1 r)) s3).

(** No effect is due to run. *)
Definition stable (s : System) : bool :=
  negb (changed1 (render s) s) && negb (changed2 (render s) s).

(** Render and commit until no effect is due. *)
Fixpoint settleFor (fuel : nat) (s : System) : System :=
  match fuel with
  | O => s
  | S fuel' => if stable s then s else settleFor fuel' (commit s)
  end.

Definition settle (s : System) : System := settleFor 3 s.

(** [saveFile()] of the render [r], up to its [await]. *)
Definition saveFile (r : Render) (s : System) : System :=
  match activeFile r with
  | Some f =>
      if render_hasChanges r
      then setInflight (inflight s ++ [r])
             (setRequests (requests s ++ [(file_path f, render_content r)])
                (setIsSaving true s))
      else s
  | None => s
  end.

(** [handleFileChange] and [handleFileUpdate] of [KodeXApp], as created in
    the render [r]; both have the same body. *)
Definition handleFileChange (r : Render) (fileId newContent : string)
    (s : System) : System :=
  match activeFile r with
  | Some f =>
      if String.eqb (file_id f) fileId
      then setNextRef (S (nextRef s))
             (setActiveFile (Some (withContent (nextRef s) f newContent)) s)
      else s
  | None => s
  end.

Definition handleFileUpdate := handleFileChange.

(** The continuation of [saveFile] after [await fileAPI.updateFile]
    was fulfilled; [nowIso] is [new Date().toISOString()]. *)
Definition saveFulfilled (r : Render) (nowIso : string) (s : System)
  : System :=
  let s1 := setHasChanges false s in
  let s2 := setLastSaved (Some nowIso) s1 in
  let s3 := match activeFile r with
            | Some f => handleFileUpdate r (file_id f) (render_content r) s2
            | None => s2
            end in
  setIsSaving false s3.

(** The [catch] and [finally] blocks of [saveFile]. *)
Definition saveRejected (r : Render) (msg : string) (s : System) : System :=
  setIsSaving false
    (setConsole (console s ++ ["Error saving file: " +:+ msg]) s).

(** [handleTextChange(e)] with [e.target.value = newContent]. *)
Definition handleTextChange (newContent : string) (s : System) : System :=
  let r := render s in
  let s1 := setHasChanges true (setContent newContent s) in
  match activeFile r with
  | Some f => handleFileChange r (file_id f) newContent s1
  | None => s1
  end.

(** [insertText(text)] with the selection [start, end_). *)
Definition insertText (start end_ : nat) (text : string) (s : System)
  : System :=
  let newContent :=
    String.substring 0 start (content s) +:+ text +:+
    Js.substring end_ (content s) in
  setHasChanges true (setContent newContent s).

(** [handleFileSelect(file)] of [KodeXApp].  The explorer hands over the
    response object of [fileAPI.getFile], a new object on every selection,
    so the selected file gets an identity of its own. *)
Definition handleFileSelect (f : FileObj) (s : System) : System :=
  setNextRef (S (nextRef s))
    (setActiveFile (Some (allocatedAt (nextRef s) f)) s).

(** Run the callbacks of the timers that are due, oldest first. *)
Fixpoint fireDue (fuel : nat) (s : System) : System :=
  match fuel with
  | O => s
  | S fuel' =>
      match List.find (fun t => due t <=? clock s) (timers s) with
      | Some t =>
          fireDue fuel'
            (settle (saveFile (callback t) (clearTimeout (timer_id t) s)))
      | None => s
      end
  end.

Inductive Event :=
| Selected (f : FileObj)
| Edited (newContent : string)
| Inserted (start end_ : nat) (text : string)
| SaveRequested
| Advanced (ms : Z)
| SaveFulfilled (i : nat) (nowIso : string)
| SaveRejected (i : nat) (msg : string).

(** The textarea and the buttons exist only while a file is active. *)
Definition step (e : Event) (s : System) : option System :=
  match e with
  | Selected f => Some (settle (handleFileSelect f s))
  | Edited newContent =>
      if bool_decide (is_Some (app_activeFile s))
      then Some (settle (handleTextChange newContent s)) else None
  | Inserted start end_ text =>
      if bool_decide (is_Some (app_activeFile s))
      then Some (settle (insertText start end_ text s)) else None
  | SaveRequested =>
      if bool_decide (is_Some (app_activeFile s))
      then Some (settle (saveFile (render s) s)) else None
  | Advanced ms =>
      if 0 <=? ms
      then let s1 := setClock (clock s + ms) s in
           Some (fireDue (length (timers s1)) s1)
      else None
  | SaveFulfilled i nowIso =>
      match inflight s !! i with
      | Some r =>
          Some (settle (saveFulfilled r nowIso
                          (setInflight (delete i (inflight s)) s)))
      | None => None
      end
  | SaveRejected i msg =>
      match inflight s !! i with
      | Some r =>
          Some (settle (saveRejected r msg
                          (setInflight (delete i (inflight s)) s)))
      | None => None
      end
  end.

Fixpoint run (es : list Event) (s : System) : option System :=
  match es with
  | [] => Some s
  | e :: es' => match step e s with
                | Some s' => run es' s'
                | None => None
                end
  end.

(** The mounted application before any file is selected. *)
Definition initial : System :=
  settle
    {| app_activeFile := None; nextRef := 0%nat;
       content := ""; hasChanges := false; isSaving := false;
       lastSaved := None; saveTimeoutRef := None;
       deps1 := None; deps2 := None;
       clock := 0; timers := []; nextTimer := 1%nat;
       requests := []; inflight := []; console := [] |}.

Inductive reachable : System -> Prop :=
| reachable_initial : reachable initial
| reachable_step s e s' : reachable s -> step e s = Some s' -> reachable s'.

(** A file as [fileAPI.getFile] returns it, and the session after it was
    selected and an AI suggestion was inserted at offset 3. *)
Definition openedFile : FileObj :=
  {| ref := 0%nat; file_id := "f1"; file_path := "/a.js";
     file_content := Some "abc"; modified_at := Some "t0" |}.

Definition dirtySession : System :=
  default initial (run [Selected openedFile; Inserted 3 3 "X"] initial).

(** A session with an open file and no timer pending, between events. *)
Definition settled (s : System) : Prop :=
  stable s = true /\
  timers s = [] /\
  exists f, app_activeFile s = Some f /\ (ref f < nextRef s)%nat.

(** Typing into the textarea, and waiting. *)
Definition isTypingOrWaiting (e : Event) : bool :=
  match e with
  | Edited _ => true
  | Advanced ms => 0 <=? ms
  | _ => false
  end.

(** [insertCodeIntoEditor(code)] of [KodeXApp], as created in the render
    [r]; an [undefined] content is concatenated as the text undefined. *)
Definition insertCodeIntoEditor (r : Render) (code : string) (s : System)
  : System :=
  match activeFile r with
  | Some f =>
      handleFileChange r (file_id f)
        (default "undefined" (file_content f) +:+ Js.nl +:+ code) s
  | None => s
  end.

(** [updateCursorPosition()] for a mounted textarea holding [value] with
    the caret at [selectionStart]: the new [cursorPosition] as
    (line, column). *)
Definition updateCursorPosition (value : string) (selectionStart : nat)
  : nat * nat :=
  let lines :=
    Js.split (ascii_of_nat 10) (String.substring 0 selectionStart value) in
  (length lines, (String.length (default "" (last lines)) + 1)%nat).

(** The timers that [clearSaveTimeout] leaves pending. *)
Definition cleared (tr : option nat) (tm : list Timer) : list Timer :=
  match tr with
  | Some t => List.filter (fun x => negb (Nat.eqb (timer_id x) t)) tm
  | None => tm
  end.

(** The only timer that can be pending is the one [saveTimeoutRef]
    holds. *)
Definition onlyTrackedTimer (s : System) : Prop :=
  timers (clearSaveTimeout s) = [].

(** The session right after a file was opened. *)
Definition openedSession : System :=
  default initial (run [Selected openedFile] initial).

End CodeEditor.

(** ** The [debounce] utility of [CodeEditor.jsx]

    [debounce(func, wait)] returns a function that shares one variable
    [timeout]; the calls of [func] are recorded in [invoked]. *)

Module Debounce.

Section Debounce.
Context {A : Type}.

(** A pending [setTimeout(later, wait)] with the arguments [later] closed
    over. *)
Record Timer := {
  timer_id : nat;
  due : Z;
  args : A
}.

Record State := {
  timeout : option nat;
  timers : list Timer;
  nextTimer : nat;
  clock : Z;
  invoked : list A
}.

(** Timer ids are positive; [clearTimeout(undefined)] does nothing. *)
Definition initial : State :=
  {| timeout := None; timers := []; nextTimer := 1%nat; clock := 0;
     invoked := [] |}.

Definition clearTimeout (t : option nat) (l : list Timer) : list Timer :=
  match t with
  | Some i => List.filter (fun x => negb (Nat.eqb (timer_id x) i)) l
  | None => l
  end.

(** [executedFunction(...args)] *)
Definition executedFunction (wait : Z) (a : A) (s : State) : State :=
  let i := nextTimer s in
  {| timeout := Some i;
     timers := clearTimeout (timeout s) (timers s) ++
               [{| timer_id := i; due := clock s + wait; args := a |}];
     nextTimer := S i;
     clock := clock s;
     invoked := invoked s |}.

(** [later()] of the timer [t], which the event loop has just taken off
    the pending timers. *)
Definition later (t : Timer) (s : State) : State :=
  {| timeout := timeout s;
     timers := clearTimeout (timeout s) (timers s);
     nextTimer := nextTimer s;
     clock := clock s;
     invoked := invoked s ++ [args t] |}.

Definition removeTimer (i : nat) (s : State) : State :=
  {| timeout := timeout s;
     timers := clearTimeout (Some i) (timers s);
     nextTimer := nextTimer s;
     clock := clock s;
     invoked := invoked s |}.

(** Run the callbacks of the timers that are due, oldest first. *)
Fixpoint fireDue (fuel : nat) (s : State) : State :=
  match fuel with
  | O => s
  | S fuel' =>
      match List.find (fun t => due t <=? clock s) (timers s) with
      | Some t => fireDue fuel' (later t (removeTimer (timer_id t) s))
      | None => s
      end
  end.

(** [ms] milliseconds pass. *)
Definition advance (ms : Z) (s : State) : State :=
  let s1 := {| timeout := timeout s; timers := timers s;
               nextTimer := nextTimer s; clock := clock s + ms;
               invoked := invoked s |} in
  fireDue (length (timers s1)) s1.

(** A burst of calls: before each call [gap] milliseconds pass. *)
Fixpoint burst (wait : Z) (l : list (Z * A)) (s : State) : State :=
  match l with
  | [] => s
  | (gap, a) :: l' => burst wait l' (executedFunction wait a (advance gap s))
  end.

(** Nothing is pending, or only the timer that [timeout] holds. *)
Definition idleOrTracked (s : State) : Prop :=
  clearTimeout (timeout s) (timers s) = [].

(** One timer is pending, it is the one [timeout] holds, and it is due
    [wait] milliseconds after the last call. *)
Definition armed (wait : Z) (a : A) (inv : list A) (s : State) : Prop :=
  exists i, timeout s = Some i /\
            timers s = [{| timer_id := i; due := clock s + wait; args := a |}] /\
            invoked s = inv.

End Debounce.

Arguments Timer : clear implicits.
Arguments State : clear implicits.

End Debounce.

(** ** Path index

    The front end never resolves or computes a path itself: it passes
    [item.path], computed by the backend, to [fileAPI].  The tree with
    parent links, [resolve] and [computePath] are therefore taken from the
    specification (sections 3, 4.1 and 9). *)

Module PathIndex.

Inductive Kind := File | Folder.

(** Modelled from the spec: the Node of section 3, kept in an arena
    indexed by id, its children as a list of ids and its parent as a
    back-reference id (section 9); the tree code itself is not in the
    front end. *)
Record Node := {
  name : string;
  kind : Kind;
  parent : option nat;
  children : list nat;
  content : string
}.

(** Modelled from the spec: a tree snapshot, the arena and the id of the
    root folder. *)
Record Tree := {
  nodes : gmap nat Node;
  root : nat
}.

(** Modelled from the spec: joining names with the separator. *)
Fixpoint join (segs : list string) : string :=
  match segs with
  | [] => ""
  | [x] => x
  | x :: rest => x +:+ "/" +:+ join rest
  end.

(** Modelled from the spec: a child-name lookup, case-sensitive exact
    match, among the children of a node. *)
Definition childByName (t : Tree) (seg : string) (ids : list nat)
  : option nat :=
  List.find
    (fun c => match nodes t !! c with
              | Some n => String.eqb (name n) seg
              | None => false
              end)
    ids.

(** Modelled from the spec: walking child-name lookups from a node. *)
Fixpoint walk (t : Tree) (cur : nat) (segs : list string) : option nat :=
  match segs with
  | [] => Some cur
  | seg :: rest =>
      match nodes t !! cur with
      | Some n =>
          match kind n with
          | Folder =>
              match childByName t seg (children n) with
              | Some c => walk t c rest
              | None => None
              end
          | File => None
          end
      | None => None
      end
  end.

(** Modelled from the spec: the segments of an absolute path; the path of
    the root, the separator alone, has none. *)
Definition segmentsOf (path : string) : option (list string) :=
  match path with
  | String c rest =>
      if Ascii.eqb c "/"
      then Some (match rest with
                 | EmptyString => []
                 | _ => Js.split "/" rest
                 end)
      else None
  | EmptyString => None
  end.

(** Modelled from the spec: [resolve(tree, path)] of section 4.1; [None]
    is NotFound. *)
Definition resolve (t : Tree) (path : string) : option nat :=
  match segmentsOf path with
  | Some segs => walk t (root t) segs
  | None => None
  end.

(** Modelled from the spec: walking parent links to the root, collecting
    the names from the top down; the walk is cut after [fuel] links. *)
Fixpoint namesToRoot (fuel : nat) (t : Tree) (i : nat)
  : option (list string) :=
  match fuel with
  | O => None
  | S fuel' =>
      match nodes t !! i with
      | Some n =>
          match parent n with
          | None => Some []
          | Some p =>
              match namesToRoot fuel' t p with
              | Some segs => Some (segs ++ [name n])
              | None => None
              end
          end
      | None => None
      end
  end.

(** Modelled from the spec: [computePath(tree, nodeId)] of section 4.1;
    no chain of parents is longer than the number of nodes. *)
Definition computePath (t : Tree) (i : nat) : option string :=
  match namesToRoot (size (nodes t)) t i with
  | Some segs => Some ("/" +:+ join segs)
  | None => None
  end.

(** Modelled from the spec: the number of parent links from a node up to
    a node without parent. *)
Inductive depth (t : Tree) : nat -> nat -> Prop :=
| depth_top i n :
    nodes t !! i = Some n -> parent n = None -> depth t i 0
| depth_child i n p d :
    nodes t !! i = Some n -> parent n = Some p -> depth t p d ->
    depth t i (S d).

(** Modelled from the spec: the invariants of section 3 on a tree. *)
Record wf (t : Tree) : Prop := {
  wf_one_root :
    forall i n, nodes t !! i = Some n -> parent n = None -> i = root t;
  wf_names :
    forall i n p, nodes t !! i = Some n -> parent n = Some p ->
      name n <> "" /\ Js.includes "/" (name n) = false;
  wf_parent :
    forall i n p, nodes t !! i = Some n -> parent n = Some p ->
      exists pn, nodes t !! p = Some pn /\ kind pn = Folder /\
                 In i (children pn);
  wf_siblings :
    forall p pn i j ni nj,
      nodes t !! p = Some pn ->
      In i (children pn) -> In j (children pn) ->
      nodes t !! i = Some ni -> nodes t !! j = Some nj ->
      name ni = name nj -> i = j;
  wf_acyclic :
    forall i, is_Some (nodes t !! i) -> exists d, depth t i d
}.

(** The tree holding /project/script.js. *)
Definition sampleNodes : gmap nat Node :=
  list_to_map
    [ (0%nat, {| name := ""; kind := Folder; parent := None;
                 children := [1%nat]; content := "" |});
      (1%nat, {| name := "project"; kind := Folder; parent := Some 0%nat;
                 children := [2%nat]; content := "" |});
      (2%nat, {| name := "script.js"; kind := File; parent := Some 1%nat;
                 children := []; content := "console.log(1);" |}) ].

Definition sampleTree : Tree := {| nodes := sampleNodes; root := 0%nat |}.

End PathIndex.

(** * Properties *)

(** ** File explorer *)

Module FileExplorerFacts.
Import FileExplorer.

Lemma findItem_unfold target item :
  findItem target item =
  if String.eqb (id item) target then Some item
  else match children item with
       | Some cs => findItems target cs
       | None => None
       end.
Proof.
  destruct item as [i n t l c ch]; simpl.
  destruct (String.eqb i target); [reflexivity|].
  destruct ch as [cs|]; [|reflexivity].
  induction cs as [|x xs IH]; simpl; [reflexivity|].
  destruct (findItem target x); [reflexivity|exact IH].
Qed.

(** A transformation of the shape of the two [updateTree] helpers: the
    item carrying the id is replaced by [f item] (same id), any other
    item is rebuilt around its transformed children. *)
Section UpdateAtId.
Variable target : string.
Variable f : Item -> Item.
Variable upd : Item -> Item.
Hypothesis f_id : forall x, id (f x) = id x.
Hypothesis upd_unfold :
  forall x,
    upd x =
    if String.eqb (id x) target then f x
    else match children x with
         | Some cs => with_children x (Some (map upd cs))
         | None => x
         end.

Lemma findItem_update item :
  findItem target (upd item) = f <$> findItem target item.
Proof.
  induction item as [i n t l c ch IH] using Item_nested_ind.
  rewrite upd_unfold, (findItem_unfold target (mkItem i n t l c ch)).
  cbn [id children].
  destruct (String.eqb i target) eqn:E.
  - rewrite findItem_unfold, f_id. cbn [id]. rewrite E. reflexivity.
  - destruct ch as [cs|].
    + rewrite findItem_unfold. unfold with_children. cbn [id children].
      rewrite E. cbn in IH.
      induction IH as [|x xs Hx _ IHxs]; [reflexivity|].
      cbn [map findItems]. rewrite Hx.
      destruct (findItem target x); [reflexivity|exact IHxs].
    + rewrite findItem_unfold. cbn [id children]. rewrite E. reflexivity.
Qed.

Lemma findItems_update items :
  findItems target (map upd items) = f <$> findItems target items.
Proof.
  induction items as [|x xs IH]; [reflexivity|].
  cbn [map findItems]. rewrite findItem_update.
  destruct (findItem target x); [reflexivity|exact IH].
Qed.
End UpdateAtId.

Lemma renameItem_updateItem_unfold itemId newName x :
  renameItem_updateItem itemId newName x =
  if String.eqb (id x) itemId then renamed x newName
  else match children x with
       | Some cs =>
           with_children x (Some (map (renameItem_updateItem itemId newName) cs))
       | None => x
       end.
Proof. destruct x as [i n t l c [cs|]]; reflexivity. Qed.

Lemma createFile_updateItem_unfold parentId nf x :
  createFile_updateItem parentId nf x =
  if String.eqb (id x) parentId then appended nf x
  else match children x with
       | Some cs =>
           with_children x (Some (map (createFile_updateItem parentId nf) cs))
       | None => x
       end.
Proof. destruct x as [i n t l c [cs|]]; reflexivity. Qed.

Lemma findItems_rename itemId newName items :
  findItems itemId (renameItem_updateTree itemId newName items) =
  (fun x => renamed x newName) <$> findItems itemId items.
Proof.
  apply findItems_update.
  - reflexivity.
  - apply renameItem_updateItem_unfold.
Qed.

Lemma findItems_createFile parentId nf items :
  findItems parentId (createFile_updateTree parentId nf items) =
  appended nf <$> findItems parentId items.
Proof.
  apply findItems_update.
  - reflexivity.
  - apply createFile_updateItem_unfold.
Qed.

End FileExplorerFacts.

Section FileExplorerClaims.
Import FileExplorer FileExplorerFacts.

(** C2, as stated, fails: creating a file under a folder that already has
    a child called untitled.txt succeeds, changes the tree and leaves two
    siblings with the same name. *)
Lemma createFile_duplicate_sibling_counterexample :
  exists fs' cs',
    createFile sampleTree "root" 2 = Some fs' /\
    fs' <> sampleTree /\
    children fs' = Some cs' /\
    map name cs' = ["my-web-app"; "untitled.txt"; "untitled.txt"] /\
    ~ NoDup (map name cs').
Proof.
  eexists. eexists. split; [reflexivity|].
  split; [discriminate|]. split; [reflexivity|].
  split; [reflexivity|]. cbn.
  intros H. apply NoDup_cons in H as [_ H].
  apply NoDup_cons in H as [H _]. apply H. left.
Qed.

(** C2, amended: createFile never fails on a tree whose root has a
    children array and makes no name check.  It appends a new file named
    untitled.txt after the existing children of the target: of the root
    when parentId is 'root', otherwise of the first node carrying
    parentId; the children that were there stay, in order, whatever
    their names. *)
Theorem createFile_appends_untitled fileSystem cs parentId now :
  children fileSystem = Some cs ->
  exists cs',
    createFile fileSystem parentId now
      = Some (with_children fileSystem (Some cs')) /\
    name (newFile now) = "untitled.txt" /\
    (parentId = "root" -> cs' = cs ++ [newFile now]) /\
    (parentId <> "root" ->
     forall p, findItems parentId cs = Some p ->
       findItems parentId cs' =
         Some (with_children p
                 (Some (default [] (children p) ++ [newFile now])))).
Proof.
  intros Hcs. unfold createFile. rewrite Hcs.
  eexists. split; [reflexivity|]. split; [reflexivity|]. split.
  - intros ->. reflexivity.
  - intros Hne p Hp.
    destruct (String.eqb parentId "root") eqn:E.
    + apply String.eqb_eq in E. contradiction.
    + rewrite findItems_createFile, Hp. reflexivity.
Qed.

Lemma createFile_appends_untitled_witness :
  exists cs',
    createFile sampleTree "project1" 7
      = Some (with_children sampleTree (Some cs')) /\
    name (newFile 7) = "untitled.txt" /\
    ("project1" = "root" -> cs' = sampleChildren ++ [newFile 7]) /\
    ("project1" <> "root" ->
     forall p, findItems "project1" sampleChildren = Some p ->
       findItems "project1" cs' =
         Some (with_children p
                 (Some (default [] (children p) ++ [newFile 7])))).
Proof.
  apply (createFile_appends_untitled sampleTree sampleChildren "project1" 7).
  reflexivity.
Defined.

(** The node a rename leaves in place of a file: the new name, the
    language computed from it, and everything else as it was. *)
Lemma renameItem_file_language fileSystem cs itemId newName item :
  children fileSystem = Some cs ->
  findItems itemId cs = Some item ->
  type item = file ->
  exists cs',
    renameItem fileSystem itemId newName
      = Some (with_children fileSystem (Some cs')) /\
    findItems itemId cs' =
      Some (mkItem (id item) newName file (languageOf newName)
              (content item) (children item)).
Proof.
  intros Hcs Hfind Hfile.
  unfold renameItem. rewrite Hcs. eexists. split; [reflexivity|].
  rewrite findItems_rename, Hfind. cbn [fmap option_fmap option_map].
  unfold renamed. rewrite Hfile. reflexivity.
Qed.

(** An extension that is a key of the table gives the language the table
    holds for it. *)
Lemma languageOf_in_table newName l :
  langMap !! extension newName = Some l -> languageOf newName = VString l.
Proof.
  intros H. unfold languageOf, langMap_get. rewrite H. cbn [or_else].
  assert (Ht : Js.truthy l = true); [|rewrite Ht; reflexivity].
  unfold langMap in H. apply elem_of_list_to_map_2 in H.
  repeat (apply elem_of_cons in H as [H|H];
          [injection H as _ ->; reflexivity|]).
  apply elem_of_nil in H. contradiction.
Qed.

(** An extension that is neither a key of the table nor a property name
    of [Object.prototype] gives plaintext. *)
Lemma languageOf_unknown_extension newName :
  langMap !! extension newName = None ->
  existsb (String.eqb (extension newName)) objectPrototypeKeys = false ->
  languageOf newName = VString "plaintext".
Proof.
  intros Hmap Hproto. unfold languageOf, langMap_get.
  rewrite Hmap, Hproto. reflexivity.
Qed.

(** C3 at its failing input.  Renaming the JavaScript file a.js to a.py
    makes its language python, and a.unknownext gives plaintext.  But the
    lookup [langMap[ext]] also finds what the object literal inherits:
    renamed to a.constructor, whose extension is not in the table, the
    file does not get plaintext but the inherited member; likewise for
    the extension __proto__. *)
Theorem rename_extension_inherited_key :
  findItems "file2" sampleChildren = Some sampleFile /\
  language sampleFile = VString "javascript" /\
  (exists cs',
     renameItem sampleTree "file2" "a.py"
       = Some (with_children sampleTree (Some cs')) /\
     findItems "file2" cs' =
       Some (mkItem "file2" "a.py" file (VString "python")
               (Some "console.log(1);") None)) /\
  languageOf "a.unknownext" = VString "plaintext" /\
  extension "a.constructor" = "constructor" /\
  langMap !! "constructor" = None /\
  (exists cs',
     renameItem sampleTree "file2" "a.constructor"
       = Some (with_children sampleTree (Some cs')) /\
     findItems "file2" cs' =
       Some (mkItem "file2" "a.constructor" file (VInherited "constructor")
               (Some "console.log(1);") None)) /\
  langMap !! "__proto__" = None /\
  languageOf "x.__proto__" = VInherited "__proto__".
Proof.
  split; [reflexivity|]. split; [reflexivity|]. split.
  { destruct (renameItem_file_language sampleTree sampleChildren "file2"
                "a.py" sampleFile eq_refl eq_refl eq_refl) as (cs' & H1 & H2).
    exists cs'. split; [exact H1|]. rewrite H2. reflexivity. }
  split; [vm_compute; reflexivity|]. split; [vm_compute; reflexivity|].
  split; [vm_compute; reflexivity|]. split.
  { destruct (renameItem_file_language sampleTree sampleChildren "file2"
                "a.constructor" sampleFile eq_refl eq_refl eq_refl)
      as (cs' & H1 & H2).
    exists cs'. split; [exact H1|]. rewrite H2. reflexivity. }
  split; vm_compute; reflexivity.
Qed.

(** The extension of a name without a dot is the whole name, lower-cased. *)
Lemma split1_no_dot s :
  Js.includes "." s = false -> Js.split1 "." s = (s, []).
Proof.
  induction s as [|c s IH]; [reflexivity|].
  cbn [Js.includes Js.split1]. intros H.
  apply orb_false_iff in H as [Hc Hs].
  rewrite (IH Hs), Hc. reflexivity.
Qed.

Lemma extension_no_dot s :
  Js.includes "." s = false -> extension s = Js.toLowerCase s.
Proof.
  intros H. unfold extension, Js.split. rewrite (split1_no_dot s H).
  reflexivity.
Qed.

(** C10 at its failing input.  A name without a dot is looked up whole:
    py gives python.  The lookup [langMap[ext]] also finds what the
    object literal inherits, so the dot-less names constructor and
    __proto__, absent from the table, do not give plaintext. *)
Theorem rename_dotless_inherited_key :
  languageOf "py" = VString "python" /\
  langMap !! "constructor" = None /\
  languageOf "constructor" = VInherited "constructor" /\
  languageOf "__proto__" = VInherited "__proto__" /\
  (exists cs',
     renameItem sampleTree "file2" "constructor"
       = Some (with_children sampleTree (Some cs')) /\
     language <$> findItems "file2" cs' = Some (VInherited "constructor")).
Proof.
  repeat split; try (vm_compute; reflexivity).
  eexists. split; reflexivity.
Qed.

(** What holds of dot-less names apart from the inherited keys: when the
    lower-cased name is neither in the table nor a property name of
    [Object.prototype], the language is plaintext. *)
Lemma rename_dotless_unknown s :
  Js.includes "." s = false ->
  langMap !! Js.toLowerCase s = None ->
  existsb (String.eqb (Js.toLowerCase s)) objectPrototypeKeys = false ->
  languageOf s = VString "plaintext".
Proof.
  intros Hdot Hmap Hproto. unfold languageOf.
  rewrite (extension_no_dot s Hdot). unfold langMap_get.
  rewrite Hmap, Hproto. reflexivity.
Qed.

End FileExplorerClaims.

(** ** Terminal *)

Section RecallFacts.
Import TerminalMock.

Lemma atIndex_atIndex i j s : atIndex j (atIndex i s) = atIndex j s.
Proof. reflexivity. Qed.

Lemma commandHistory_atIndex i s :
  commandHistory (atIndex i s) = commandHistory s.
Proof. reflexivity. Qed.

Lemma reset_empty_draft s :
  historyIndex s = -1 -> command s = Some "" ->
  setCommand (Some "") (setHistoryIndex (-1) s) = s.
Proof. destruct s; cbn; intros -> ->; reflexivity. Qed.

Lemma reset_atIndex i s :
  historyIndex s = -1 -> command s = Some "" ->
  setCommand (Some "") (setHistoryIndex (-1) (atIndex i s)) = s.
Proof. destruct s; cbn; intros -> ->; reflexivity. Qed.

Lemma recallPrevious_empty_log s :
  commandHistory s = [] -> recallPrevious s = s.
Proof. intros H. unfold recallPrevious, handleKeyDown. rewrite H. reflexivity. Qed.

Lemma nonempty_length_pos {A} (l : list A) :
  l <> [] -> (0 <? Z.of_nat (length l)) = true.
Proof. destruct l; [contradiction|]. intros _. apply Z.ltb_lt. cbn [length]. lia. Qed.

Lemma recallPrevious_first s :
  commandHistory s <> [] -> historyIndex s = -1 ->
  recallPrevious s = atIndex (Z.of_nat (length (commandHistory s)) - 1) s.
Proof.
  intros Hne Hi. unfold recallPrevious, handleKeyDown.
  cbn [String.eqb Ascii.eqb Bool.eqb].
  rewrite (nonempty_length_pos _ Hne), Hi, Z.eqb_refl. reflexivity.
Qed.

Lemma recallPrevious_atIndex i s :
  commandHistory s <> [] -> 0 <= i ->
  recallPrevious (atIndex i s) = atIndex (Z.max 0 (i - 1)) s.
Proof.
  intros Hne Hi. unfold recallPrevious, handleKeyDown.
  cbn [String.eqb Ascii.eqb Bool.eqb].
  rewrite commandHistory_atIndex, (nonempty_length_pos _ Hne).
  change (historyIndex (atIndex i s)) with i.
  destruct (i =? -1) eqn:E1; [apply Z.eqb_eq in E1; lia|].
  reflexivity.
Qed.

Lemma recallNext_no_cursor s : historyIndex s = -1 -> recallNext s = s.
Proof.
  intros H. unfold recallNext, handleKeyDown.
  cbn [String.eqb Ascii.eqb Bool.eqb]. rewrite H. reflexivity.
Qed.

Lemma recallNext_atIndex i s :
  0 <= i ->
  recallNext (atIndex i s) =
  if Z.of_nat (length (commandHistory s)) <=? i + 1
  then setCommand (Some "") (setHistoryIndex (-1) (atIndex i s))
  else atIndex (i + 1) s.
Proof.
  intros Hi. unfold recallNext, handleKeyDown.
  cbn [String.eqb Ascii.eqb Bool.eqb].
  change (historyIndex (atIndex i s)) with i.
  rewrite commandHistory_atIndex.
  destruct (i =? -1) eqn:E1; [apply Z.eqb_eq in E1; lia|].
  cbn [negb]. destruct (_ <=? _); reflexivity.
Qed.

Lemma recallPrevious_iter k s :
  commandHistory s <> [] -> historyIndex s = -1 ->
  Nat.iter (S k) recallPrevious s =
  atIndex (Z.max 0 (Z.of_nat (length (commandHistory s)) - 1 - Z.of_nat k)) s.
Proof.
  intros Hne Hi. induction k as [|k IH].
  - change (Nat.iter 1 recallPrevious s) with (recallPrevious s).
    rewrite (recallPrevious_first s Hne Hi). f_equal.
    destruct (commandHistory s); [contradiction|]. cbn [length]. lia.
  - change (Nat.iter (S (S k)) recallPrevious s)
      with (recallPrevious (Nat.iter (S k) recallPrevious s)).
    rewrite IH, recallPrevious_atIndex by (auto; lia). f_equal. lia.
Qed.

Lemma recallNext_iter j i s :
  historyIndex s = -1 -> command s = Some "" -> 0 <= i ->
  Nat.iter j recallNext (atIndex i s) =
  if (Z.of_nat (length (commandHistory s)) <=? i + Z.of_nat j) && (0 <? Z.of_nat j)
  then s else atIndex (i + Z.of_nat j) s.
Proof.
  intros Hi Hc H0. induction j as [|j IH].
  - change (Nat.iter 0 recallNext (atIndex i s)) with (atIndex i s).
    rewrite andb_false_r. f_equal. lia.
  - change (Nat.iter (S j) recallNext (atIndex i s))
      with (recallNext (Nat.iter j recallNext (atIndex i s))).
    rewrite IH.
    assert (E1 : (0 <? Z.of_nat (S j)) = true) by (apply Z.ltb_lt; lia).
    rewrite E1, andb_true_r.
    destruct ((Z.of_nat (length (commandHistory s)) <=? i + Z.of_nat j)
              && (0 <? Z.of_nat j)) eqn:E.
    + apply andb_true_iff in E as [E _]. apply Z.leb_le in E.
      rewrite (recallNext_no_cursor s Hi).
      destruct (_ <=? _) eqn:E2; [reflexivity|]. apply Z.leb_gt in E2. lia.
    + rewrite recallNext_atIndex by lia.
      replace (i + Z.of_nat j + 1) with (i + Z.of_nat (S j)) by lia.
      destruct (_ <=? i + Z.of_nat (S j)); [|reflexivity].
      apply reset_atIndex; assumption.
Qed.

End RecallFacts.

Section RecallClaim.
Import TerminalMock.

(** C5: from the empty draft state (no cursor, empty input), pressing
    ArrowUp k times and then ArrowDown k times gives back the same state,
    for every command-text log and every k.  ArrowUp at the oldest entry
    stays there, and ArrowDown at the newest entry clears the cursor and
    empties the input. *)
Theorem recall_previous_next_roundtrip (s : State) (k : nat) :
  historyIndex s = -1 ->
  command s = Some "" ->
  Nat.iter k recallNext (Nat.iter k recallPrevious s) = s /\
  (commandHistory s <> [] ->
   recallPrevious (atIndex 0 s) = atIndex 0 s /\
   recallNext (atIndex (Z.of_nat (length (commandHistory s)) - 1) s) = s).
Proof.
  intros Hi Hc. split.
  - destruct (commandHistory s) eqn:E.
    + assert (Hprev : forall n, Nat.iter n recallPrevious s = s).
      { induction n as [|n IH]; [reflexivity|].
        change (Nat.iter (S n) recallPrevious s)
          with (recallPrevious (Nat.iter n recallPrevious s)).
        rewrite IH. apply recallPrevious_empty_log, E. }
      rewrite Hprev. induction k as [|k IH]; [reflexivity|].
      change (Nat.iter (S k) recallNext s)
        with (recallNext (Nat.iter k recallNext s)).
      rewrite IH. apply recallNext_no_cursor, Hi.
    + destruct k as [|k]; [reflexivity|].
      assert (Hne : commandHistory s <> []) by (rewrite E; discriminate).
      rewrite (recallPrevious_iter k s Hne Hi).
      rewrite (recallNext_iter (S k) _ s Hi Hc) by lia.
      destruct (_ && _) eqn:E2; [reflexivity|].
      apply andb_false_iff in E2 as [E2|E2].
      * apply Z.leb_gt in E2. lia.
      * apply Z.ltb_ge in E2. lia.
  - intros Hne. split.
    + rewrite recallPrevious_atIndex by (auto; lia). reflexivity.
    + assert (Hpos := nonempty_length_pos _ Hne). apply Z.ltb_lt in Hpos.
      rewrite recallNext_atIndex by lia.
      destruct (_ <=? _) eqn:E2.
      * apply reset_atIndex; assumption.
      * apply Z.leb_gt in E2. lia.
Qed.

Lemma recall_previous_next_roundtrip_witness :
  Nat.iter 3 recallNext (Nat.iter 3 recallPrevious sampleSession)
    = sampleSession /\
  (commandHistory sampleSession <> [] ->
   recallPrevious (atIndex 0 sampleSession) = atIndex 0 sampleSession /\
   recallNext (atIndex (Z.of_nat (length (commandHistory sampleSession)) - 1)
                 sampleSession) = sampleSession).
Proof.
  apply (recall_previous_next_roundtrip sampleSession 3); reflexivity.
Defined.

End RecallClaim.

Section ClearClaim.
Import TerminalApi.

Lemma api_run_reachable es s s' :
  reachable s -> run es s = Some s' -> reachable s'.
Proof.
  revert s. induction es as [|e es IH]; intros s Hs Hrun; cbn in Hrun.
  - congruence.
  - destruct (step e s) as [s1|] eqn:E; [|discriminate].
    apply (IH s1); [|assumption]. exact (reachable_step s e s1 Hs E).
Qed.

(** C6, as stated, fails: after a command ran and ArrowUp recalled it, the
    cursor is 0; clearing the terminal empties the history and leaves the
    cursor at 0 instead of resetting it. *)
Lemma clearTerminal_keeps_cursor_counterexample :
  exists s,
    run sampleEvents initial = Some s /\
    reachable s /\
    historyIndex s = 0 /\
    history (clearTerminal s) = [] /\
    historyIndex (clearTerminal s) = 0 /\
    historyIndex (clearTerminal s) <> -1.
Proof.
  eexists. split; [vm_compute; reflexivity|]. split.
  - apply (api_run_reachable sampleEvents initial);
      [apply reachable_initial|reflexivity].
  - split; [reflexivity|]. split; [reflexivity|]. split; [reflexivity|].
    vm_compute. discriminate.
Qed.

(** C6, amended: clearing empties the history and touches nothing else of
    the session: the working directory, the recall cursor, the
    command-text log, the input and the running flag keep their values.
    The same holds for the Clear button of the mock terminal. *)
Theorem clear_empties_history_only (s : State) (m : TerminalMock.State) :
  history (clearTerminal s) = [] /\
  workingDirectory (clearTerminal s) = workingDirectory s /\
  historyIndex (clearTerminal s) = historyIndex s /\
  commandHistory (clearTerminal s) = commandHistory s /\
  command (clearTerminal s) = command s /\
  isRunning (clearTerminal s) = isRunning s /\
  TerminalMock.history (TerminalMock.clearClicked m) = [] /\
  TerminalMock.clearClicked m = TerminalMock.setHistory [] m.
Proof. repeat split. Qed.

End ClearClaim.

Section EntryFacts.

Lemma updateLast_app f h e : updateLast f (h ++ [e]) = h ++ [f e].
Proof.
  induction h as [|x h IH]; [reflexivity|].
  cbn [app updateLast]. rewrite IH.
  destruct (h ++ [e]) eqn:E; [|reflexivity].
  destruct h; discriminate.
Qed.

Lemma Forall_nonRunning_removelast h :
  Forall nonRunning h -> Forall nonRunning (removelast h).
Proof.
  induction 1 as [|x h Hx _ IH]; [constructor|].
  cbn [removelast]. destruct h; constructor; auto.
Qed.

Lemma Forall_nonRunning_updateLast f h :
  (forall e, nonRunning (f e)) ->
  Forall nonRunning (removelast h) ->
  Forall nonRunning (updateLast f h).
Proof.
  intros Hf. induction h as [|x h IH]; [constructor|].
  cbn [removelast updateLast]. destruct h as [|y h].
  - intros _. constructor; [apply Hf|constructor].
  - intros H. apply Forall_cons in H as [Hx H].
    constructor; [assumption|]. apply IH, H.
Qed.

Lemma runningCount_nonRunning h : Forall nonRunning h -> runningCount h = 0%nat.
Proof.
  unfold runningCount. induction 1 as [|x h Hx _ IH]; [reflexivity|].
  cbn [List.filter]. rewrite Hx. exact IH.
Qed.

Lemma runningCount_app h1 h2 :
  runningCount (h1 ++ h2) = (runningCount h1 + runningCount h2)%nat.
Proof. unfold runningCount. rewrite List.filter_app, length_app. reflexivity. Qed.

Lemma runningCount_le_1 h :
  Forall nonRunning (removelast h) -> (runningCount h <= 1)%nat.
Proof.
  intros H. destruct h as [|x h]; [cbn; lia|].
  rewrite (app_removelast_last x (l := x :: h)) by discriminate.
  rewrite runningCount_app, (runningCount_nonRunning _ H).
  unfold runningCount. cbn [List.filter]. destruct (isRunningEntry _); cbn; lia.
Qed.

End EntryFacts.

Section MockTerminalFacts.
Import TerminalMock.

(** The timer callback either fills in the last entry with an output and a
    final type, or, for the command clear, empties the history. *)
Lemma onTimeout_cases p d s :
  (exists o t, t <> type_running /\ onTimeout p d s = finish o t s) \/
  (trimmedCmd p = "clear" /\
   onTimeout p d s = setIsRunning false (setHistory [] s)).
Proof.
  unfold onTimeout.
  repeat match goal with
         | |- context [if ?b then finish _ _ _ else _] => destruct b eqn:?
         | |- context [if ?b then setIsRunning _ _ else _] => destruct b eqn:?
         end;
    try (left; eexists; eexists; split; [|reflexivity]; discriminate).
  all: right; split; [|reflexivity]; apply String.eqb_eq; assumption.
Qed.

Lemma consistent_initial : consistent initial.
Proof.
  split; [reflexivity|]. split; [|intros _];
    repeat constructor.
Qed.

Lemma consistent_finish o t s :
  t <> type_running ->
  Forall nonRunning (removelast (history s)) ->
  Forall nonRunning (history (finish o t s)).
Proof.
  intros Ht H. cbn. apply Forall_nonRunning_updateLast; [|assumption].
  intros e. unfold nonRunning, isRunningEntry. cbn. destruct t; congruence.
Qed.

Lemma consistent_fireTimer i d s s' :
  consistent s -> fireTimer i d s = Some s' ->
  isRunning s = true /\ i = 0%nat /\
  isRunning s' = false /\ timers s' = [] /\
  Forall nonRunning (history s').
Proof.
  intros (Ht & Hl & Hf) Hfire. unfold fireTimer in Hfire.
  destruct (timers s !! i) as [p|] eqn:E; [|discriminate].
  injection Hfire as <-.
  destruct (isRunning s) eqn:Er.
  2:{ destruct (timers s); [discriminate|discriminate]. }
  destruct (timers s) as [|p0 [|p1 l]] eqn:Et; try discriminate.
  destruct i as [|i]; [|destruct i; discriminate].
  split; [reflexivity|]. split; [reflexivity|].
  destruct (onTimeout_cases p d (setTimers (delete 0%nat [p0]) s))
    as [(o & t & Hne & ->)|[_ ->]].
  - split; [reflexivity|]. split; [reflexivity|].
    apply consistent_finish; assumption.
  - split; [reflexivity|]. split; [reflexivity|]. constructor.
Qed.

Lemma handleKeyDown_frame key s :
  history (handleKeyDown key s) = history s /\
  isRunning (handleKeyDown key s) = isRunning s /\
  timers (handleKeyDown key s) = timers s.
Proof.
  unfold handleKeyDown.
  repeat match goal with
         | |- context [if ?b then _ else _] => destruct b
         end; repeat split.
Qed.

Lemma handleSubmit_running af s : isRunning s = true -> handleSubmit af s = s.
Proof.
  intros H. unfold handleSubmit, submitAccepted. rewrite H.
  destruct (command s); [|reflexivity]. rewrite andb_false_r. reflexivity.
Qed.

Lemma handleSubmit_accepted af c s :
  command s = Some c -> Js.truthy (Js.trim c) = true -> isRunning s = false ->
  handleSubmit af s =
  {| command := Some "";
     history := history s ++ [mockEntry (Js.trim c) "" type_running];
     isRunning := true;
     commandHistory := commandHistory s ++ [Js.trim c];
     historyIndex := -1;
     timers := timers s ++ [{| trimmedCmd := Js.trim c; activeFile := af |}] |}.
Proof.
  intros Hc Ht Hr. unfold handleSubmit, submitAccepted, executeCommand.
  rewrite Hc, Ht, Hr. reflexivity.
Qed.

Lemma handleSubmit_ignored af s :
  handleSubmit af s = s \/
  exists c, command s = Some c /\ Js.truthy (Js.trim c) = true /\
            isRunning s = false.
Proof.
  unfold handleSubmit, submitAccepted.
  destruct (command s) as [c|]; [|left; reflexivity].
  destruct (Js.truthy (Js.trim c)) eqn:Et; [|left; reflexivity].
  destruct (isRunning s) eqn:Er; [left; reflexivity|].
  right. exists c. repeat split; assumption.
Qed.

Lemma consistent_step e s s' :
  consistent s -> step e s = Some s' -> consistent s'.
Proof.
  intros Hs Hstep. destruct e as [text|af|key| |i d]; cbn [step] in Hstep.
  - injection Hstep as <-. exact Hs.
  - injection Hstep as <-.
    destruct (handleSubmit_ignored af s) as [->|(c & Hc & Ht & Hr)];
      [exact Hs|].
    rewrite (handleSubmit_accepted af c s Hc Ht Hr).
    destruct Hs as (Htm & Hl & Hf). rewrite Hr in Htm.
    destruct (timers s); [|discriminate].
    split; [reflexivity|]. cbn [history isRunning]. split; [|discriminate].
    rewrite removelast_last. apply Hf, Hr.
  - injection Hstep as <-.
    destruct (handleKeyDown_frame key s) as (Hh & Hr & Ht).
    unfold consistent. rewrite Hh, Hr, Ht. exact Hs.
  - injection Hstep as <-. destruct Hs as (Htm & Hl & Hf).
    split; [exact Htm|]. split; [constructor|intros _; constructor].
  - destruct (consistent_fireTimer i d s s' Hs Hstep)
      as (_ & _ & Hr & Ht & Hall).
    unfold consistent. rewrite Hr, Ht. split; [reflexivity|].
    split; [apply Forall_nonRunning_removelast, Hall|intros _; exact Hall].
Qed.

Lemma reachable_consistent s : reachable s -> consistent s.
Proof.
  induction 1 as [|s e s' _ IH Hstep].
  - apply consistent_initial.
  - exact (consistent_step e s s' IH Hstep).
Qed.

Lemma mock_run_reachable es s s' :
  reachable s -> run es s = Some s' -> reachable s'.
Proof.
  revert s. induction es as [|e es IH]; intros s Hs Hrun; cbn in Hrun.
  - congruence.
  - destruct (step e s) as [s1|] eqn:E; [|discriminate].
    apply (IH s1); [|assumption]. exact (reachable_step s e s1 Hs E).
Qed.

End MockTerminalFacts.

Section MockTerminalClaims.
Import TerminalMock.

(** C1: in every reachable state of the terminal at most one entry is
    running and at most one command is in flight.  While a command is
    running the guard of handleSubmit rejects a submission and the state
    is left exactly as it was.  When the running command completes, the
    session is idle again, no entry is running, and submitting a non-blank
    command is accepted: it becomes the one running entry. *)
Theorem at_most_one_running (s : State) :
  reachable s ->
  (runningCount (history s) <= 1)%nat /\
  (length (timers s) <= 1)%nat /\
  (isRunning s = true ->
   forall af,
     (forall c, command s = Some c -> submitAccepted c s = false) /\
     handleSubmit af s = s) /\
  (forall i d s1,
     fireTimer i d s = Some s1 ->
     isRunning s1 = false /\
     runningCount (history s1) = 0%nat /\
     forall af c,
       Js.truthy (Js.trim c) = true ->
       let s2 := handleSubmit af (setCommand (Some c) s1) in
       isRunning s2 = true /\
       history s2 = history s1 ++ [mockEntry (Js.trim c) "" type_running] /\
       runningCount (history s2) = 1%nat).
Proof.
  intros Hreach. pose proof (reachable_consistent s Hreach) as Hs.
  destruct Hs as (Ht & Hl & Hf). split; [|split; [|split]].
  - apply runningCount_le_1, Hl.
  - rewrite Ht. destruct (isRunning s); lia.
  - intros Hr af. split.
    + intros c _. unfold submitAccepted. rewrite Hr. apply andb_false_r.
    + apply handleSubmit_running, Hr.
  - intros i d s1 Hfire.
    destruct (consistent_fireTimer i d s s1 (conj Ht (conj Hl Hf)) Hfire)
      as (_ & _ & Hr1 & Ht1 & Hall).
    split; [exact Hr1|]. split; [apply runningCount_nonRunning, Hall|].
    intros af c Hc s2. subst s2.
    rewrite (handleSubmit_accepted af c (setCommand (Some c) s1) eq_refl Hc Hr1).
    cbn [isRunning history]. split; [reflexivity|]. split; [reflexivity|].
    change (history (setCommand (Some c) s1)) with (history s1).
    rewrite runningCount_app, (runningCount_nonRunning _ Hall). reflexivity.
Qed.

Lemma at_most_one_running_witness :
  reachable busySession /\
  isRunning busySession = true /\
  (runningCount (history busySession) <= 1)%nat /\
  (forall af, handleSubmit af busySession = busySession) /\
  (forall s1, fireTimer 0 "" busySession = Some s1 -> isRunning s1 = false).
Proof.
  assert (H : reachable busySession).
  { apply (reachable_step (setCommand (Some "ls") initial) (Submitted None));
      [|reflexivity].
    apply (reachable_step initial (Typed "ls")); [|reflexivity].
    apply reachable_initial. }
  split; [exact H|]. split; [reflexivity|].
  destruct (at_most_one_running busySession H) as (H1 & _ & H3 & H4).
  split; [exact H1|]. split.
  - intros af. apply (H3 eq_refl af).
  - intros s1 Hs1. apply (H4 0%nat "" s1 Hs1).
Defined.

Lemma submitAndComplete_appends af d c s :
  isRunning s = false -> timers s = [] ->
  Js.truthy (Js.trim c) = true -> Js.trim c <> "clear" ->
  exists s' e,
    submitAndComplete af d c s = Some s' /\
    history s' = history s ++ [e] /\
    entry_command e = Js.trim c /\ nonRunning e /\
    isRunning s' = false /\ timers s' = [].
Proof.
  intros Hr Ht Hc Hclear. unfold submitAndComplete.
  rewrite (handleSubmit_accepted af c (setCommand (Some c) s) eq_refl Hc Hr).
  unfold fireTimer. cbn [timers setCommand]. rewrite Ht. cbn [app lookup list_lookup].
  match goal with
  | |- context [onTimeout ?p d ?x] =>
      destruct (onTimeout_cases p d x) as [(o & t & Hne & ->)|[Habs _]]
  end.
  - eexists. eexists. split; [reflexivity|].
    cbn [finish history setHistory setIsRunning setTimers isRunning timers].
    rewrite updateLast_app. split; [reflexivity|]. split; [reflexivity|].
    split; [|split; reflexivity].
    unfold nonRunning, isRunningEntry. cbn. destruct t; congruence.
  - cbn in Habs. contradiction.
Qed.

(** C4, as stated, fails: there is no cap.  After fifty-one commands were
    submitted and completed on an empty history, the history holds
    fifty-one records, not fifty, and the oldest one is still the first. *)
Lemma history_unbounded_counterexample :
  exists s',
    submitAll None "" fiftyOneCommands (clearClicked initial) = Some s' /\
    length fiftyOneCommands = 51%nat /\
    length (history s') = 51%nat /\
    length (history s') <> 50%nat /\
    entry_command <$> head (history s') = Some "echo oldest".
Proof.
  eexists. split; [vm_compute; reflexivity|].
  split; [reflexivity|]. split; [reflexivity|].
  split; [vm_compute; discriminate|reflexivity].
Qed.

(** C4, amended: the history of the terminal component is not bounded.
    Submitting and completing n commands, none of them blank or the
    command clear, on an idle session appends n records after the existing
    ones, in submission order; no record is evicted. *)
Theorem history_grows_without_eviction af d cs s :
  isRunning s = false ->
  timers s = [] ->
  Forall (fun c => Js.truthy (Js.trim c) = true /\ Js.trim c <> "clear") cs ->
  exists s' rest,
    submitAll af d cs s = Some s' /\
    history s' = history s ++ rest /\
    length (history s') = (length (history s) + length cs)%nat /\
    map entry_command rest = map Js.trim cs /\
    isRunning s' = false.
Proof.
  intros Hr Ht Hcs. revert s Hr Ht.
  induction Hcs as [|c cs [Hc Hclear] _ IH]; intros s Hr Ht.
  - exists s, []. cbn. rewrite app_nil_r, Nat.add_0_r. repeat split. exact Hr.
  - destruct (submitAndComplete_appends af d c s Hr Ht Hc Hclear)
      as (s1 & e & Hsub & Hh & He & _ & Hr1 & Ht1).
    destruct (IH s1 Hr1 Ht1) as (s' & rest & Hall & Hh' & Hlen & Hmap & Hr').
    exists s', (e :: rest). cbn [submitAll]. rewrite Hsub.
    split; [exact Hall|]. split.
    + rewrite Hh', Hh, <- app_assoc. reflexivity.
    + split.
      * rewrite Hlen, Hh, length_app. cbn [length]. lia.
      * split; [|exact Hr']. cbn [map]. rewrite He, Hmap. reflexivity.
Qed.

Lemma history_grows_without_eviction_witness :
  exists s' rest,
    submitAll None "" ["ls"; "pwd"; "nope"] initial = Some s' /\
    history s' = history initial ++ rest /\
    length (history s') = (length (history initial) + 3)%nat /\
    map entry_command rest = map Js.trim ["ls"; "pwd"; "nope"] /\
    isRunning s' = false.
Proof.
  apply (history_grows_without_eviction None "" ["ls"; "pwd"; "nope"] initial).
  - reflexivity.
  - reflexivity.
  - repeat constructor; discriminate.
Defined.

End MockTerminalClaims.

Section ApiTerminalFacts.
Import TerminalApi.

Lemma executeCount_app l1 l2 :
  executeCount (l1 ++ l2) = (executeCount l1 + executeCount l2)%nat.
Proof. unfold executeCount. rewrite List.filter_app, length_app. reflexivity. Qed.

Lemma executeCount_delete i c (l : list Call) :
  l !! i = Some c ->
  executeCount l =
  ((if isExecute c then 1 else 0) + executeCount (delete i l))%nat.
Proof.
  revert i. induction l as [|x l IH]; intros i H; [discriminate|].
  destruct i as [|i]; cbn in H.
  - injection H as ->. unfold executeCount. cbn [delete list_delete List.filter].
    destruct (isExecute c); reflexivity.
  - unfold executeCount in *. cbn [delete list_delete List.filter].
    destruct (isExecute x); cbn [length]; rewrite (IH i H);
      destruct (isExecute c); reflexivity.
Qed.

Lemma nonRunning_entryOfResult r : nonRunning (entryOfResult r).
Proof.
  unfold nonRunning, isRunningEntry, entryOfResult. cbn.
  destruct (exit_code r =? 0); reflexivity.
Qed.

Lemma api_handleKeyDown_frame key s :
  history (handleKeyDown key s) = history s /\
  isRunning (handleKeyDown key s) = isRunning s /\
  calls (handleKeyDown key s) = calls s.
Proof.
  unfold handleKeyDown.
  repeat match goal with
         | |- context [if ?b then _ else _] => destruct b
         end; repeat split.
Qed.

Lemma api_handleSubmit_running s : isRunning s = true -> handleSubmit s = s.
Proof.
  intros H. unfold handleSubmit, submitAccepted. rewrite H.
  destruct (command s); [|reflexivity]. rewrite andb_false_r. reflexivity.
Qed.

Lemma api_handleSubmit_cases s :
  handleSubmit s = s \/
  exists c, command s = Some c /\ Js.truthy (Js.trim c) = true /\
            isRunning s = false /\
            isRunning (handleSubmit s) = true /\
            calls (handleSubmit s) =
              calls s ++ [CallExecute (Js.trim c) (workingDirectory s)] /\
            history (handleSubmit s) =
              history s ++ [{| entry_command := Js.trim c; entry_output := "";
                               entry_type := type_running;
                               working_directory := Some (workingDirectory s);
                               execution_time := None |}].
Proof.
  unfold handleSubmit, submitAccepted, executeCommand.
  destruct (command s) as [c|] eqn:Ec; [|left; reflexivity].
  destruct (Js.truthy (Js.trim c)) eqn:Et; [|left; reflexivity].
  destruct (isRunning s) eqn:Er; [left; reflexivity|].
  right. exists c. repeat split. exact Et.
Qed.

Lemma api_consistent_initial : consistent initial.
Proof. split; [reflexivity|]. split; [|intros _]; constructor. Qed.

Lemma api_consistent_execute_done s i c f :
  consistent s -> calls s !! i = Some c -> isExecute c = true ->
  (forall e, nonRunning (f e)) ->
  isRunning s = true /\
  executeCount (delete i (calls s)) = 0%nat /\
  Forall nonRunning (updateLast f (history s)).
Proof.
  intros (Hc & Hl & Hf) Hi Hex Hfn.
  pose proof (executeCount_delete i c (calls s) Hi) as Hd.
  rewrite Hex, Hc in Hd. destruct (isRunning s); [|lia].
  split; [reflexivity|]. split; [lia|].
  apply Forall_nonRunning_updateLast; assumption.
Qed.

Lemma api_consistent_step e s s' :
  consistent s -> step e s = Some s' -> consistent s'.
Proof.
  intros Hs Hstep.
  destruct e as [text| |key| | |i r|i msg]; cbn [step] in Hstep.
  - injection Hstep as <-. exact Hs.
  - injection Hstep as <-.
    destruct (api_handleSubmit_cases s)
      as [->|(c & _ & _ & Hr & Hr' & Hc' & Hh')]; [exact Hs|].
    destruct Hs as (Hc & Hl & Hf). unfold consistent.
    rewrite Hr', Hc', Hh', executeCount_app, Hc, Hr, removelast_last.
    split; [reflexivity|]. split; [apply Hf, Hr|discriminate].
  - injection Hstep as <-.
    destruct (api_handleKeyDown_frame key s) as (Hh & Hr & Hc).
    unfold consistent. rewrite Hh, Hr, Hc. exact Hs.
  - injection Hstep as <-. destruct Hs as (Hc & Hl & Hf).
    unfold consistent, clearTerminal.
    cbn [calls history isRunning setCalls setHistory].
    rewrite executeCount_app, Hc. cbn. rewrite Nat.add_0_r.
    split; [reflexivity|]. split; [constructor|intros _; constructor].
  - injection Hstep as <-. destruct Hs as (Hc & Hl & Hf).
    unfold consistent, loadHistory. cbn [calls history isRunning setCalls].
    rewrite executeCount_app, Hc. cbn. rewrite Nat.add_0_r. auto.
  - destruct (calls s !! i) as [c|] eqn:Ei; [|discriminate].
    pose proof (executeCount_delete i c (calls s) Ei) as Hd.
    destruct c as [cmd wd| |], r as [result|l|]; cbn [resolved] in Hstep;
      try discriminate; injection Hstep as <-.
    + destruct (api_consistent_execute_done s i _ (fun _ => entryOfResult result)
                  Hs Ei eq_refl (fun _ => nonRunning_entryOfResult result))
        as (_ & H0 & Hall).
      unfold consistent. destruct (exit_code result =? 0);
        cbn [calls history isRunning setCalls setHistory setIsRunning
             setWorkingDirectory];
        (split; [exact H0|]);
        (split; [apply Forall_nonRunning_removelast, Hall|intros _; exact Hall]).
    + destruct Hs as (Hc & Hl & Hf). cbn in Hd. unfold consistent.
      cbn [calls history isRunning setCalls setHistory].
      assert (Hall : Forall nonRunning (map entryOfResult l)).
      { apply Forall_forall. intros e He. apply list_elem_of_In in He.
        apply in_map_iff in He as (x & <- & _).
        apply nonRunning_entryOfResult. }
      split; [rewrite <- Hd; exact Hc|].
      split; [apply Forall_nonRunning_removelast, Hall|intros _; exact Hall].
    + destruct Hs as (Hc & Hl & Hf). cbn in Hd. unfold consistent.
      cbn [calls history isRunning setCalls]. rewrite <- Hd. auto.
  - destruct (calls s !! i) as [c|] eqn:Ei; [|discriminate].
    pose proof (executeCount_delete i c (calls s) Ei) as Hd.
    injection Hstep as <-. destruct c as [cmd wd| |]; cbn [rejected].
    + match goal with
      | |- context [updateLast ?f _] =>
          destruct (api_consistent_execute_done s i _ f Hs Ei eq_refl
                      (fun _ => eq_refl)) as (_ & H0 & Hall)
      end.
      unfold consistent.
      cbn [calls history isRunning setCalls setHistory setIsRunning
           setError consoleError].
      split; [exact H0|].
      split; [apply Forall_nonRunning_removelast, Hall|intros _; exact Hall].
    + destruct Hs as (Hc & Hl & Hf). cbn in Hd. unfold consistent.
      cbn [calls history isRunning setCalls consoleError]. rewrite <- Hd. auto.
    + destruct Hs as (Hc & Hl & Hf). cbn in Hd. unfold consistent.
      cbn [calls history isRunning setCalls consoleError]. rewrite <- Hd. auto.
Qed.

(** The API-backed terminal keeps the same discipline as the mock one:
    at most one running entry, at most one awaited execution, and a
    submission while a command runs changes nothing. *)
Lemma api_single_running_command s :
  reachable s ->
  (runningCount (history s) <= 1)%nat /\
  (executeCount (calls s) <= 1)%nat /\
  (isRunning s = true -> handleSubmit s = s).
Proof.
  intros Hreach.
  assert (Hs : consistent s).
  { induction Hreach as [|s e s' _ IH Hstep].
    - apply api_consistent_initial.
    - exact (api_consistent_step e s s' IH Hstep). }
  destruct Hs as (Hc & Hl & Hf). split; [|split].
  - apply runningCount_le_1, Hl.
  - rewrite Hc. destruct (isRunning s); lia.
  - apply api_handleSubmit_running.
Qed.

End ApiTerminalFacts.

(** ** Editor session *)

Section EditorFacts.
Import CodeEditor.

Lemma settle_stable s : stable s = true -> settle s = s.
Proof. intros H. unfold settle. cbn [settleFor]. rewrite H. reflexivity. Qed.

Ltac commit_cases :=
  unfold CodeEditor.commit, CodeEditor.effect1, CodeEditor.effect2,
    CodeEditor.setSaveTimeout, CodeEditor.clearSaveTimeout,
    CodeEditor.clearTimeout, CodeEditor.render, CodeEditor.depsOf1,
    CodeEditor.depsOf2;
  cbn [CodeEditor.app_activeFile CodeEditor.content CodeEditor.hasChanges
       CodeEditor.deps1 CodeEditor.deps2 CodeEditor.saveTimeoutRef
       CodeEditor.activeFile CodeEditor.render_content
       CodeEditor.render_hasChanges];
  repeat match goal with
         | |- context [if ?b then _ else _] => destruct b
         | |- context [match ?o with Some _ => _ | None => _ end] =>
             destruct o
         end.

(** A commit records the dependencies of the render it belongs to and
    never replaces [activeFile]. *)
Lemma commit_activeFile s :
  app_activeFile (commit s) = app_activeFile s /\
  deps1 (commit s) = Some (depsOf1 (render s)) /\
  deps2 (commit s) = Some (depsOf2 (render s)).
Proof.
  destruct s as [af nr ct hc sv ls tr d1 d2 ck tm nt rq fl cs].
  commit_cases; repeat split.
Qed.

(** Only the first effect writes [content] and [hasChanges]. *)
Lemma commit_unchanged1 s :
  changed1 (render s) s = false ->
  content (commit s) = content s /\ hasChanges (commit s) = hasChanges s.
Proof.
  destruct s as [af nr ct hc sv ls tr d1 d2 ck tm nt rq fl cs].
  unfold commit. intros ->.
  unfold effect2, setSaveTimeout, clearSaveTimeout, clearTimeout, render,
    depsOf1, depsOf2.
  cbn [app_activeFile content hasChanges deps1 deps2 saveTimeoutRef
       activeFile render_content render_hasChanges].
  repeat match goal with
         | |- context [if ?b then _ else _] => destruct b
         | |- context [match ?o with Some _ => _ | None => _ end] =>
             destruct o
         end; repeat split.
Qed.

(** Two commits are enough for the effects to come to rest, so the three
    that [settle] allows always end in a stable state. *)
Lemma stable_commit_commit s : stable (commit (commit s)) = true.
Proof.
  destruct (commit_activeFile s) as (Ha1 & Hd1 & _).
  destruct (commit_activeFile (commit s)) as (Ha2 & Hd2 & He2).
  assert (H1 : changed1 (render (commit s)) (commit s) = false).
  { unfold changed1. rewrite Hd1. unfold depsOf1, render. cbn [activeFile].
    rewrite Ha1. rewrite bool_decide_eq_true_2 by reflexivity. reflexivity. }
  destruct (commit_unchanged1 (commit s) H1) as (Hc & Hh).
  unfold stable, changed1, changed2. rewrite Hd2, He2.
  unfold depsOf1, depsOf2, render.
  cbn [activeFile render_content render_hasChanges].
  rewrite Ha2, Hc, Hh.
  rewrite !bool_decide_eq_true_2 by reflexivity. reflexivity.
Qed.

Lemma settle_is_stable s : stable (settle s) = true.
Proof.
  unfold settle. cbn [settleFor].
  destruct (stable s) eqn:E1; [exact E1|].
  destruct (stable (commit s)) eqn:E2; [exact E2|].
  rewrite stable_commit_commit. apply stable_commit_commit.
Qed.

Lemma fireDue_stable fuel s : stable s = true -> stable (fireDue fuel s) = true.
Proof.
  revert s. induction fuel as [|fuel IH]; intros s Hs; [exact Hs|].
  cbn [fireDue]. destruct (List.find _ (timers s)); [|exact Hs].
  apply IH, settle_is_stable.
Qed.

(** Between events no effect is due. *)
Lemma reachable_stable s : reachable s -> stable s = true.
Proof.
  induction 1 as [|s e s' _ IH Hstep]; [apply settle_is_stable|].
  destruct e as [f|c|a b t| |ms|i n|i m]; cbn [step] in Hstep;
    repeat match type of Hstep with
           | (if ?b then _ else _) = Some _ => destruct b
           | match ?o with Some _ => _ | None => _ end = Some _ => destruct o
           end;
    try discriminate; injection Hstep as <-;
    try apply settle_is_stable.
  apply fireDue_stable. destruct s. exact IH.
Qed.

(** A rejected save touches neither the content nor the dirty flag. *)
Lemma saveRejected_frame r msg s :
  content (saveRejected r msg s) = content s /\
  hasChanges (saveRejected r msg s) = hasChanges s /\
  lastSaved (saveRejected r msg s) = lastSaved s /\
  app_activeFile (saveRejected r msg s) = app_activeFile s.
Proof. destruct s. repeat split. Qed.

End EditorFacts.

Ltac editor_fields :=
  unfold CodeEditor.render, CodeEditor.depsOf1, CodeEditor.depsOf2,
    CodeEditor.withContent, CodeEditor.allocatedAt;
  cbn [CodeEditor.app_activeFile CodeEditor.nextRef CodeEditor.content
       CodeEditor.hasChanges CodeEditor.isSaving CodeEditor.lastSaved
       CodeEditor.saveTimeoutRef CodeEditor.deps1 CodeEditor.deps2
       CodeEditor.clock CodeEditor.timers CodeEditor.nextTimer
       CodeEditor.requests CodeEditor.inflight CodeEditor.console
       CodeEditor.setActiveFile CodeEditor.setContent
       CodeEditor.setHasChanges CodeEditor.setIsSaving
       CodeEditor.setLastSaved CodeEditor.setSaveTimeoutRef
       CodeEditor.setTimers CodeEditor.setNextRef CodeEditor.setNextTimer
       CodeEditor.setDeps1 CodeEditor.setDeps2 CodeEditor.setClock
       CodeEditor.setConsole CodeEditor.setRequests CodeEditor.setInflight
       CodeEditor.activeFile CodeEditor.render_content
       CodeEditor.render_hasChanges CodeEditor.ref CodeEditor.file_id
       CodeEditor.file_path CodeEditor.file_content CodeEditor.modified_at
       CodeEditor.timer_id CodeEditor.due CodeEditor.callback
       fmap option_fmap option_map default andb negb].

Ltac decide_deps :=
  repeat first
    [ rewrite bool_decide_eq_true_2
        by first [reflexivity | eexists; reflexivity]
    | rewrite bool_decide_eq_false_2 by (intros [=]; lia) ];
  editor_fields.

(** The two commits that follow a change in the textarea. *)
Section Typing.
Import CodeEditor.
Variables (f : FileObj) (c ct : string) (hc sv : bool) (ls : option string)
  (tr : option nat) (nr nt : nat) (ck : Z) (rq : list (string * string))
  (fl : list Render) (cs : list string).

Local Abbreviation f' := (withContent nr f c).
Local Abbreviation r1 :=
  {| activeFile := Some f'; render_content := c; render_hasChanges := true |}.

Lemma commit_typed :
  (ref f < nr)%nat ->
  commit (mkSystem (Some f') (S nr) c true sv ls tr
            (Some (Some (ref f))) (Some (ct, hc, Some (ref f)))
            ck [] nt rq fl cs)
  = mkSystem (Some f') (S nr) c false sv (modified_at f) (Some nt)
      (Some (Some nr)) (Some (c, true, Some nr))
      ck [{| timer_id := nt; due := ck + 2000; callback := r1 |}] (S nt)
      rq fl cs.
Proof.
  intros Href. unfold commit, changed1, changed2. editor_fields. decide_deps.
  unfold effect1, effect2. editor_fields. decide_deps.
  unfold setSaveTimeout, clearSaveTimeout, clearTimeout.
  destruct tr; reflexivity.
Qed.

Lemma commit_reset :
  (ref f < nr)%nat ->
  commit (mkSystem (Some f') (S nr) c false sv (modified_at f) (Some nt)
      (Some (Some nr)) (Some (c, true, Some nr))
      ck [{| timer_id := nt; due := ck + 2000; callback := r1 |}] (S nt)
      rq fl cs)
  = mkSystem (Some f') (S nr) c false sv (modified_at f) (Some nt)
      (Some (Some nr)) (Some (c, false, Some nr))
      ck [] (S nt) rq fl cs.
Proof.
  intros Href. unfold commit, changed1, changed2. editor_fields. decide_deps.
  unfold effect2. editor_fields.
  unfold clearSaveTimeout, clearTimeout. editor_fields.
  cbn [List.filter]. rewrite Nat.eqb_refl. reflexivity.
Qed.

Lemma settle_typed :
  (ref f < nr)%nat ->
  settle (mkSystem (Some f') (S nr) c true sv ls tr
            (Some (Some (ref f))) (Some (ct, hc, Some (ref f)))
            ck [] nt rq fl cs)
  = mkSystem (Some f') (S nr) c false sv (modified_at f) (Some nt)
      (Some (Some nr)) (Some (c, false, Some nr))
      ck [] (S nt) rq fl cs.
Proof.
  intros Href. unfold settle. cbn [settleFor].
  match goal with
  | |- (if stable ?x then _ else _) = _ =>
      assert (H1 : stable x = false)
        by (unfold stable, changed1, changed2; editor_fields; decide_deps;
            reflexivity);
      rewrite H1, (commit_typed Href)
  end.
  match goal with
  | |- (if stable ?x then _ else _) = _ =>
      assert (H2 : stable x = false)
        by (unfold stable, changed1, changed2; editor_fields; decide_deps;
            reflexivity);
      rewrite H2, (commit_reset Href)
  end.
  match goal with
  | |- (if stable ?x then _ else _) = _ =>
      assert (H3 : stable x = true)
        by (unfold stable, changed1, changed2; editor_fields; decide_deps;
            reflexivity);
      rewrite H3
  end.
  reflexivity.
Qed.

End Typing.

Section TypingNeverSaves.
Import CodeEditor.

(** After a change in the textarea the session is clean again: the parent
    replaced [activeFile], the first effect reset [hasChanges], and the
    cleanup of the auto-save effect cancelled the timer it had just set. *)
Lemma step_Edited_settled s c :
  settled s ->
  exists s',
    step (Edited c) s = Some s' /\
    content s' = c /\ hasChanges s' = false /\
    requests s' = requests s /\ inflight s' = inflight s /\
    settled s'.
Proof.
  intros (Hst & Ht & f & Haf & Href).
  destruct s as [af nr ct hc sv ls tr d1 d2 ck tm nt rq fl cs].
  cbn in Haf, Href, Ht. subst af tm.
  unfold stable, changed1, changed2, render, depsOf1, depsOf2 in Hst.
  cbn [app_activeFile content hasChanges deps1 deps2 activeFile
       render_content render_hasChanges fmap option_fmap option_map] in Hst.
  apply andb_true_iff in Hst as [H1 H2].
  apply negb_true_iff, negb_false_iff, bool_decide_eq_true_1 in H1.
  apply negb_true_iff, negb_false_iff, bool_decide_eq_true_1 in H2.
  subst d1 d2. eexists. split.
  { cbn [step app_activeFile].
    rewrite bool_decide_eq_true_2 by (eexists; reflexivity).
    unfold handleTextChange, handleFileChange, render.
    cbn [activeFile app_activeFile setContent setHasChanges].
    rewrite String.eqb_refl.
    cbn [setContent setHasChanges setActiveFile setNextRef nextRef].
    rewrite (settle_typed f c ct hc sv ls tr nr nt ck rq fl cs Href).
    reflexivity. }
  cbn [content hasChanges requests inflight].
  split; [reflexivity|]. split; [reflexivity|].
  split; [reflexivity|]. split; [reflexivity|].
  split; [|split; [reflexivity|]].
  - unfold stable, changed1, changed2. editor_fields. decide_deps. reflexivity.
  - eexists. split; [reflexivity|]. cbn. lia.
Qed.

Lemma step_Advanced_settled s ms :
  settled s -> 0 <= ms ->
  exists s',
    step (Advanced ms) s = Some s' /\
    content s' = content s /\ hasChanges s' = hasChanges s /\
    requests s' = requests s /\ inflight s' = inflight s /\
    settled s'.
Proof.
  intros (Hst & Ht & f & Haf & Href) Hms.
  destruct s as [af nr ct hc sv ls tr d1 d2 ck tm nt rq fl cs].
  cbn in Haf, Href, Ht. subst af tm.
  eexists. split.
  { cbn [step]. apply Z.leb_le in Hms. rewrite Hms. reflexivity. }
  cbn. repeat split; try reflexivity.
  - exact Hst.
  - exists f. split; [reflexivity|exact Href].
Qed.

(** However the user types and waits, no save request is ever sent. *)
Lemma typing_never_saves es s :
  settled s ->
  forallb isTypingOrWaiting es = true ->
  exists s',
    run es s = Some s' /\
    requests s' = requests s /\ inflight s' = inflight s /\
    settled s'.
Proof.
  revert s. induction es as [|e es IH]; intros s Hs Hes.
  - exists s. split; [reflexivity|]. split; [reflexivity|].
    split; [reflexivity|exact Hs].
  - cbn [forallb] in Hes. apply andb_true_iff in Hes as [He Hes].
    destruct e as [f|c|a b t| |ms|i n|i m]; try discriminate.
    + destruct (step_Edited_settled s c Hs) as (s1 & H1 & _ & _ & Hr & Hi & Hs1).
      destruct (IH s1 Hs1 Hes) as (s' & H2 & Hr' & Hi' & Hs').
      exists s'. cbn [run]. rewrite H1.
      split; [exact H2|]. split; [congruence|]. split; [congruence|exact Hs'].
    + cbn in He. apply Z.leb_le in He.
      destruct (step_Advanced_settled s ms Hs He)
        as (s1 & H1 & _ & _ & Hr & Hi & Hs1).
      destruct (IH s1 Hs1 Hes) as (s' & H2 & Hr' & Hi' & Hs').
      exists s'. cbn [run]. rewrite H1.
      split; [exact H2|]. split; [congruence|]. split; [congruence|exact Hs'].
Qed.

End TypingNeverSaves.

Section EditorClaims.
Import CodeEditor.

(** C7: when a file is active and has unsaved changes, a save sends the
    current content, and if the request fails the dirty flag is still
    set, the content in memory, the active file and the last-saved stamp
    are what they were before the attempt, the error is written to the
    console, and the saving indicator is off again. *)
Theorem failed_save_keeps_edit (s : System) (f : FileObj) (msg : string) :
  stable s = true ->
  app_activeFile s = Some f ->
  hasChanges s = true ->
  exists s1 s2,
    step SaveRequested s = Some s1 /\
    requests s1 = requests s ++ [(file_path f, content s)] /\
    step (SaveRejected (length (inflight s)) msg) s1 = Some s2 /\
    hasChanges s2 = true /\
    content s2 = content s /\
    lastSaved s2 = lastSaved s /\
    app_activeFile s2 = app_activeFile s /\
    requests s2 = requests s1 /\
    console s2 = console s ++ ["Error saving file: " +:+ msg] /\
    isSaving s2 = false.
Proof.
  intros Hst Haf Hch.
  destruct s as [af nr ct hc sv ls tr d1 d2 ck tm nt rq fl cs].
  cbn in Haf, Hch. subst af hc.
  assert (Hst1 : forall sv' rq' fl' cs',
             stable (mkSystem (Some f) nr ct true sv' ls tr d1 d2 ck tm nt
                       rq' fl' cs') = true) by (intros; exact Hst).
  eexists. eexists. split.
  { cbn [step app_activeFile].
    rewrite bool_decide_eq_true_2 by (eexists; reflexivity).
    cbn [saveFile render activeFile render_hasChanges render_content
         app_activeFile content hasChanges setIsSaving setRequests
         setInflight requests inflight file_path].
    rewrite settle_stable by apply Hst1. reflexivity. }
  split; [reflexivity|]. split.
  { cbn [step inflight setInflight].
    rewrite lookup_app_r by lia. rewrite Nat.sub_diag.
    cbn [lookup list_lookup saveRejected setConsole setIsSaving console].
    rewrite settle_stable by apply Hst1. reflexivity. }
  cbn. repeat split.
Qed.

Lemma failed_save_keeps_edit_witness :
  content dirtySession = "abcX" /\
  exists s1 s2,
    step SaveRequested dirtySession = Some s1 /\
    requests s1 = requests dirtySession ++ [("/a.js", "abcX")] /\
    step (SaveRejected 0 "Network Error") s1 = Some s2 /\
    hasChanges s2 = true /\
    content s2 = "abcX" /\
    console s2 = ["Error saving file: Network Error"].
Proof.
  split; [reflexivity|].
  destruct (failed_save_keeps_edit dirtySession
              {| ref := 0%nat; file_id := "f1"; file_path := "/a.js";
                 file_content := Some "abc"; modified_at := Some "t0" |}
              "Network Error" eq_refl eq_refl eq_refl)
    as (s1 & s2 & H1 & H2 & H3 & H4 & H5 & _ & _ & _ & H9 & _).
  exists s1, s2. repeat split; assumption.
Defined.

(** C8 at its failing input.  A file is opened and the user types one
    character, then nothing for more than 2000 ms: no save request is
    sent, although C8 promises exactly one.  The same after two edits
    within the window.  [handleTextChange] makes [KodeXApp] replace
    [activeFile]; the first effect then resets [hasChanges], and the
    cleanup of the auto-save effect cancels the timer that was just set.
    A change that does not go through the parent ([insertText]) is
    debounced as C8 says: one request, with the latest content. *)
Theorem autosave_cancelled_after_typing :
  (exists s,
     run [Selected openedFile; Edited "abcd"; Advanced 2001] initial = Some s /\
     content s = "abcd" /\ hasChanges s = false /\
     timers s = [] /\ inflight s = [] /\ requests s = []) /\
  (exists s,
     run [Selected openedFile; Edited "abcd"; Advanced 500;
          Edited "abcde"; Advanced 2001] initial = Some s /\
     content s = "abcde" /\ requests s = []) /\
  (exists s,
     run [Selected openedFile; Inserted 3 3 "X"; Advanced 2001] initial
       = Some s /\
     requests s = [("/a.js", "abcX")]) /\
  (exists s,
     run [Selected openedFile; Inserted 3 3 "X"; Advanced 500;
          Inserted 4 4 "Y"; Advanced 2001] initial = Some s /\
     requests s = [("/a.js", "abcXY")]).
Proof.
  repeat split; eexists; (split; [vm_compute; reflexivity|]);
    repeat split; reflexivity.
Qed.

(** The session right after a file was opened is settled, so by
    [typing_never_saves] no sequence of typing and waiting from there
    sends a save request. *)
Lemma typing_after_open_never_saves es :
  forallb isTypingOrWaiting es = true ->
  exists s,
    run (Selected openedFile :: es) initial = Some s /\ requests s = [].
Proof.
  intros Hes.
  destruct (step (Selected openedFile) initial) as [s0|] eqn:E;
    [|discriminate].
  assert (Hs0 : settled s0 /\ requests s0 = []).
  { vm_compute in E. injection E as <-. split; [|reflexivity].
    split; [reflexivity|]. split; [reflexivity|].
    eexists. split; [reflexivity|]. cbn. lia. }
  destruct Hs0 as [Hs0 Hr0].
  destruct (typing_never_saves es s0 Hs0 Hes) as (s & Hrun & Hr & _ & _).
  exists s. cbn [run]. rewrite E. split; [exact Hrun|congruence].
Qed.

End EditorClaims.

(** ** Path index *)

Section SplitJoin.

Lemma split1_no_sep sep s :
  Js.includes sep s = false -> Js.split1 sep s = (s, []).
Proof.
  induction s as [|c s IH]; [reflexivity|].
  cbn [Js.includes Js.split1]. intros H.
  apply orb_false_iff in H as [Hc Hs].
  rewrite (IH Hs), Hc. reflexivity.
Qed.

Lemma split1_app sep x s :
  Js.includes sep x = false ->
  Js.split1 sep (x +:+ String sep s) =
  (x, fst (Js.split1 sep s) :: snd (Js.split1 sep s)).
Proof.
  induction x as [|c x IH]; simpl.
  - intros _. destruct (Js.split1 sep s). rewrite Ascii.eqb_refl. reflexivity.
  - intros H. apply orb_false_iff in H as [Hc Hx].
    rewrite (IH Hx), Hc. reflexivity.
Qed.

Lemma split_join segs :
  segs <> [] ->
  Forall (fun x => Js.includes "/" x = false) segs ->
  Js.split "/" (PathIndex.join segs) = segs.
Proof.
  intros Hne Hall. induction Hall as [|x rest Hx Hrest IH]; [contradiction|].
  unfold Js.split. destruct rest as [|y rest].
  - cbn [PathIndex.join]. rewrite (split1_no_sep _ _ Hx). reflexivity.
  - change (PathIndex.join (x :: y :: rest))
      with (x +:+ String "/" (PathIndex.join (y :: rest))).
    rewrite (split1_app _ _ _ Hx). f_equal.
    specialize (IH ltac:(discriminate)). unfold Js.split in IH.
    destruct (Js.split1 "/" (PathIndex.join (y :: rest))). exact IH.
Qed.

Lemma join_nonempty x rest : x <> "" -> PathIndex.join (x :: rest) <> "".
Proof.
  intros Hx. destruct x; [contradiction|].
  destruct rest; cbn; discriminate.
Qed.

Lemma segmentsOf_join segs :
  Forall (fun x => x <> "" /\ Js.includes "/" x = false) segs ->
  PathIndex.segmentsOf ("/" +:+ PathIndex.join segs) = Some segs.
Proof.
  intros Hall.
  change ("/" +:+ PathIndex.join segs) with (String "/" (PathIndex.join segs)).
  unfold PathIndex.segmentsOf. change (Ascii.eqb "/" "/") with true.
  cbv iota. f_equal. destruct segs as [|x rest]; [reflexivity|].
  apply Forall_cons in Hall as Hall'. destruct Hall' as [[Hx _] _].
  pose proof (join_nonempty x rest Hx) as Hne.
  destruct (PathIndex.join (x :: rest)) eqn:E; [contradiction|]. rewrite <- E.
  apply split_join; [discriminate|].
  eapply Forall_impl; [exact Hall|]. intros y [_ Hy]. exact Hy.
Qed.

End SplitJoin.

Section PathIndexFacts.
Import PathIndex.
Variable t : Tree.
Hypothesis Hwf : wf t.

Lemma depth_functional i d1 d2 : depth t i d1 -> depth t i d2 -> d1 = d2.
Proof.
  intros H1. revert d2. induction H1 as [i n Hn Hp|i n p d Hn Hp _ IH];
    intros d2 H2; inversion H2 as [i' n' Hn' Hp'|i' n' p' d' Hn' Hp' Hd'];
    subst; rewrite Hn in Hn'; injection Hn' as <-;
    try congruence.
  rewrite Hp in Hp'. injection Hp' as <-. f_equal. apply IH, Hd'.
Qed.

(** The ancestors of a node of depth [d] are [d + 1] distinct live
    nodes, so [d] is below the number of nodes. *)
Lemma depth_ancestors i d :
  depth t i d ->
  exists X : gset nat,
    X ⊆ dom (nodes t) /\ size X = S d /\
    forall j, j ∈ X -> exists d', (d' <= d)%nat /\ depth t j d'.
Proof.
  induction 1 as [i n Hn Hp|i n p d Hn Hp Hd (X & Hsub & Hsize & Hdepth)].
  - exists {[i]}. split; [|split].
    + apply singleton_subseteq_l, elem_of_dom. eauto.
    + apply size_singleton.
    + intros j Hj. apply elem_of_singleton in Hj as ->.
      exists 0%nat. split; [lia|]. exact (depth_top t i n Hn Hp).
  - assert (Hfresh : i ∉ X).
    { intros Hi. destruct (Hdepth i Hi) as (d' & Hle & Hd').
      pose proof (depth_functional i d' (S d) Hd'
                    (depth_child t i n p d Hn Hp Hd)). lia. }
    exists ({[i]} ∪ X). split; [|split].
    + apply union_subseteq. split; [|exact Hsub].
      apply singleton_subseteq_l, elem_of_dom. eauto.
    + rewrite size_union by set_solver. rewrite size_singleton, Hsize.
      reflexivity.
    + intros j Hj. apply elem_of_union in Hj as [Hj|Hj].
      * apply elem_of_singleton in Hj as ->. exists (S d).
        split; [lia|]. exact (depth_child t i n p d Hn Hp Hd).
      * destruct (Hdepth j Hj) as (d' & Hle & Hd'). exists d'.
        split; [lia|exact Hd'].
Qed.

Lemma depth_lt_size i d : depth t i d -> (d < size (nodes t))%nat.
Proof.
  intros H. destruct (depth_ancestors i d H) as (X & Hsub & Hsize & _).
  apply subseteq_size in Hsub. rewrite size_dom in Hsub. lia.
Qed.

Lemma walk_app cur segs1 segs2 mid :
  walk t cur segs1 = Some mid ->
  walk t cur (segs1 ++ segs2) = walk t mid segs2.
Proof.
  revert cur. induction segs1 as [|seg segs1 IH]; intros cur H; cbn in H.
  - injection H as ->. reflexivity.
  - cbn [app walk]. destruct (nodes t !! cur) as [n|]; [|discriminate].
    destruct (kind n); [discriminate|].
    destruct (childByName t seg (children n)) as [c|]; [|discriminate].
    apply IH, H.
Qed.

(** Among the children of its parent a node is the one found by its
    name. *)
Lemma childByName_own p pn i n :
  nodes t !! p = Some pn -> In i (children pn) ->
  nodes t !! i = Some n ->
  childByName t (name n) (children pn) = Some i.
Proof.
  intros Hp Hin Hn. unfold childByName.
  destruct (List.find _ (children pn)) as [j|] eqn:E.
  - apply List.find_some in E as [Hj Hname].
    destruct (nodes t !! j) as [nj|] eqn:Ej; [|discriminate].
    apply String.eqb_eq in Hname. f_equal.
    exact (wf_siblings t Hwf p pn j i nj n Hp Hj Hin Ej Hn Hname).
  - pose proof (List.find_none _ _ E i Hin) as H. cbn in H.
    rewrite Hn, String.eqb_refl in H. discriminate.
Qed.

Lemma namesToRoot_walk i d :
  depth t i d ->
  forall fuel, (d < fuel)%nat ->
  exists segs,
    namesToRoot fuel t i = Some segs /\
    length segs = d /\
    Forall (fun x => x <> "" /\ Js.includes "/" x = false) segs /\
    walk t (root t) segs = Some i.
Proof.
  induction 1 as [i n Hn Hp|i n p d Hn Hp Hd IH]; intros fuel Hfuel;
    (destruct fuel as [|fuel]; [lia|]); cbn [namesToRoot]; rewrite Hn, Hp.
  - exists []. split; [reflexivity|]. split; [reflexivity|].
    split; [constructor|]. cbn. f_equal. symmetry.
    exact (wf_one_root t Hwf i n Hn Hp).
  - destruct (IH fuel ltac:(lia)) as (segs & Hsegs & Hlen & Hall & Hwalk).
    rewrite Hsegs. exists (segs ++ [name n]). split; [reflexivity|].
    split; [rewrite length_app; cbn; lia|]. split.
    + apply Forall_app. split; [exact Hall|]. constructor; [|constructor].
      exact (wf_names t Hwf i n p Hn Hp).
    + rewrite (walk_app _ _ _ _ Hwalk). cbn [walk].
      destruct (wf_parent t Hwf i n p Hn Hp) as (pn & Hpn & Hkind & Hin).
      rewrite Hpn, Hkind, (childByName_own p pn i n Hpn Hin Hn).
      reflexivity.
Qed.

End PathIndexFacts.

Section PathIndexClaim.
Import PathIndex.

(** C9: in a tree that satisfies the invariants of the data model, the
    path of every live node is computed, and resolving that path gives
    back the id of the node. *)
Theorem resolve_computePath (t : Tree) (i : nat) :
  wf t ->
  is_Some (nodes t !! i) ->
  exists path, computePath t i = Some path /\ resolve t path = Some i.
Proof.
  intros Hwf Hlive. destruct (wf_acyclic t Hwf i Hlive) as [d Hd].
  destruct (namesToRoot_walk t Hwf i d Hd (size (nodes t))
              (depth_lt_size t Hwf i d Hd))
    as (segs & Hsegs & _ & Hall & Hwalk).
  unfold computePath. rewrite Hsegs. eexists. split; [reflexivity|].
  unfold resolve. rewrite (segmentsOf_join segs Hall). exact Hwalk.
Qed.

Lemma sampleNodes_lookup i n :
  sampleNodes !! i = Some n ->
  (i = 0%nat /\ n = {| name := ""; kind := Folder; parent := None;
                       children := [1%nat]; content := "" |}) \/
  (i = 1%nat /\ n = {| name := "project"; kind := Folder;
                       parent := Some 0%nat; children := [2%nat];
                       content := "" |}) \/
  (i = 2%nat /\ n = {| name := "script.js"; kind := File;
                       parent := Some 1%nat; children := [];
                       content := "console.log(1);" |}).
Proof.
  unfold sampleNodes. cbn [list_to_map foldr uncurry fst snd].
  intros H.
  apply lookup_insert_Some in H as [[<- <-]|[_ H]]; [auto|].
  apply lookup_insert_Some in H as [[<- <-]|[_ H]]; [auto|].
  apply lookup_insert_Some in H as [[<- <-]|[_ H]]; [auto|].
  rewrite lookup_empty in H. discriminate.
Qed.

Lemma sampleTree_wf : wf sampleTree.
Proof.
  split; cbn [nodes root sampleTree].
  - intros i n Hn Hp.
    destruct (sampleNodes_lookup i n Hn) as [[-> ->]|[[-> ->]|[-> ->]]];
      cbn in Hp; congruence.
  - intros i n p Hn Hp.
    destruct (sampleNodes_lookup i n Hn) as [[-> ->]|[[-> ->]|[-> ->]]];
      cbn in Hp; try discriminate; split; (discriminate || reflexivity).
  - intros i n p Hn Hp.
    destruct (sampleNodes_lookup i n Hn) as [[-> ->]|[[-> ->]|[-> ->]]];
      cbn in Hp; try discriminate; injection Hp as <-;
      eexists; (split; [reflexivity|]); split; [reflexivity|left; reflexivity
                                               |reflexivity|left; reflexivity].
  - intros p pn i j ni nj Hp Hi Hj _ _ _.
    destruct (sampleNodes_lookup p pn Hp) as [[-> ->]|[[-> ->]|[-> ->]]];
      cbn in Hi, Hj; intuition congruence.
  - intros i [n Hn].
    assert (H0 : depth sampleTree 0 0).
    { eapply depth_top; reflexivity. }
    assert (H1 : depth sampleTree 1 1).
    { eapply depth_child; [reflexivity|reflexivity|exact H0]. }
    destruct (sampleNodes_lookup i n Hn) as [[-> ->]|[[-> ->]|[-> ->]]].
    + exists 0%nat. exact H0.
    + exists 1%nat. exact H1.
    + exists 2%nat. eapply depth_child; [reflexivity|reflexivity|exact H1].
Qed.

Lemma resolve_computePath_witness :
  computePath sampleTree 2 = Some "/project/script.js" /\
  resolve sampleTree "/project/script.js" = Some 2%nat.
Proof.
  destruct (resolve_computePath sampleTree 2 sampleTree_wf
              (ex_intro _ _ eq_refl)) as (path & Hpath & Hresolve).
  vm_compute in Hpath. injection Hpath as <-.
  split; [reflexivity|exact Hresolve].
Defined.

End PathIndexClaim.

(** * Further properties of the code *)

(** ** File explorer: delete, rename, search, expand *)

Section ExplorerFacts.
Import FileExplorer FileExplorerFacts.

Lemma allItems_item_unfold x :
  allItems_item x =
  x :: match children x with Some cs => allItems cs | None => [] end.
Proof.
  destruct x as [i n t l c [cs|]]; reflexivity.
Qed.

Lemma allItems_app xs ys : allItems (xs ++ ys) = allItems xs ++ allItems ys.
Proof.
  induction xs as [|x xs IH]; [reflexivity|].
  cbn [app allItems]. rewrite IH, app_assoc. reflexivity.
Qed.

Lemma removeFromTree_item_unfold itemId x :
  removeFromTree_item itemId x =
  match children x with
  | Some cs => with_children x (Some (removeFromTree itemId cs))
  | None => x
  end.
Proof.
  destruct x as [i n t l c [cs|]]; reflexivity.
Qed.

Lemma removeFromTree_app itemId xs ys :
  removeFromTree itemId (xs ++ ys) =
  removeFromTree itemId xs ++ removeFromTree itemId ys.
Proof.
  induction xs as [|x xs IH]; [reflexivity|].
  cbn [app removeFromTree]. destruct (String.eqb (id x) itemId);
    rewrite IH; reflexivity.
Qed.

(** No node of the result carries the deleted id, and every id of the
    result was an id of the argument. *)
Lemma removeFromTree_ids itemId items :
  ~ In itemId (allIds (removeFromTree itemId items)) /\
  incl (allIds (removeFromTree itemId items)) (allIds items).
Proof.
  assert (Hitem : forall x,
             id x <> itemId ->
             ~ In itemId (map id (allItems_item (removeFromTree_item itemId x)))
             /\ incl (map id (allItems_item (removeFromTree_item itemId x)))
                  (map id (allItems_item x))).
  { induction x as [i n t l c ch IH] using Item_nested_ind. intros Hid.
    rewrite removeFromTree_item_unfold.
    rewrite (allItems_item_unfold (mkItem i n t l c ch)).
    cbn [children id] in *. destruct ch as [cs|].
    - rewrite allItems_item_unfold. unfold with_children. cbn [children id map].
      assert (Hcs : ~ In itemId (map id (allItems (removeFromTree itemId cs)))
                    /\ incl (map id (allItems (removeFromTree itemId cs)))
                         (map id (allItems cs))).
      { clear Hid. induction IH as [|y ys Hy _ IHys]; [split; [intros []|intros ? []]|].
        cbn [removeFromTree allItems]. destruct IHys as [H1 H2].
        destruct (String.eqb (id y) itemId) eqn:E.
        - split; [exact H1|]. rewrite map_app. apply incl_appr, H2.
        - apply String.eqb_neq in E. destruct (Hy E) as [H3 H4].
          cbn [allItems]. rewrite !map_app. split.
          + intros Hin. apply in_app_or in Hin as [Hin|Hin]; tauto.
          + apply incl_app; [apply incl_appl, H4|apply incl_appr, H2]. }
      destruct Hcs as [H1 H2]. split.
      + intros [Hin|Hin]; [congruence|tauto].
      + intros a [Ha|Ha]; [left; exact Ha|right; apply H2, Ha].
    - rewrite allItems_item_unfold. cbn [children id map]. split.
      + intros [Hin|[]]. congruence.
      + apply incl_refl. }
  unfold allIds. induction items as [|x xs [IH1 IH2]];
    [split; [intros []|intros ? []]|].
  cbn [removeFromTree allItems]. destruct (String.eqb (id x) itemId) eqn:E.
  - split; [exact IH1|]. rewrite map_app. apply incl_appr, IH2.
  - apply String.eqb_neq in E. destruct (Hitem x E) as [H3 H4].
    cbn [allItems]. rewrite !map_app. split.
    + intros Hin. apply in_app_or in Hin as [Hin|Hin]; tauto.
    + apply incl_app; [apply incl_appl, H4|apply incl_appr, IH2].
Qed.

Lemma located_item_unfold above x :
  located_item above x =
  (above ++ [id x], shell x) ::
  match children x with
  | Some cs => located (above ++ [id x]) cs
  | None => []
  end.
Proof.
  destruct x as [i n t l c [cs|]]; [|reflexivity].
  cbn [located_item children id]. f_equal.
  induction cs as [|y ys IH]; [reflexivity|].
  cbn [located]. rewrite <- IH. reflexivity.
Qed.

(** Below a carrier of the id every node has the carrier on its way. *)
Lemma located_under_carrier itemId items above :
  existsb (fun i => String.eqb i itemId) above = true ->
  List.filter (awayFrom itemId) (located above items) = [].
Proof.
  assert (Hitem : forall x above,
             existsb (fun i => String.eqb i itemId) above = true ->
             List.filter (awayFrom itemId) (located_item above x) = []).
  { induction x as [i n t l c ch IH] using Item_nested_ind. intros ab Ha.
    assert (Ha' : existsb (fun j => String.eqb j itemId) (ab ++ [i]) = true)
      by (rewrite existsb_app, Ha; reflexivity).
    rewrite located_item_unfold. cbn [children id List.filter].
    unfold awayFrom at 1. cbn [fst]. rewrite Ha'. cbn [negb].
    destruct ch as [cs|]; [|reflexivity].
    revert Ha'. generalize (ab ++ [i]). intros ab' Ha'.
    induction IH as [|y ys Hy _ IHys]; [reflexivity|].
    cbn [located]. rewrite List.filter_app, (Hy ab' Ha'), IHys. reflexivity. }
  revert above. induction items as [|x xs IH]; intros above Ha; [reflexivity|].
  cbn [located]. rewrite List.filter_app, (Hitem x above Ha), (IH above Ha).
  reflexivity.
Qed.

Lemma located_item_carrier itemId x above :
  String.eqb (id x) itemId = true ->
  List.filter (awayFrom itemId) (located_item above x) = [].
Proof.
  intros Hid.
  assert (Ha : existsb (fun j => String.eqb j itemId) (above ++ [id x]) = true)
    by (rewrite existsb_app; cbn [existsb]; rewrite Hid, orb_true_r;
        reflexivity).
  rewrite located_item_unfold. cbn [List.filter].
  unfold awayFrom at 1. cbn [fst]. rewrite Ha. cbn [negb].
  destruct (children x) as [cs|]; [|reflexivity].
  apply located_under_carrier, Ha.
Qed.

(** What [removeFromTree] keeps, node by node: the nodes with no carrier
    of the id on their way, where they were and as they were. *)
Lemma located_removeFromTree itemId items above :
  existsb (fun i => String.eqb i itemId) above = false ->
  located above (removeFromTree itemId items) =
  List.filter (awayFrom itemId) (located above items).
Proof.
  assert (Hitem : forall x above,
             existsb (fun i => String.eqb i itemId) above = false ->
             String.eqb (id x) itemId = false ->
             located_item above (removeFromTree_item itemId x) =
             List.filter (awayFrom itemId) (located_item above x)).
  { induction x as [i n t l c ch IH] using Item_nested_ind. intros ab Ha Hid.
    cbn [id] in Hid.
    assert (Ha' : existsb (fun j => String.eqb j itemId) (ab ++ [i]) = false)
      by (rewrite existsb_app, Ha; cbn [existsb]; rewrite Hid; reflexivity).
    rewrite removeFromTree_item_unfold.
    rewrite (located_item_unfold ab (mkItem i n t l c ch)).
    cbn [children id List.filter]. unfold awayFrom at 1. cbn [fst].
    rewrite Ha'. cbn [negb].
    destruct ch as [cs|]; [|reflexivity].
    rewrite located_item_unfold. unfold with_children. cbn [children id].
    f_equal. revert Ha'. generalize (ab ++ [i]). intros ab' Ha'.
    induction IH as [|y ys Hy _ IHys]; [reflexivity|].
    cbn [removeFromTree located]. rewrite List.filter_app.
    destruct (String.eqb (id y) itemId) eqn:E.
    - rewrite (located_item_carrier itemId y ab' E). exact IHys.
    - cbn [located]. rewrite (Hy ab' Ha' eq_refl), IHys. reflexivity. }
  revert above. induction items as [|x xs IH]; intros above Ha; [reflexivity|].
  cbn [removeFromTree located]. rewrite List.filter_app.
  destruct (String.eqb (id x) itemId) eqn:E.
  - rewrite (located_item_carrier itemId x above E). apply IH, Ha.
  - cbn [located]. rewrite (Hitem x above Ha E), (IH above Ha). reflexivity.
Qed.

Lemma removeFromTree_absent itemId items :
  ~ In itemId (allIds items) -> removeFromTree itemId items = items.
Proof.
  assert (Hitem : forall x,
             ~ In itemId (map id (allItems_item x)) ->
             removeFromTree_item itemId x = x).
  { induction x as [i n t l c ch IH] using Item_nested_ind. intros Hnot.
    rewrite removeFromTree_item_unfold. rewrite allItems_item_unfold in Hnot.
    cbn [children id map] in *. destruct ch as [cs|]; [|reflexivity].
    unfold with_children. cbn. f_equal. f_equal.
    assert (Hcs : ~ In itemId (map id (allItems cs)))
      by (intros H; apply Hnot; right; exact H).
    clear Hnot.
    induction IH as [|y ys Hy _ IHys]; [reflexivity|].
    cbn [allItems] in Hcs. rewrite map_app in Hcs.
    assert (H1 : ~ In itemId (map id (allItems_item y)))
      by (intros H; apply Hcs, in_or_app; tauto).
    assert (H2 : ~ In itemId (map id (allItems ys)))
      by (intros H; apply Hcs, in_or_app; tauto).
    cbn [removeFromTree]. destruct (String.eqb (id y) itemId) eqn:E.
    - apply String.eqb_eq in E. exfalso. apply H1.
      rewrite allItems_item_unfold. left. exact E.
    - rewrite (Hy H1), (IHys H2). reflexivity. }
  unfold allIds. induction items as [|x xs IH]; [reflexivity|].
  cbn [allItems]. rewrite map_app. intros Hnot.
  assert (H1 : ~ In itemId (map id (allItems_item x)))
    by (intros H; apply Hnot, in_or_app; tauto).
  assert (H2 : ~ In itemId (map id (allItems xs)))
    by (intros H; apply Hnot, in_or_app; tauto).
  cbn [removeFromTree]. destruct (String.eqb (id x) itemId) eqn:E.
  - apply String.eqb_eq in E. exfalso. apply H1.
    rewrite allItems_item_unfold. left. exact E.
  - rewrite (Hitem x H1), (IH H2). reflexivity.
Qed.

Lemma with_children_same fs cs :
  children fs = Some cs -> with_children fs (Some cs) = fs.
Proof. destruct fs. cbn. intros ->. reflexivity. Qed.

End ExplorerFacts.

Section ExplorerDelete.
Import FileExplorer FileExplorerFacts.

(** X1: deleting an item removes every node that carries the id, at any
    depth and together with everything below it, and removes nothing
    else.  The nodes of the result, listed parents first, each with the
    ids on the way down to it and its own properties, are exactly the
    nodes of the tree that have no carrier of the id on their way, in the
    same order; so no carrier is left and no id is new. *)
Theorem deleteItem_removes_every_occurrence fileSystem cs itemId :
  children fileSystem = Some cs ->
  exists cs',
    deleteItem fileSystem itemId
      = Some (with_children fileSystem (Some cs')) /\
    located [] cs' = List.filter (awayFrom itemId) (located [] cs) /\
    ~ In itemId (allIds cs') /\
    incl (allIds cs') (allIds cs).
Proof.
  intros Hcs. unfold deleteItem. rewrite Hcs. eexists.
  split; [reflexivity|].
  split; [apply located_removeFromTree; reflexivity|].
  apply removeFromTree_ids.
Qed.

Lemma deleteItem_removes_every_occurrence_witness :
  map fst (located [] sampleChildren)
    = [["project1"]; ["project1"; "file2"]; ["file_1"]] /\
  exists cs',
    deleteItem sampleTree "project1"
      = Some (with_children sampleTree (Some cs')) /\
    map fst (located [] cs') = [["file_1"]] /\
    ~ In "project1" (allIds cs').
Proof.
  split; [reflexivity|].
  destruct (deleteItem_removes_every_occurrence sampleTree sampleChildren
              "project1" eq_refl) as (cs' & H1 & H2 & H3 & _).
  exists cs'. split; [exact H1|]. split; [rewrite H2; reflexivity|exact H3].
Defined.

(** X2: deleting an id that no node carries gives back the same tree. *)
Theorem deleteItem_absent_id_unchanged fileSystem cs itemId :
  children fileSystem = Some cs ->
  ~ In itemId (allIds cs) ->
  deleteItem fileSystem itemId = Some fileSystem.
Proof.
  intros Hcs Hnot. unfold deleteItem. rewrite Hcs.
  rewrite (removeFromTree_absent itemId cs Hnot).
  rewrite (with_children_same fileSystem cs Hcs). reflexivity.
Qed.

Lemma deleteItem_absent_id_unchanged_witness :
  deleteItem sampleTree "no-such-id" = Some sampleTree.
Proof.
  apply (deleteItem_absent_id_unchanged sampleTree sampleChildren
           "no-such-id" eq_refl).
  cbn. intros [H|[H|[H|[]]]]; discriminate.
Defined.

(** X3: a file created under the root and then deleted by its new id
    leaves the tree exactly as it was, provided the id made from the
    clock was not yet in the tree. *)
Theorem createFile_then_deleteItem fileSystem cs now :
  children fileSystem = Some cs ->
  ~ In (fileId now) (allIds cs) ->
  exists created,
    createFile fileSystem "root" now = Some created /\
    deleteItem created (fileId now) = Some fileSystem.
Proof.
  intros Hcs Hnot. unfold createFile. rewrite Hcs. eexists.
  split; [reflexivity|]. cbn [String.eqb Ascii.eqb Bool.eqb].
  unfold deleteItem, with_children. cbn [children].
  rewrite removeFromTree_app, (removeFromTree_absent _ cs Hnot).
  cbn [removeFromTree newFile id]. rewrite String.eqb_refl, app_nil_r.
  destruct fileSystem. cbn in Hcs. cbn. rewrite Hcs. reflexivity.
Qed.

Lemma createFile_then_deleteItem_witness :
  exists created,
    createFile sampleTree "root" 42 = Some created /\
    deleteItem created (fileId 42) = Some sampleTree.
Proof.
  apply (createFile_then_deleteItem sampleTree sampleChildren 42 eq_refl).
  vm_compute. intros [H|[H|[H|[]]]]; discriminate.
Defined.

End ExplorerDelete.

Section ExplorerUpdate.
Import FileExplorer FileExplorerFacts.

Lemma sameData_refl x : sameData x x.
Proof. repeat split. Qed.

Lemma sameFound_refl o : option_Forall2 sameData o o.
Proof. destruct o; constructor. apply sameData_refl. Qed.

Lemma sameFound_cons other y y' ys ys' :
  option_Forall2 sameData (findItem other y) (findItem other y') ->
  option_Forall2 sameData (findItems other ys) (findItems other ys') ->
  option_Forall2 sameData (findItems other (y :: ys))
    (findItems other (y' :: ys')).
Proof.
  intros Hy Hys. cbn [findItems].
  destruct (findItem other y), (findItem other y'); inversion Hy; subst.
  - constructor. assumption.
  - exact Hys.
Qed.

(** Updates of the shape of [updateTree] whose replacement keeps the id
    and the children of the item. *)
Section KeepsChildren.
Variable target : string.
Variable f : Item -> Item.
Variable upd : Item -> Item.
Hypothesis f_id : forall x, id (f x) = id x.
Hypothesis f_children : forall x, children (f x) = children x.
Hypothesis upd_unfold :
  forall x,
    upd x =
    if String.eqb (id x) target then f x
    else match children x with
         | Some cs => with_children x (Some (map upd cs))
         | None => x
         end.

Lemma upd_sameData x : String.eqb (id x) target = false -> sameData x (upd x).
Proof.
  intros E. rewrite upd_unfold, E.
  destruct (children x); [|apply sameData_refl].
  destruct x; repeat split.
Qed.

Lemma findItem_other other x :
  other <> target ->
  option_Forall2 sameData (findItem other x) (findItem other (upd x)).
Proof.
  intros Hne. induction x as [i n t l c ch IH] using Item_nested_ind.
  rewrite (findItem_unfold other (upd _)),
    (findItem_unfold other (mkItem _ _ _ _ _ _)).
  destruct (String.eqb i target) eqn:E.
  - rewrite upd_unfold. cbn [id]. rewrite E, f_id, f_children.
    cbn [id children].
    destruct (String.eqb i other) eqn:E2.
    + apply String.eqb_eq in E, E2. congruence.
    + apply sameFound_refl.
  - destruct (upd_sameData (mkItem i n t l c ch) E) as (Hid & _).
    rewrite <- Hid. cbn [id].
    destruct (String.eqb i other) eqn:E2.
    + constructor. apply upd_sameData, E.
    + rewrite upd_unfold. cbn [id children]. rewrite E.
      destruct ch as [cs|]; [|constructor].
      unfold with_children. cbn [children]. cbn in IH. clear Hid.
      induction IH as [|y ys Hy _ IHys]; [constructor|].
      cbn [map]. apply sameFound_cons; assumption.
Qed.

Lemma findItems_other other items :
  other <> target ->
  option_Forall2 sameData (findItems other items)
    (findItems other (map upd items)).
Proof.
  intros Hne. induction items as [|x xs IH]; [constructor|].
  cbn [map]. apply sameFound_cons; [apply findItem_other, Hne|exact IH].
Qed.

(** The nodes stay where they are: same ids, in the same order. *)
Lemma allIds_update items : allIds (map upd items) = allIds items.
Proof.
  assert (Hitem : forall x,
             map id (allItems_item (upd x)) = map id (allItems_item x)).
  { induction x as [i n t l c ch IH] using Item_nested_ind.
    rewrite upd_unfold. cbn [id children].
    destruct (String.eqb i target).
    - rewrite !allItems_item_unfold, f_children. cbn [map]. rewrite f_id.
      reflexivity.
    - destruct ch as [cs|]; [|reflexivity].
      rewrite !allItems_item_unfold. unfold with_children.
      cbn [children map id]. f_equal. cbn in IH.
      induction IH as [|y ys Hy _ IHys]; [reflexivity|].
      cbn [map allItems]. rewrite !map_app, Hy, IHys. reflexivity. }
  unfold allIds. induction items as [|x xs IH]; [reflexivity|].
  cbn [map allItems]. rewrite !map_app, Hitem, IH. reflexivity.
Qed.

Lemma update_absent items :
  ~ In target (allIds items) -> map upd items = items.
Proof.
  assert (Hitem : forall x,
             ~ In target (map id (allItems_item x)) -> upd x = x).
  { induction x as [i n t l c ch IH] using Item_nested_ind. intros Hnot.
    rewrite allItems_item_unfold in Hnot. cbn [children id map] in Hnot.
    rewrite upd_unfold. cbn [id children].
    destruct (String.eqb i target) eqn:E.
    - apply String.eqb_eq in E. exfalso. apply Hnot. left. exact E.
    - destruct ch as [cs|]; [|reflexivity].
      unfold with_children. cbn. f_equal. f_equal.
      assert (Hcs : ~ In target (map id (allItems cs)))
        by (intros H; apply Hnot; right; exact H).
      clear Hnot. cbn in IH.
      induction IH as [|y ys Hy _ IHys]; [reflexivity|].
      cbn [allItems] in Hcs. rewrite map_app in Hcs.
      cbn [map]. rewrite Hy, IHys; [reflexivity| |];
        intros H; apply Hcs, in_or_app; tauto. }
  unfold allIds. induction items as [|x xs IH]; [reflexivity|].
  cbn [allItems]. rewrite map_app. intros Hnot.
  cbn [map]. rewrite Hitem, IH; [reflexivity| |];
    intros H; apply Hnot, in_or_app; tauto.
Qed.

End KeepsChildren.

Lemma updateFileContent_item_unfold fileId newContent x :
  updateFileContent_item fileId newContent x =
  if String.eqb (id x) fileId
  then mkItem (id x) (name x) (type x) (language x) (Some newContent)
         (children x)
  else match children x with
       | Some cs =>
           with_children x
             (Some (map (updateFileContent_item fileId newContent) cs))
       | None => x
       end.
Proof. destruct x as [i n t l c [cs|]]; reflexivity. Qed.

Lemma renamed_renamed x n1 n2 : renamed (renamed x n1) n2 = renamed x n2.
Proof. destruct x as [i n t l c ch]. destruct t; reflexivity. Qed.

Lemma renameItem_updateItem_twice itemId n1 n2 x :
  renameItem_updateItem itemId n2 (renameItem_updateItem itemId n1 x) =
  renameItem_updateItem itemId n2 x.
Proof.
  induction x as [i n t l c ch IH] using Item_nested_ind.
  rewrite (renameItem_updateItem_unfold itemId n1). cbn [id children].
  destruct (String.eqb i itemId) eqn:E.
  - rewrite !renameItem_updateItem_unfold. cbn [id renamed]. rewrite E.
    apply renamed_renamed.
  - destruct ch as [cs|].
    + rewrite !renameItem_updateItem_unfold. unfold with_children.
      cbn [id children]. rewrite E. do 2 f_equal. cbn in IH.
      induction IH as [|y ys Hy _ IHys]; [reflexivity|].
      cbn [map]. rewrite Hy, IHys. reflexivity.
    + rewrite !renameItem_updateItem_unfold. cbn [id children]. rewrite E.
      reflexivity.
Qed.

End ExplorerUpdate.

Section ExplorerRename.
Import FileExplorer FileExplorerFacts.

(** X4: renaming the same item twice gives the same tree as the second
    rename alone; name and language of the first rename leave no trace. *)
Theorem renameItem_last_name_wins fileSystem cs itemId name1 name2 :
  children fileSystem = Some cs ->
  exists renamedOnce,
    renameItem fileSystem itemId name1 = Some renamedOnce /\
    renameItem renamedOnce itemId name2 = renameItem fileSystem itemId name2.
Proof.
  intros Hcs. unfold renameItem at 1. rewrite Hcs. eexists.
  split; [reflexivity|]. unfold renameItem, with_children.
  cbn [children id name type language content]. rewrite Hcs.
  do 3 f_equal. unfold renameItem_updateTree. rewrite map_map.
  apply map_ext. intros x. apply renameItem_updateItem_twice.
Qed.

Lemma renameItem_last_name_wins_witness :
  exists renamedOnce,
    renameItem sampleTree "file2" "a.py" = Some renamedOnce /\
    renameItem renamedOnce "file2" "b.rs" = renameItem sampleTree "file2" "b.rs".
Proof.
  apply (renameItem_last_name_wins sampleTree sampleChildren
           "file2" "a.py" "b.rs" eq_refl).
Defined.

(** X5: a rename neither adds, removes nor reorders nodes: the ids of the
    tree, listed parents first, are the same before and after; and when no
    node carries the id the tree is unchanged. *)
Theorem renameItem_keeps_nodes fileSystem cs itemId newName :
  children fileSystem = Some cs ->
  exists cs',
    renameItem fileSystem itemId newName
      = Some (with_children fileSystem (Some cs')) /\
    allIds cs' = allIds cs /\
    (~ In itemId (allIds cs) -> cs' = cs).
Proof.
  intros Hcs. unfold renameItem. rewrite Hcs. eexists.
  split; [reflexivity|]. split.
  - apply (allIds_update itemId (fun x => renamed x newName)).
    + reflexivity.
    + reflexivity.
    + apply renameItem_updateItem_unfold.
  - apply (update_absent itemId (fun x => renamed x newName)).
    apply renameItem_updateItem_unfold.
Qed.

Lemma renameItem_keeps_nodes_witness :
  exists cs',
    renameItem sampleTree "project1" "site"
      = Some (with_children sampleTree (Some cs')) /\
    allIds cs' = allIds sampleChildren /\
    (~ In "project1" (allIds sampleChildren) -> cs' = sampleChildren).
Proof.
  apply (renameItem_keeps_nodes sampleTree sampleChildren "project1" "site"
           eq_refl).
Defined.

(** X6: renaming one item leaves every item with another id as it was:
    looked up by its id it is found or not as before, with the same name,
    type, language and content. *)
Theorem renameItem_other_items_untouched fileSystem cs itemId newName other :
  children fileSystem = Some cs ->
  other <> itemId ->
  exists cs',
    renameItem fileSystem itemId newName
      = Some (with_children fileSystem (Some cs')) /\
    option_Forall2 sameData (findItems other cs) (findItems other cs').
Proof.
  intros Hcs Hne. unfold renameItem. rewrite Hcs. eexists.
  split; [reflexivity|].
  apply (findItems_other itemId (fun x => renamed x newName)).
  - reflexivity.
  - reflexivity.
  - apply renameItem_updateItem_unfold.
  - exact Hne.
Qed.

Lemma renameItem_other_items_untouched_witness :
  exists cs',
    renameItem sampleTree "project1" "site"
      = Some (with_children sampleTree (Some cs')) /\
    option_Forall2 sameData (findItems "file2" sampleChildren)
      (findItems "file2" cs').
Proof.
  apply (renameItem_other_items_untouched sampleTree sampleChildren
           "project1" "site" "file2" eq_refl).
  discriminate.
Defined.

(** X7: after [handleFileChange] the file found by [findFileById] under
    the id is the file found before, with the new content and nothing
    else changed. *)
Theorem handleFileChange_then_findFileById
    fileSystem cs fileId newContent found :
  children fileSystem = Some cs ->
  findFileById cs fileId = Some found ->
  exists cs',
    handleFileChange fileSystem fileId newContent
      = Some (with_children fileSystem (Some cs')) /\
    findFileById cs' fileId =
      Some (mkItem (id found) (name found) (type found) (language found)
              (Some newContent) (children found)).
Proof.
  intros Hcs Hfound. unfold handleFileChange. rewrite Hcs. eexists.
  split; [reflexivity|]. unfold findFileById, updateFileContent in *.
  rewrite (findItems_update fileId
             (fun x => mkItem (id x) (name x) (type x) (language x)
                         (Some newContent) (children x))
             (updateFileContent_item fileId newContent)).
  - rewrite Hfound. reflexivity.
  - reflexivity.
  - apply updateFileContent_item_unfold.
Qed.

Lemma handleFileChange_then_findFileById_witness :
  exists cs',
    handleFileChange sampleTree "file2" "let x = 1;"
      = Some (with_children sampleTree (Some cs')) /\
    findFileById cs' "file2" =
      Some (mkItem "file2" "a.js" file (VString "javascript")
              (Some "let x = 1;") None).
Proof.
  apply (handleFileChange_then_findFileById sampleTree sampleChildren
           "file2" "let x = 1;" sampleFile eq_refl eq_refl).
Defined.

(** X8: [handleFileChange] keeps the nodes of the tree in place and
    leaves the items with another id as they were, content included. *)
Theorem handleFileChange_other_files_untouched
    fileSystem cs fileId newContent other :
  children fileSystem = Some cs ->
  other <> fileId ->
  exists cs',
    handleFileChange fileSystem fileId newContent
      = Some (with_children fileSystem (Some cs')) /\
    allIds cs' = allIds cs /\
    option_Forall2 sameData (findFileById cs other) (findFileById cs' other).
Proof.
  intros Hcs Hne. unfold handleFileChange. rewrite Hcs. eexists.
  split; [reflexivity|]. split.
  - apply (allIds_update fileId
             (fun x => mkItem (id x) (name x) (type x) (language x)
                         (Some newContent) (children x))).
    + reflexivity.
    + reflexivity.
    + apply updateFileContent_item_unfold.
  - apply (findItems_other fileId
             (fun x => mkItem (id x) (name x) (type x) (language x)
                         (Some newContent) (children x))).
    + reflexivity.
    + reflexivity.
    + apply updateFileContent_item_unfold.
    + exact Hne.
Qed.

Lemma handleFileChange_other_files_untouched_witness :
  exists cs',
    handleFileChange sampleTree "file2" "let x = 1;"
      = Some (with_children sampleTree (Some cs')) /\
    allIds cs' = allIds sampleChildren /\
    option_Forall2 sameData (findFileById sampleChildren "file_1")
      (findFileById cs' "file_1").
Proof.
  apply (handleFileChange_other_files_untouched sampleTree sampleChildren
           "file2" "let x = 1;" "file_1" eq_refl).
  discriminate.
Defined.

End ExplorerRename.

(** ** Strings *)

Section TrimFacts.

Lemma trimStart_headKept s : Js.headKept (Js.trimStart s).
Proof.
  induction s as [|c s IH]; [exact I|].
  cbn [Js.trimStart]. destruct (Js.isWhiteSpace c) eqn:E; [exact IH|exact E].
Qed.

Lemma trimStart_fixed s : Js.headKept s -> Js.trimStart s = s.
Proof. destruct s as [|c s]; [reflexivity|]. cbn. intros ->. reflexivity. Qed.

Lemma trimEnd_headKept s : Js.headKept s -> Js.headKept (Js.trimEnd s).
Proof.
  destruct s as [|c s]; [intros _; exact I|]. cbn [Js.headKept Js.trimEnd].
  intros E. destruct (Js.trimEnd s); [rewrite E|]; exact E.
Qed.

Lemma trimEnd_idempotent s : Js.trimEnd (Js.trimEnd s) = Js.trimEnd s.
Proof.
  induction s as [|c s IH]; [reflexivity|]. cbn [Js.trimEnd].
  destruct (Js.trimEnd s) as [|a t] eqn:E.
  - destruct (Js.isWhiteSpace c) eqn:Ec; [reflexivity|].
    cbn [Js.trimEnd]. rewrite Ec. reflexivity.
  - change (Js.trimEnd (String c (String a t)))
      with (match Js.trimEnd (String a t) with
            | EmptyString =>
                if Js.isWhiteSpace c then EmptyString
                else String c EmptyString
            | String x y => String c (String x y)
            end).
    rewrite IH. reflexivity.
Qed.

Lemma trim_headKept s : Js.headKept (Js.trim s).
Proof. apply trimEnd_headKept, trimStart_headKept. Qed.

Lemma trim_idempotent s : Js.trim (Js.trim s) = Js.trim s.
Proof.
  unfold Js.trim at 1. rewrite (trimStart_fixed _ (trim_headKept s)).
  apply trimEnd_idempotent.
Qed.

Lemma truthy_nonempty s : Js.truthy s = true <-> s <> "".
Proof. destruct s; cbn; split; (congruence || discriminate || auto). Qed.

End TrimFacts.

(** ** File explorer: search, expand, rename guard *)

Section ExplorerSearch.
Import FileExplorer FileExplorerFacts.

Lemma filterTree_item_unfold term x :
  filterTree_item term x =
  let filteredChildren :=
    match children x with
    | Some cs => Some (filterTree_items term cs)
    | None => None
    end in
  if nameMatches term x then Some (with_children x filteredChildren)
  else match filteredChildren with
       | Some (_ :: _) => Some (with_children x filteredChildren)
       | _ => None
       end.
Proof. destruct x as [i n t l c [cs|]]; reflexivity. Qed.

(** A kept item is a copy of the original around its filtered children. *)
Lemma filterTree_item_Some term x y :
  filterTree_item term x = Some y ->
  y = with_children x
        (match children x with
         | Some cs => Some (filterTree_items term cs)
         | None => None
         end) /\
  (nameMatches term x = true \/
   exists c cs, children y = Some (c :: cs)).
Proof.
  rewrite filterTree_item_unfold. cbv zeta.
  destruct (nameMatches term x) eqn:E.
  - intros [= <-]. split; [reflexivity|left; reflexivity].
  - destruct (children x) as [cs|]; [|discriminate].
    destruct (filterTree_items term cs) as [|c cs'] eqn:Ec; [discriminate|].
    intros [= <-]. split; [reflexivity|]. right. exists c, cs'. reflexivity.
Qed.

Lemma nameMatches_with_children term x cs :
  nameMatches term (with_children x cs) = nameMatches term x.
Proof. reflexivity. Qed.

Lemma filterTree_items_idempotent term items :
  filterTree_items term (filterTree_items term items)
  = filterTree_items term items.
Proof.
  assert (Hitem : forall x y,
             filterTree_item term x = Some y ->
             filterTree_item term y = Some y).
  { induction x as [i n t l c ch IH] using Item_nested_ind. intros y Hy.
    destruct (filterTree_item_Some term _ y Hy) as [-> Hwhy].
    cbn [children] in *.
    assert (Hch : match ch with
                  | Some cs =>
                      filterTree_items term (filterTree_items term cs)
                      = filterTree_items term cs
                  | None => True
                  end).
    { destruct ch as [cs|]; [|exact I]. clear Hy Hwhy. cbn in IH.
      induction IH as [|z zs Hz _ IHzs]; [reflexivity|].
      cbn [filterTree_items]. destruct (filterTree_item term z) as [z'|] eqn:Ez;
        [|exact IHzs].
      cbn [filterTree_items]. rewrite (Hz z' eq_refl), IHzs. reflexivity. }
    clear Hy IH.
    set (x := mkItem i n t l c ch) in *.
    set (fc := match ch with
               | Some cs => Some (filterTree_items term cs)
               | None => None
               end) in *.
    assert (Hfc : match children (with_children x fc) with
                  | Some cs => Some (filterTree_items term cs)
                  | None => None
                  end = fc).
    { unfold fc. destruct ch as [cs|]; cbn [children with_children];
        [rewrite Hch|]; reflexivity. }
    rewrite filterTree_item_unfold. cbv zeta.
    rewrite Hfc, nameMatches_with_children.
    destruct (nameMatches term x) eqn:E; [reflexivity|].
    destruct Hwhy as [Hm|(c0 & cs0 & Hc)]; [congruence|].
    cbn [children with_children] in Hc. rewrite Hc. reflexivity. }
  induction items as [|x xs IH]; [reflexivity|].
  cbn [filterTree_items]. destruct (filterTree_item term x) as [y|] eqn:E;
    [|exact IH].
  cbn [filterTree_items]. rewrite (Hitem x y E), IH. reflexivity.
Qed.

Lemma filterTree_items_shown term items :
  Forall (shown term) (allItems (filterTree_items term items)).
Proof.
  assert (Hitem : forall x y,
             filterTree_item term x = Some y ->
             Forall (shown term) (allItems_item y)).
  { induction x as [i n t l c ch IH] using Item_nested_ind. intros y Hy.
    destruct (filterTree_item_Some term _ y Hy) as [Heq Hwhy].
    rewrite allItems_item_unfold. constructor.
    - destruct Hwhy as [Hm|Hc]; [left|right; exact Hc].
      rewrite Heq. exact Hm.
    - rewrite Heq. cbn [children with_children].
      destruct ch as [cs|]; [|constructor]. cbn in IH. clear Hy Heq Hwhy.
      induction IH as [|z zs Hz _ IHzs]; [constructor|].
      cbn [filterTree_items]. destruct (filterTree_item term z) as [z'|] eqn:Ez;
        [|exact IHzs].
      cbn [allItems]. apply Forall_app. split; [apply (Hz z' eq_refl)|exact IHzs]. }
  induction items as [|x xs IH]; [constructor|].
  cbn [filterTree_items]. destruct (filterTree_item term x) as [y|] eqn:E;
    [|exact IH].
  cbn [allItems]. apply Forall_app. split; [apply (Hitem x y E)|exact IH].
Qed.

Lemma filterTree_items_complete term items z :
  In z (allItems items) -> nameMatches term z = true ->
  In (id z) (allIds (filterTree_items term items)).
Proof.
  intros Hin Hm.
  assert (Hitem : forall x,
             In z (allItems_item x) ->
             exists y, filterTree_item term x = Some y /\
                       In (id z) (map id (allItems_item y))).
  { induction x as [i n t l c ch IH] using Item_nested_ind. intros Hz.
    rewrite allItems_item_unfold in Hz. cbn [children] in Hz.
    rewrite filterTree_item_unfold. cbv zeta. cbn [children].
    destruct Hz as [<-|Hz].
    - rewrite Hm. eexists. split; [reflexivity|].
      rewrite allItems_item_unfold. left. reflexivity.
    - destruct ch as [cs|]; [|destruct Hz].
      assert (Hcs : In (id z) (allIds (filterTree_items term cs))).
      { cbn in IH. clear -IH Hz. unfold allIds.
        induction IH as [|w ws Hw _ IHws]; [destruct Hz|].
        cbn [allItems] in Hz. apply in_app_or in Hz as [Hz|Hz].
        - destruct (Hw Hz) as (w' & Ew & Hin). cbn [filterTree_items].
          rewrite Ew. cbn [allItems]. rewrite map_app.
          apply in_or_app. left. exact Hin.
        - cbn [filterTree_items].
          destruct (filterTree_item term w); [|apply IHws, Hz].
          cbn [allItems]. rewrite map_app. apply in_or_app. right.
          apply IHws, Hz. }
      assert (Hne : exists c0 cs0, filterTree_items term cs = c0 :: cs0).
      { destruct (filterTree_items term cs) as [|c0 cs0]; [destruct Hcs|].
        eauto. }
      destruct Hne as (c0 & cs0 & Ec). rewrite Ec.
      exists (with_children (mkItem i n t l c (Some cs)) (Some (c0 :: cs0))).
      split;
        [destruct (nameMatches term (mkItem i n t l c (Some cs)));
         reflexivity|].
      rewrite allItems_item_unfold. right. cbn [children with_children].
      rewrite <- Ec. exact Hcs. }
  unfold allIds. induction items as [|x xs IH]; [destruct Hin|].
  cbn [allItems] in Hin. apply in_app_or in Hin as [Hz|Hz].
  - destruct (Hitem x Hz) as (y & Ey & Hy). cbn [filterTree_items].
    rewrite Ey. cbn [allItems]. rewrite map_app. apply in_or_app. left.
    exact Hy.
  - cbn [filterTree_items]. destruct (filterTree_item term x); [|apply IH, Hz].
    cbn [allItems]. rewrite map_app. apply in_or_app. right. apply IH, Hz.
Qed.

End ExplorerSearch.

Section ExplorerSearchClaims.
Import FileExplorer FileExplorerFacts.

(** X9: searching again with the same term changes nothing: [filterTree]
    applied to its own result gives that result; with the empty term the
    tree is returned as it is. *)
Theorem filterTree_idempotent items searchTerm :
  filterTree items "" = items /\
  filterTree (filterTree items searchTerm) searchTerm
  = filterTree items searchTerm.
Proof.
  split; [reflexivity|]. unfold filterTree.
  destruct (Js.truthy searchTerm); [|reflexivity].
  apply filterTree_items_idempotent.
Qed.

(** X10: the search hides no match: every node of the tree, at any
    depth, whose name contains the term (letter case ignored) is still in
    the result, its ancestors being kept as containers. *)
Theorem filterTree_keeps_every_match items searchTerm z :
  In z (allItems items) ->
  nameMatches searchTerm z = true ->
  In (id z) (allIds (filterTree items searchTerm)).
Proof.
  intros Hin Hm. unfold filterTree. destruct (Js.truthy searchTerm).
  - exact (filterTree_items_complete searchTerm items z Hin Hm).
  - unfold allIds. apply in_map, Hin.
Qed.

Lemma filterTree_keeps_every_match_witness :
  nameMatches "JS" sampleFile = true /\
  allIds (filterTree sampleChildren "JS") = ["project1"; "file2"] /\
  In (id sampleFile) (allIds (filterTree sampleChildren "JS")).
Proof.
  split; [reflexivity|]. split; [reflexivity|].
  apply (filterTree_keeps_every_match sampleChildren "JS" sampleFile).
  - right. left. reflexivity.
  - reflexivity.
Defined.

(** X11: with a non-empty term, every node of the result, at any depth,
    either matches the term by name or has at least one child in the
    result; a node that does neither is never shown. *)
Theorem filterTree_shows_matches_and_containers items searchTerm :
  Js.truthy searchTerm = true ->
  Forall (shown searchTerm) (allItems (filterTree items searchTerm)).
Proof.
  intros Ht. unfold filterTree. rewrite Ht. apply filterTree_items_shown.
Qed.

Lemma filterTree_shows_matches_and_containers_witness :
  Forall (shown "JS") (allItems (filterTree sampleChildren "JS")).
Proof.
  apply (filterTree_shows_matches_and_containers sampleChildren "JS").
  reflexivity.
Defined.

(** X12: [toggleFolder] flips the membership of the folder and of no
    other id, and toggling the same folder twice gives back the set. *)
Theorem toggleFolder_involution (expandedFolders : gset string) folderId :
  toggleFolder (toggleFolder expandedFolders folderId) folderId
    = expandedFolders /\
  (folderId ∈ toggleFolder expandedFolders folderId
   <-> folderId ∉ expandedFolders) /\
  (forall other, other <> folderId ->
     (other ∈ toggleFolder expandedFolders folderId
      <-> other ∈ expandedFolders)).
Proof.
  unfold toggleFolder. split; [|split].
  - destruct (bool_decide (folderId ∈ expandedFolders)) eqn:E.
    + apply bool_decide_eq_true_1 in E.
      rewrite bool_decide_eq_false_2 by set_solver.
      apply set_eq. intros x. destruct (decide (x = folderId)); set_solver.
    + apply bool_decide_eq_false_1 in E.
      rewrite bool_decide_eq_true_2 by set_solver. set_solver.
  - destruct (bool_decide (folderId ∈ expandedFolders)) eqn:E.
    + apply bool_decide_eq_true_1 in E. set_solver.
    + apply bool_decide_eq_false_1 in E. set_solver.
  - intros other Hne.
    destruct (bool_decide (folderId ∈ expandedFolders)); set_solver.
Qed.

(** X13: the rename box calls [onRenameItem] only with a trimmed,
    non-empty name: no leading or trailing white space is left on it, and
    a blank entry or an unchanged name triggers no rename at all. *)
Theorem handleRename_passes_trimmed_name newName item :
  (forall n, handleRename newName item = Some n ->
     n = Js.trim newName /\ n <> "" /\ Js.trim n = n /\
     Js.headKept n) /\
  (handleRename newName item = None <->
   Js.trim newName = "" \/ newName = name item).
Proof.
  unfold handleRename. split.
  - intros n.
    destruct (Js.truthy (Js.trim newName)) eqn:Et; [|discriminate].
    destruct (String.eqb newName (name item)); [discriminate|].
    intros [= <-]. split; [reflexivity|].
    split; [apply truthy_nonempty, Et|].
    split; [apply trim_idempotent|apply trim_headKept].
  - destruct (Js.truthy (Js.trim newName)) eqn:Et.
    + apply truthy_nonempty in Et.
      destruct (String.eqb newName (name item)) eqn:E; cbn [andb negb].
      * apply String.eqb_eq in E. split; [intros _; right; exact E|reflexivity].
      * apply String.eqb_neq in E. split; [discriminate|].
        intros [H|H]; contradiction.
    + cbn [andb]. split; [intros _; left|reflexivity].
      destruct (Js.trim newName); [reflexivity|discriminate].
Qed.

End ExplorerSearchClaims.

(** ** Terminal: input, recall cursor and command log *)

Section GetFacts.

Lemma get_in_range {A} (l : list A) i :
  0 <= i < Z.of_nat (length l) -> is_Some (Js.get l i).
Proof.
  intros [H0 H1]. unfold Js.get.
  destruct (i <? 0) eqn:E; [apply Z.ltb_lt in E; lia|].
  apply lookup_lt_is_Some. lia.
Qed.

Lemma trimmed_entry c :
  Js.truthy (Js.trim c) = true ->
  Js.trim c <> "" /\ Js.trim (Js.trim c) = Js.trim c.
Proof.
  intros H. split; [apply truthy_nonempty, H|apply trim_idempotent].
Qed.

End GetFacts.

Section MockSessionFacts.
Import TerminalMock.

Lemma mock_handleKeyDown_wellFormed key s :
  wellFormed s -> wellFormed (handleKeyDown key s).
Proof.
  intros (Hc & Hi & Hl). unfold handleKeyDown.
  set (len := Z.of_nat (length (commandHistory s))) in *.
  destruct (String.eqb key "ArrowUp").
  - destruct (0 <? len) eqn:E0; [|repeat split; assumption].
    apply Z.ltb_lt in E0.
    assert (Hr : 0 <= (if historyIndex s =? -1 then len - 1
                       else Z.max 0 (historyIndex s - 1)) < len).
    { destruct (historyIndex s =? -1) eqn:E1; [lia|].
      apply Z.eqb_neq in E1. lia. }
    split; [|split].
    + cbn [command setCommand]. apply get_in_range. exact Hr.
    + right. exact Hr.
    + exact Hl.
  - destruct (String.eqb key "ArrowDown"); [|repeat split; assumption].
    destruct (historyIndex s =? -1) eqn:E1; cbn [negb];
      [repeat split; assumption|].
    apply Z.eqb_neq in E1.
    destruct (len <=? historyIndex s + 1) eqn:E2.
    + split; [eexists; reflexivity|]. split; [left; reflexivity|exact Hl].
    + apply Z.leb_gt in E2.
      assert (Hr : 0 <= historyIndex s + 1 < len) by lia.
      split; [|split].
      * cbn [command setCommand]. apply get_in_range. exact Hr.
      * right. exact Hr.
      * exact Hl.
Qed.

Lemma mock_onTimeout_log p d s :
  command (onTimeout p d s) = command s /\
  historyIndex (onTimeout p d s) = historyIndex s /\
  commandHistory (onTimeout p d s) = commandHistory s.
Proof.
  destruct (onTimeout_cases p d s) as [(o & t & _ & ->)|[_ ->]];
    repeat split.
Qed.

Lemma mock_step_wellFormed e s s' :
  wellFormed s -> step e s = Some s' -> wellFormed s'.
Proof.
  intros Hs Hstep. destruct e as [text|af|key| |i d]; cbn [step] in Hstep.
  - injection Hstep as <-. destruct Hs as (_ & Hi & Hl).
    split; [eexists; reflexivity|]. split; assumption.
  - injection Hstep as <-.
    destruct (handleSubmit_ignored af s) as [->|(c & Hc & Ht & Hr)];
      [exact Hs|].
    rewrite (handleSubmit_accepted af c s Hc Ht Hr).
    destruct Hs as (_ & Hi & Hl).
    split; [eexists; reflexivity|]. split; [left; reflexivity|].
    cbn [commandHistory]. apply Forall_app. split; [exact Hl|].
    constructor; [apply trimmed_entry, Ht|constructor].
  - injection Hstep as <-. apply mock_handleKeyDown_wellFormed, Hs.
  - injection Hstep as <-. exact Hs.
  - unfold fireTimer in Hstep. destruct (timers s !! i); [|discriminate].
    injection Hstep as <-.
    match goal with
    | |- wellFormed (onTimeout ?p d ?x) =>
        destruct (mock_onTimeout_log p d x) as (H1 & H2 & H3)
    end.
    unfold wellFormed. rewrite H1, H2, H3. exact Hs.
Qed.

(** A step never shortens or rewrites the command-text log. *)
Lemma mock_step_log e s s' :
  step e s = Some s' -> commandHistory s `prefix_of` commandHistory s'.
Proof.
  intros Hstep. destruct e as [text|af|key| |i d]; cbn [step] in Hstep.
  - injection Hstep as <-. reflexivity.
  - injection Hstep as <-.
    destruct (handleSubmit_ignored af s) as [->|(c & Hc & Ht & Hr)];
      [reflexivity|].
    rewrite (handleSubmit_accepted af c s Hc Ht Hr). cbn [commandHistory].
    apply prefix_app_r. reflexivity.
  - injection Hstep as <-. unfold handleKeyDown.
    repeat match goal with
           | |- context [if ?b then _ else _] => destruct b
           end; reflexivity.
  - injection Hstep as <-. reflexivity.
  - unfold fireTimer in Hstep. destruct (timers s !! i); [|discriminate].
    injection Hstep as <-.
    match goal with
    | |- _ `prefix_of` commandHistory (onTimeout ?p d ?x) =>
        destruct (mock_onTimeout_log p d x) as (_ & _ & ->)
    end.
    reflexivity.
Qed.

End MockSessionFacts.

Section MockSessionClaims.
Import TerminalMock.

(** X14: in every reachable state of the mock terminal the input holds a
    string (never undefined, so [command.trim()] cannot throw), the recall
    cursor is -1 or a valid index of the command-text log, and every
    logged command is non-empty and free of surrounding white space. *)
Theorem mock_session_wellFormed s :
  reachable s ->
  is_Some (command s) /\
  (historyIndex s = -1 \/
   0 <= historyIndex s < Z.of_nat (length (commandHistory s))) /\
  Forall (fun c => c <> "" /\ Js.trim c = c) (commandHistory s).
Proof.
  induction 1 as [|s e s' _ IH Hstep].
  - split; [eexists; reflexivity|]. split; [left; reflexivity|constructor].
  - exact (mock_step_wellFormed e s s' IH Hstep).
Qed.

Lemma mock_session_wellFormed_witness :
  commandHistory busySession = ["ls"] /\
  is_Some (command busySession) /\
  (historyIndex busySession = -1 \/
   0 <= historyIndex busySession
     < Z.of_nat (length (commandHistory busySession))) /\
  Forall (fun c => c <> "" /\ Js.trim c = c) (commandHistory busySession).
Proof.
  split; [reflexivity|].
  apply (mock_session_wellFormed busySession).
  apply (reachable_step (setCommand (Some "ls") initial) (Submitted None));
    [|reflexivity].
  apply (reachable_step initial (Typed "ls")); [|reflexivity].
  apply reachable_initial.
Defined.

(** X15: the command-text log is append-only: whatever events happen,
    typing, recalling, the Clear button and the clear command included,
    the log before is a prefix of the log after. *)
Theorem mock_log_append_only es s s' :
  run es s = Some s' ->
  commandHistory s `prefix_of` commandHistory s'.
Proof.
  revert s. induction es as [|e es IH]; intros s Hrun; cbn [run] in Hrun.
  - injection Hrun as <-. reflexivity.
  - destruct (step e s) as [s1|] eqn:E; [|discriminate].
    etransitivity; [exact (mock_step_log e s s1 E)|exact (IH s1 Hrun)].
Qed.

Lemma mock_log_append_only_witness :
  exists s',
    run [TimerFired 0 ""; Typed " clear "; Submitted None; TimerFired 0 "";
         ClearClicked] busySession = Some s' /\
    history s' = [] /\
    commandHistory s' = ["ls"; "clear"] /\
    commandHistory busySession `prefix_of` commandHistory s'.
Proof.
  eexists. split; [reflexivity|].
  split; [reflexivity|]. split; [reflexivity|].
  apply (mock_log_append_only
           [TimerFired 0 ""; Typed " clear "; Submitted None;
            TimerFired 0 ""; ClearClicked] busySession).
  reflexivity.
Defined.

End MockSessionClaims.

Section MockCat.
Import FileExplorer TerminalMock.

(** X16: the mock [cat] prints the content of the file that was active
    when the command was submitted, or the text File is empty when that
    content is empty or missing; with no active file it is reported as an
    unknown command, with an error entry. *)
Theorem mock_cat_output af d c rest s :
  isRunning s = false ->
  timers s = [] ->
  Js.trim c = "cat" +:+ rest ->
  submitAndComplete af d c s =
  Some {| command := Some "";
          history :=
            history s ++
            [match af with
             | Some f =>
                 mockEntry (Js.trim c)
                   (match content f with
                    | Some t => if Js.truthy t then t else "File is empty"
                    | None => "File is empty"
                    end) type_success
             | None =>
                 mockEntry (Js.trim c)
                   ("bash: " +:+ Js.trim c +:+ ": command not found")
                   type_error
             end];
          isRunning := false;
          commandHistory := commandHistory s ++ [Js.trim c];
          historyIndex := -1;
          timers := [] |}.
Proof.
  intros Hr Ht Hc.
  assert (Htruthy : Js.truthy (Js.trim c) = true) by (rewrite Hc; reflexivity).
  unfold submitAndComplete.
  rewrite (handleSubmit_accepted af c (setCommand (Some c) s) eq_refl Htruthy Hr).
  unfold fireTimer. cbn [timers setCommand]. rewrite Ht.
  cbn [app lookup list_lookup delete list_delete].
  unfold onTimeout. cbn [trimmedCmd TerminalMock.activeFile]. rewrite Hc.
  change ("cat" +:+ rest) with (String "c" (String "a" (String "t" rest))).
  cbn [Js.startsWith Ascii.eqb Bool.eqb andb orb String.eqb].
  destruct af as [f|].
  - rewrite bool_decide_eq_true_2 by (eexists; reflexivity).
    unfold finish. cbn [history setHistory setIsRunning setTimers
      commandHistory historyIndex timers isRunning TerminalMock.command].
    rewrite updateLast_app. reflexivity.
  - rewrite bool_decide_eq_false_2 by (intros [? H]; discriminate H).
    unfold finish. cbn [history setHistory setIsRunning setTimers
      commandHistory historyIndex timers isRunning TerminalMock.command].
    rewrite updateLast_app. reflexivity.
Qed.

Lemma mock_cat_output_witness :
  exists e,
    (history <$> submitAndComplete None "" " cat notes.txt " initial)
      = Some (history initial ++ [e]) /\
    entry_type e = type_error /\
    entry_output e = "bash: cat notes.txt: command not found".
Proof.
  eexists. rewrite (mock_cat_output None "" " cat notes.txt " " notes.txt"
                      initial eq_refl eq_refl eq_refl).
  cbn [fmap option_fmap option_map history]. split; [reflexivity|].
  split; reflexivity.
Defined.

End MockCat.

(** ** Terminal, API-backed: working directory, failures, prompt *)

Section ApiSessionFacts.
Import TerminalApi.

Lemma api_reachable_consistent s : reachable s -> consistent s.
Proof.
  induction 1 as [|s e s' _ IH Hstep].
  - apply api_consistent_initial.
  - exact (api_consistent_step e s s' IH Hstep).
Qed.

Lemma updateLast_length f h : length (updateLast f h) = length h.
Proof.
  induction h as [|x h IH]; [reflexivity|].
  cbn [updateLast]. destruct h; [reflexivity|].
  cbn [length] in *. rewrite IH. reflexivity.
Qed.

Lemma startsWith_append p rest : Js.startsWith p (p +:+ rest) = true.
Proof.
  induction p as [|a p IH]; [reflexivity|].
  change (String a p +:+ rest) with (String a (p +:+ rest)).
  cbn [Js.startsWith]. rewrite Ascii.eqb_refl. exact IH.
Qed.

Lemma substring_append p rest :
  Js.substring (String.length p) (p +:+ rest) = rest.
Proof. induction p as [|a p IH]; [destruct rest; reflexivity|exact IH]. Qed.

Lemma replace_prefix p r rest : Js.replace p r (p +:+ rest) = r +:+ rest.
Proof.
  destruct (p +:+ rest) eqn:E.
  - cbn [Js.replace]. rewrite <- E at 1. rewrite startsWith_append.
    rewrite <- E at 1. rewrite substring_append. reflexivity.
  - cbn [Js.replace]. rewrite <- E at 1. rewrite startsWith_append.
    rewrite <- E at 1. rewrite substring_append. reflexivity.
Qed.

Lemma replace_absent p r s : Js.includesText p s = false -> Js.replace p r s = s.
Proof.
  induction s as [|c s IH]; cbn [Js.includesText Js.replace]; intros H;
    apply orb_false_iff in H as [H1 H2]; rewrite H1; [reflexivity|].
  rewrite (IH H2). reflexivity.
Qed.

End ApiSessionFacts.

Section ApiSessionClaims.
Import TerminalApi.

(** X17: in every reachable state of the API-backed terminal the running
    flag tells exactly whether a command execution is awaited: while it is
    off no entry is running and no execution is pending, while it is on
    exactly one execution is pending and a submission changes nothing. *)
Theorem api_running_flag_tracks_pending_call s :
  reachable s ->
  (isRunning s = false ->
     runningCount (history s) = 0%nat /\ executeCount (calls s) = 0%nat) /\
  (isRunning s = true ->
     executeCount (calls s) = 1%nat /\ handleSubmit s = s).
Proof.
  intros Hreach. destruct (api_reachable_consistent s Hreach) as (Hc & Hl & Hf).
  split; intros Hr; rewrite Hr in Hc.
  - split; [apply runningCount_nonRunning, Hf, Hr|exact Hc].
  - split; [exact Hc|apply api_handleSubmit_running, Hr].
Qed.

Lemma api_running_flag_tracks_pending_call_witness :
  exists s,
    run [Opened; Typed "ls"; Submitted; Typed "pwd"; Submitted] initial
      = Some s /\
    isRunning s = true /\
    executeCount (calls s) = 1%nat /\ handleSubmit s = s.
Proof.
  exists (default initial
            (run [Opened; Typed "ls"; Submitted; Typed "pwd"; Submitted]
               initial)).
  split; [vm_compute; reflexivity|]. split; [vm_compute; reflexivity|].
  refine (proj2 (api_running_flag_tracks_pending_call
                   (default initial
                      (run [Opened; Typed "ls"; Submitted; Typed "pwd";
                            Submitted] initial)) _) _);
    [|vm_compute; reflexivity].
  apply (api_run_reachable
           [Opened; Typed "ls"; Submitted; Typed "pwd"; Submitted] initial);
    [constructor|vm_compute; reflexivity].
Defined.

(** X18: the working directory of the terminal changes only when an
    awaited command execution is fulfilled with exit code 0, and then it
    becomes the directory the backend reported; typing, submitting, recall,
    clearing, history loads, failed commands and rejected calls leave it
    alone. *)
Theorem api_workingDirectory_changes_only_on_success e s s' :
  step e s = Some s' ->
  workingDirectory s' <> workingDirectory s ->
  exists i cmd wd result,
    e = Fulfilled i (Executed result) /\
    calls s !! i = Some (CallExecute cmd wd) /\
    exit_code result = 0 /\
    workingDirectory s' = result_working_directory result.
Proof.
  intros Hstep Hne.
  destruct e as [text| |key| | |i r|i msg]; cbn [step] in Hstep.
  - injection Hstep as <-. contradiction Hne; reflexivity.
  - injection Hstep as <-. contradiction Hne.
    unfold handleSubmit, executeCommand.
    destruct (command s); [|reflexivity].
    destruct (submitAccepted _ s); [|reflexivity].
    destruct (negb _); reflexivity.
  - injection Hstep as <-. contradiction Hne. unfold handleKeyDown.
    repeat match goal with
           | |- context [if ?b then _ else _] => destruct b
           end; reflexivity.
  - injection Hstep as <-. contradiction Hne; reflexivity.
  - injection Hstep as <-. contradiction Hne; reflexivity.
  - destruct (calls s !! i) as [c|] eqn:Ei; [|discriminate].
    destruct c as [cmd wd| |], r as [result|l|]; cbn [resolved] in Hstep;
      try discriminate; injection Hstep as <-;
      try (contradiction Hne; reflexivity).
    destruct (exit_code result =? 0) eqn:Ex;
      [|contradiction Hne; reflexivity].
    exists i, cmd, wd, result. apply Z.eqb_eq in Ex. repeat split; assumption.
  - destruct (calls s !! i) as [c|] eqn:Ei; [|discriminate].
    injection Hstep as <-. contradiction Hne.
    destruct c; reflexivity.
Qed.

Lemma api_workingDirectory_changes_only_on_success_witness :
  exists s s',
    run [Typed "cd src"; Submitted] initial = Some s /\
    step (Fulfilled 0 (Executed sampleResult)) s = Some s' /\
    workingDirectory s' = "/tmp/codeeditor/src" /\
    exists i cmd wd result,
      Fulfilled 0 (Executed sampleResult) = Fulfilled i (Executed result) /\
      calls s !! i = Some (CallExecute cmd wd) /\
      exit_code result = 0 /\
      workingDirectory s' = result_working_directory result.
Proof.
  pose (s := default initial (run [Typed "cd src"; Submitted] initial)).
  pose (s' := default initial
                (step (Fulfilled 0 (Executed sampleResult)) s)).
  assert (Hstep : step (Fulfilled 0 (Executed sampleResult)) s = Some s')
    by (vm_compute; reflexivity).
  assert (Hne : workingDirectory s' <> workingDirectory s)
    by (apply String.eqb_neq; vm_compute; reflexivity).
  exists s, s'. split; [vm_compute; reflexivity|]. split; [exact Hstep|].
  split; [vm_compute; reflexivity|].
  exact (api_workingDirectory_changes_only_on_success _ s s' Hstep Hne).
Defined.

(** X19: when the awaited execution of a command is rejected, the session
    is idle again with an error banner: the entry of the command is
    replaced by an error entry carrying the message, nothing is left
    running, the history keeps its length, the working directory and the
    command-text log are unchanged, and the failure is written to the
    console. *)
Theorem api_rejected_execution_recovers s i cmd wd msg :
  reachable s ->
  calls s !! i = Some (CallExecute cmd wd) ->
  exists s',
    step (Rejected i msg) s = Some s' /\
    isRunning s' = false /\
    error s' = Some "Failed to execute command" /\
    runningCount (history s') = 0%nat /\
    executeCount (calls s') = 0%nat /\
    length (history s') = length (history s) /\
    (history s <> [] ->
     last (history s') =
       Some {| entry_command := cmd; entry_output := "Error: " +:+ msg;
               entry_type := type_error; working_directory := Some wd;
               execution_time := None |}) /\
    workingDirectory s' = workingDirectory s /\
    commandHistory s' = commandHistory s /\
    console s' = console s ++ ["Error executing command: " +:+ msg].
Proof.
  intros Hreach Hi. pose proof (api_reachable_consistent s Hreach) as Hs.
  eexists. split; [cbn [step]; rewrite Hi; reflexivity|].
  cbn [rejected isRunning error history calls workingDirectory commandHistory
       console setIsRunning setHistory setError consoleError setCalls].
  match goal with
  | |- context [updateLast ?f _] =>
      destruct (api_consistent_execute_done s i _ f Hs Hi eq_refl
                  (fun _ => eq_refl)) as (_ & H0 & Hall)
  end.
  split; [reflexivity|]. split; [reflexivity|].
  split; [apply runningCount_nonRunning, Hall|].
  split; [exact H0|]. split; [apply updateLast_length|].
  split; [|repeat split].
  intros Hne. destruct (history s) as [|x h] using rev_ind; [contradiction|].
  rewrite updateLast_app, last_snoc. reflexivity.
Qed.

Lemma api_rejected_execution_recovers_witness :
  exists s s',
    run [Typed "ls"; Submitted] initial = Some s /\
    step (Rejected 0 "Network Error") s = Some s' /\
    isRunning s' = false /\
    entry_output <$> last (history s') = Some "Error: Network Error".
Proof.
  eexists.
  destruct (api_rejected_execution_recovers
              (default initial (run [Typed "ls"; Submitted] initial))
              0 "ls" "/tmp/codeeditor" "Network Error")
    as (s' & H1 & H2 & _ & _ & _ & _ & H7 & _).
  - apply (api_run_reachable [Typed "ls"; Submitted] initial);
      [constructor|reflexivity].
  - reflexivity.
  - exists s'. split; [reflexivity|]. split; [exact H1|].
    split; [exact H2|]. rewrite H7 by discriminate. reflexivity.
Defined.

(** X20: a history load that completes while a command is running
    replaces the whole history, running entry included; when the command
    then completes its result overwrites the last loaded record instead of
    being added, so that record disappears from the display. *)
Theorem api_history_load_overwritten_by_result s i j cmd wd l x result :
  calls s !! i = Some CallGetHistory ->
  delete i (calls s) !! j = Some (CallExecute cmd wd) ->
  exists s',
    run [Fulfilled i (History (l ++ [x])); Fulfilled j (Executed result)] s
      = Some s' /\
    history s' = map entryOfResult l ++ [entryOfResult result] /\
    isRunning s' = false.
Proof.
  intros Hi Hj. eexists. split.
  { cbn [run step]. rewrite Hi. cbn [resolved calls setCalls setHistory].
    rewrite Hj. cbn [resolved]. reflexivity. }
  cbn [history setHistory setCalls].
  split; [|destruct (exit_code result =? 0); reflexivity].
  assert (H : history
                (if exit_code result =? 0
                 then setWorkingDirectory (result_working_directory result)
                        (setHistory
                           (updateLast (fun _ => entryOfResult result)
                              (map entryOfResult (l ++ [x])))
                           (setCalls
                              (delete j (delete i (calls s)))
                              (setHistory (map entryOfResult (l ++ [x]))
                                 (setCalls (delete i (calls s)) s))))
                 else setHistory
                        (updateLast (fun _ => entryOfResult result)
                           (map entryOfResult (l ++ [x])))
                        (setCalls
                           (delete j (delete i (calls s)))
                           (setHistory (map entryOfResult (l ++ [x]))
                              (setCalls (delete i (calls s)) s))))
              = updateLast (fun _ => entryOfResult result)
                  (map entryOfResult (l ++ [x])))
    by (destruct (exit_code result =? 0); reflexivity).
  cbn [history setIsRunning]. rewrite H, map_app. cbn [map].
  apply updateLast_app.
Qed.

Lemma api_history_load_overwritten_by_result_witness :
  exists s s',
    run [Typed "cd src"; Submitted; Opened] initial = Some s /\
    run [Fulfilled 1 (History [sampleResult; sampleResult]);
         Fulfilled 0 (Executed sampleResult)] s = Some s' /\
    length (history s') = 2%nat.
Proof.
  eexists.
  destruct (api_history_load_overwritten_by_result
              (default initial
                 (run [Typed "cd src"; Submitted; Opened] initial))
              1 0 "cd src" "/tmp/codeeditor" [sampleResult] sampleResult
              sampleResult eq_refl eq_refl) as (s' & H1 & H2 & _).
  exists s'. split; [reflexivity|]. split; [exact H1|].
  rewrite H2. reflexivity.
Defined.

(** X21: the prompt shows the working directory between user@kodex: and
    a dollar sign, with a leading /tmp/codeeditor written as a tilde; a
    directory that does not contain /tmp/codeeditor is shown as it is. *)
Theorem getPrompt_abbreviates_home s :
  (forall rest,
     workingDirectory s = "/tmp/codeeditor" +:+ rest ->
     getPrompt s = "user@kodex:~" +:+ rest +:+ "$") /\
  (Js.includesText "/tmp/codeeditor" (workingDirectory s) = false ->
   getPrompt s = "user@kodex:" +:+ workingDirectory s +:+ "$").
Proof.
  unfold getPrompt. split.
  - intros rest ->. rewrite replace_prefix. reflexivity.
  - intros H. rewrite (replace_absent _ _ _ H). reflexivity.
Qed.

End ApiSessionClaims.

(** ** The [debounce] utility *)

Section DebounceFacts.
Import Debounce.
Context {A : Type}.
Implicit Types (s : State A) (a : A).

Lemma executedFunction_armed wait a s :
  idleOrTracked s -> armed wait a (invoked s) (executedFunction wait a s).
Proof.
  unfold idleOrTracked. intros H. exists (nextTimer s).
  unfold executedFunction. cbn [timeout timers clock invoked].
  rewrite H. repeat split.
Qed.

Lemma advance_armed_early wait a inv gap s :
  armed wait a inv s -> 0 <= gap < wait ->
  idleOrTracked (advance gap s) /\ invoked (advance gap s) = inv.
Proof.
  intros (i & Ht & Htm & Hi) Hgap.
  destruct s as [to tm nt ck iv]. cbn in Ht, Htm, Hi. subst to tm iv.
  unfold advance. cbn [timers length fireDue clock List.find due].
  destruct (ck + wait <=? ck + gap) eqn:E; [apply Z.leb_le in E; lia|].
  split; [|reflexivity].
  unfold idleOrTracked. cbn [timeout timers clearTimeout List.filter timer_id].
  rewrite Nat.eqb_refl. reflexivity.
Qed.

Lemma advance_armed_late wait a inv quiet s :
  armed wait a inv s -> wait <= quiet ->
  invoked (advance quiet s) = inv ++ [a] /\ timers (advance quiet s) = [].
Proof.
  intros (i & Ht & Htm & Hi) Hq.
  destruct s as [to tm nt ck iv]. cbn in Ht, Htm, Hi. subst to tm iv.
  unfold advance. cbn [timers length fireDue clock List.find due].
  destruct (ck + wait <=? ck + quiet) eqn:E; [|apply Z.leb_gt in E; lia].
  unfold later, removeTimer.
  cbn [timeout timers clearTimeout List.filter timer_id invoked args].
  rewrite Nat.eqb_refl. cbn [negb List.filter]. split; reflexivity.
Qed.

Lemma last_cons_default (m : list A) b a :
  List.last (b :: m) a = List.last m b.
Proof.
  revert b a. induction m as [|x m IH]; intros b a; [reflexivity|].
  change (List.last (b :: x :: m) a) with (List.last (x :: m) a).
  rewrite !IH. reflexivity.
Qed.

Lemma burst_armed wait l a inv s :
  armed wait a inv s ->
  Forall (fun p => 0 <= fst p < wait) l ->
  armed wait (List.last (map snd l) a) inv (burst wait l s).
Proof.
  revert a s. induction l as [|[gap b] l IH]; intros a s Hs Hl.
  - exact Hs.
  - apply Forall_cons in Hl as [Hgap Hl]. cbn [fst] in Hgap.
    destruct (advance_armed_early wait a inv gap s Hs Hgap) as [Hidle Hinv].
    pose proof (executedFunction_armed wait b _ Hidle) as Hb.
    rewrite Hinv in Hb. specialize (IH b _ Hb Hl).
    cbn [burst map snd].
    rewrite last_cons_default. exact IH.
Qed.

End DebounceFacts.

Section DebounceClaims.
Import Debounce.

(** X22: a debounced function called several times, each call less than
    [wait] milliseconds after the previous one, calls the wrapped function
    exactly once when [wait] milliseconds have passed without a call, with
    the arguments of the last call; a timer that was pending before the
    burst never fires. *)
Theorem debounce_burst_invokes_last_once {A : Type} (wait quiet : Z) (a0 : A)
    (l : list (Z * A)) (s : State A) :
  idleOrTracked s ->
  Forall (fun p => 0 <= fst p < wait) l ->
  wait <= quiet ->
  invoked (advance quiet (burst wait l (executedFunction wait a0 s)))
    = invoked s ++ [List.last (map snd l) a0] /\
  timers (advance quiet (burst wait l (executedFunction wait a0 s))) = [].
Proof.
  intros Hs Hl Hq.
  apply (advance_armed_late wait _ (invoked s) quiet); [|exact Hq].
  apply burst_armed; [|exact Hl].
  apply executedFunction_armed, Hs.
Qed.

Lemma debounce_burst_invokes_last_once_witness :
  invoked (advance 1000
             (burst 1000 [(300, "ab"); (999, "abc")]
                (executedFunction 1000 "a" initial)))
    = ["abc"].
Proof.
  refine (proj1 (debounce_burst_invokes_last_once 1000 1000 "a"
                   [(300, "ab"); (999, "abc")] initial eq_refl _ _)).
  - repeat constructor; cbn; lia.
  - lia.
Defined.

End DebounceClaims.

(** ** Editor: caret position *)

Section CursorFacts.

Lemma count_app c s1 s2 :
  Js.count c (s1 +:+ s2) = (Js.count c s1 + Js.count c s2)%nat.
Proof.
  induction s1 as [|a s1 IH]; [reflexivity|].
  change (String a s1 +:+ s2) with (String a (s1 +:+ s2)).
  cbn [Js.count]. rewrite IH. lia.
Qed.

(** The segments of a split: everything up to the last separator, and the
    separator-free text after it, which is the last segment. *)
Lemma split1_last_segment sep s seg rest :
  Js.split1 sep s = (seg, rest) ->
  exists before lastLine,
    s = before +:+ lastLine /\
    Js.includes sep lastLine = false /\
    ((before = "" /\ rest = []) \/
     ((exists b, before = b +:+ String sep "") /\ rest <> [])) /\
    length rest = Js.count sep before /\
    default "" (last (seg :: rest)) = lastLine.
Proof.
  revert seg rest. induction s as [|c s IH]; intros seg rest H.
  - injection H as <- <-. exists "", "". repeat split. left. split; reflexivity.
  - cbn [Js.split1] in H. destruct (Js.split1 sep s) as [seg' rest'].
    destruct (IH seg' rest' eq_refl)
      as (before & lastLine & -> & Hinc & Hcase & Hlen & Hlast).
    destruct (Ascii.eqb c sep) eqn:E.
    + injection H as <- <-. apply Ascii.eqb_eq in E. subst c.
      exists (String sep before), lastLine.
      split; [reflexivity|]. split; [exact Hinc|]. split; [|split].
      * right. split; [|discriminate].
        destruct Hcase as [[-> _]|[[b ->] _]];
          [exists ""|exists (String sep b)]; reflexivity.
      * cbn [length Js.count]. rewrite Ascii.eqb_refl, Hlen. reflexivity.
      * exact Hlast.
    + injection H as <- <-.
      destruct Hcase as [[-> ->]|[[b ->] Hne]].
      * exists "", (String c lastLine).
        split; [reflexivity|]. split; [|split; [|split]].
        -- cbn [Js.includes]. rewrite E. exact Hinc.
        -- left. split; reflexivity.
        -- reflexivity.
        -- cbn in Hlast. cbn. rewrite Hlast. reflexivity.
      * exists (String c (b +:+ String sep "")), lastLine.
        split; [reflexivity|]. split; [exact Hinc|]. split; [|split].
        -- right. split; [exists (String c b); reflexivity|exact Hne].
        -- cbn [Js.count]. rewrite E. exact Hlen.
        -- destruct rest' as [|y rest']; [contradiction|]. exact Hlast.
Qed.

End CursorFacts.

Section CursorClaims.
Import CodeEditor.

(** X23: [updateCursorPosition] splits the text before the caret into
    the part up to and including the last line feed and the line-feed-free
    rest: the line is one more than the number of line feeds before the
    caret and the column one more than the number of characters after the
    last of them. *)
Theorem updateCursorPosition_line_column value selectionStart :
  exists before lastLine,
    String.substring 0 selectionStart value = before +:+ lastLine /\
    Js.includes (ascii_of_nat 10) lastLine = false /\
    (before = "" \/ exists b, before = b +:+ Js.nl) /\
    updateCursorPosition value selectionStart =
      ((1 + Js.count (ascii_of_nat 10)
              (String.substring 0 selectionStart value))%nat,
       (String.length lastLine + 1)%nat).
Proof.
  unfold updateCursorPosition, Js.split.
  destruct (Js.split1 (ascii_of_nat 10)
              (String.substring 0 selectionStart value))
    as [seg rest] eqn:E.
  destruct (split1_last_segment _ _ _ _ E)
    as (before & lastLine & Hs & Hinc & Hcase & Hlen & Hlast).
  exists before, lastLine. split; [exact Hs|]. split; [exact Hinc|]. split.
  - destruct Hcase as [[-> _]|[Hb _]]; [left; reflexivity|right; exact Hb].
  - rewrite Hlast, Hs, count_app. cbn [length]. rewrite Hlen.
    assert (H0 : Js.count (ascii_of_nat 10) lastLine = 0%nat).
    { clear -Hinc. induction lastLine as [|c l IH]; [reflexivity|].
      cbn [Js.includes] in Hinc. apply orb_false_iff in Hinc as [H1 H2].
      cbn [Js.count]. rewrite H1, (IH H2). reflexivity. }
    rewrite H0, Nat.add_0_r. reflexivity.
Qed.

End CursorClaims.

(** ** Editor session: saving *)

Section Saving.
Import CodeEditor.
Variables (f : FileObj) (sv : bool) (ls : option string)
  (tr : option nat) (nr nt : nat) (ck : Z) (rq : list (string * string))
  (fl : list Render) (cs : list string).

Lemma commit_inserted c ct hc tm :
  (ct, hc) <> (c, true) ->
  cleared tr tm = [] ->
  commit (mkSystem (Some f) nr c true sv ls tr (Some (Some (ref f)))
            (Some (ct, hc, Some (ref f))) ck tm nt rq fl cs)
  = mkSystem (Some f) nr c true sv ls (Some nt) (Some (Some (ref f)))
      (Some (c, true, Some (ref f))) ck
      [{| timer_id := nt; due := ck + 2000;
          callback := {| activeFile := Some f; render_content := c;
                         render_hasChanges := true |} |}]
      (S nt) rq fl cs.
Proof.
  intros Hne Hclr. unfold commit, changed1, changed2. editor_fields.
  rewrite (bool_decide_eq_false_2
             (Some (ct, hc, Some (ref f)) = Some (c, true, Some (ref f))))
    by (intros [= -> ->]; apply Hne; reflexivity).
  rewrite !bool_decide_eq_true_2 by first [reflexivity|eexists; reflexivity].
  editor_fields.
  unfold effect2. editor_fields.
  rewrite !bool_decide_eq_true_2 by (eexists; reflexivity).
  unfold setSaveTimeout, clearSaveTimeout, clearTimeout.
  destruct tr as [t|]; cbn [cleared] in Hclr; editor_fields.
  - rewrite Hclr. reflexivity.
  - subst tm. reflexivity.
Qed.

Lemma stable_deps a nr' c h sv' ls' tr' ck' tm nt' rq' fl' cs' :
  stable (mkSystem a nr' c h sv' ls' tr' (Some (ref <$> a))
            (Some (c, h, ref <$> a)) ck' tm nt' rq' fl' cs') = true.
Proof.
  unfold stable, changed1, changed2. editor_fields.
  rewrite !bool_decide_eq_true_2 by reflexivity. reflexivity.
Qed.

Lemma settle_inserted c ct hc tm :
  (ct, hc) <> (c, true) ->
  cleared tr tm = [] ->
  settle (mkSystem (Some f) nr c true sv ls tr (Some (Some (ref f)))
            (Some (ct, hc, Some (ref f))) ck tm nt rq fl cs)
  = mkSystem (Some f) nr c true sv ls (Some nt) (Some (Some (ref f)))
      (Some (c, true, Some (ref f))) ck
      [{| timer_id := nt; due := ck + 2000;
          callback := {| activeFile := Some f; render_content := c;
                         render_hasChanges := true |} |}]
      (S nt) rq fl cs.
Proof.
  intros Hne Hclr. unfold settle. cbn [settleFor].
  match goal with
  | |- (if stable ?x then _ else _) = _ =>
      assert (H1 : stable x = false)
  end.
  { unfold stable, changed1, changed2. editor_fields.
    rewrite (bool_decide_eq_false_2
               (Some (ct, hc, Some (ref f)) = Some (c, true, Some (ref f))))
      by (intros [= -> ->]; apply Hne; reflexivity).
    rewrite andb_false_r. reflexivity. }
  rewrite H1, (commit_inserted c ct hc tm Hne Hclr).
  rewrite (stable_deps (Some f)). reflexivity.
Qed.

Lemma commit_flush g n c dc dh sv' ls' tr' tm' nt' :
  (dc, dh) <> (c, false) ->
  cleared tr' tm' = [] ->
  commit (mkSystem (Some g) n c false sv' ls' tr' (Some (Some (ref g)))
            (Some (dc, dh, Some (ref g))) ck tm' nt' rq fl cs)
  = mkSystem (Some g) n c false sv' ls' tr' (Some (Some (ref g)))
      (Some (c, false, Some (ref g))) ck [] nt' rq fl cs.
Proof.
  intros Hne Hclr. unfold commit, changed1, changed2. editor_fields.
  rewrite (bool_decide_eq_false_2
             (Some (dc, dh, Some (ref g)) = Some (c, false, Some (ref g))))
    by (intros [= -> ->]; apply Hne; reflexivity).
  rewrite !bool_decide_eq_true_2 by first [reflexivity|eexists; reflexivity].
  editor_fields.
  unfold effect2. editor_fields.
  unfold clearSaveTimeout, clearTimeout.
  destruct tr' as [t|]; cbn [cleared] in Hclr; editor_fields.
  - rewrite Hclr. reflexivity.
  - subst tm'. reflexivity.
Qed.

Lemma commit_replaced c cur hc dc dh tm :
  (ref f < nr)%nat ->
  cleared tr tm = [] ->
  commit (mkSystem (Some (withContent nr f c)) (S nr) cur hc sv ls tr
            (Some (Some (ref f))) (Some (dc, dh, Some (ref f)))
            ck tm nt rq fl cs)
  = mkSystem (Some (withContent nr f c)) (S nr) c false sv (modified_at f)
      (if hc then Some nt else tr)
      (Some (Some nr)) (Some (cur, hc, Some nr)) ck
      (if hc
       then [{| timer_id := nt; due := ck + 2000;
                callback := {| activeFile := Some (withContent nr f c);
                               render_content := cur;
                               render_hasChanges := true |} |}]
       else [])
      (if hc then S nt else nt) rq fl cs.
Proof.
  intros Href Hclr. unfold commit, changed1, changed2. editor_fields.
  rewrite (bool_decide_eq_false_2 (Some (Some (ref f)) = Some (Some nr)))
    by (intros [=]; lia).
  rewrite (bool_decide_eq_false_2
             (Some (dc, dh, Some (ref f)) = Some (cur, hc, Some nr)))
    by (intros [=]; lia).
  rewrite !bool_decide_eq_true_2 by first [reflexivity|eexists; reflexivity].
  editor_fields.
  unfold effect1, effect2. editor_fields.
  unfold setSaveTimeout, clearSaveTimeout, clearTimeout.
  destruct hc, tr as [t|]; cbn [cleared] in Hclr; editor_fields;
    rewrite ?bool_decide_eq_true_2 by (eexists; reflexivity);
    editor_fields; rewrite ?Hclr; subst; reflexivity.
Qed.

(** The activeFile object was replaced by the parent. *)
Lemma settle_replaced c cur hc dc dh tm :
  (ref f < nr)%nat ->
  cleared tr tm = [] ->
  settle (mkSystem (Some (withContent nr f c)) (S nr) cur hc sv ls tr
            (Some (Some (ref f))) (Some (dc, dh, Some (ref f)))
            ck tm nt rq fl cs)
  = mkSystem (Some (withContent nr f c)) (S nr) c false sv (modified_at f)
      (if hc then Some nt else tr)
      (Some (Some nr)) (Some (c, false, Some nr))
      ck [] (if hc then S nt else nt) rq fl cs.
Proof.
  intros Href Hclr. unfold settle. cbn [settleFor].
  match goal with
  | |- (if stable ?x then _ else _) = _ =>
      assert (H1 : stable x = false)
  end.
  { unfold stable, changed1, changed2. editor_fields.
    rewrite (bool_decide_eq_false_2 (Some (Some (ref f)) = Some (Some nr)))
      by (intros [=]; lia).
    reflexivity. }
  rewrite H1, (commit_replaced c cur hc dc dh tm Href Hclr).
  destruct (decide ((cur, hc) = (c, false))) as [[= -> ->]|Hne].
  - rewrite (stable_deps (Some (withContent nr f c))). reflexivity.
  - match goal with
    | |- (if stable ?x then _ else _) = _ =>
        assert (H2 : stable x = false)
    end.
    { unfold stable, changed1, changed2. editor_fields.
      rewrite (bool_decide_eq_false_2
                 (Some (cur, hc, Some nr) = Some (c, false, Some nr)))
        by (intros [= -> ->]; apply Hne; reflexivity).
      rewrite andb_false_r. reflexivity. }
    rewrite H2.
    rewrite (commit_flush (withContent nr f c) (S nr) c cur hc sv
               (modified_at f) (if hc then Some nt else tr) _
               (if hc then S nt else nt) Hne).
    + rewrite (stable_deps (Some (withContent nr f c))). reflexivity.
    + destruct hc; [|destruct tr; reflexivity].
      cbn [cleared List.filter timer_id]. rewrite Nat.eqb_refl. reflexivity.
Qed.

(** The timer set by the auto-save effect expires. *)
Lemma advance_fires c sv' ls' tr' t d nt' ms :
  d <= ck + ms -> 0 <= ms ->
  step (Advanced ms)
    (mkSystem (Some f) nr c true sv' ls' tr' (Some (Some (ref f)))
       (Some (c, true, Some (ref f))) ck
       [{| timer_id := t; due := d;
           callback := {| activeFile := Some f; render_content := c;
                          render_hasChanges := true |} |}]
       nt' rq fl cs)
  = Some (mkSystem (Some f) nr c true true ls' tr' (Some (Some (ref f)))
            (Some (c, true, Some (ref f))) (ck + ms) [] nt'
            (rq ++ [(file_path f, c)])
            (fl ++ [{| activeFile := Some f; render_content := c;
                       render_hasChanges := true |}]) cs).
Proof.
  intros Hd Hms. cbn [step]. apply Z.leb_le in Hms. rewrite Hms.
  editor_fields. cbn [length fireDue]. editor_fields.
  cbn [List.find]. editor_fields.
  apply Z.leb_le in Hd. rewrite Hd.
  unfold clearTimeout. editor_fields. cbn [List.filter]. editor_fields.
  rewrite Nat.eqb_refl. cbn [negb].
  unfold saveFile. editor_fields.
  rewrite settle_stable by apply (stable_deps (Some f)). reflexivity.
Qed.

Lemma advance_waits c sv' ls' tr' t d nt' ms :
  ck + ms < d -> 0 <= ms ->
  step (Advanced ms)
    (mkSystem (Some f) nr c true sv' ls' tr' (Some (Some (ref f)))
       (Some (c, true, Some (ref f))) ck
       [{| timer_id := t; due := d;
           callback := {| activeFile := Some f; render_content := c;
                          render_hasChanges := true |} |}]
       nt' rq fl cs)
  = Some (mkSystem (Some f) nr c true sv' ls' tr' (Some (Some (ref f)))
            (Some (c, true, Some (ref f))) (ck + ms)
            [{| timer_id := t; due := d;
                callback := {| activeFile := Some f; render_content := c;
                               render_hasChanges := true |} |}]
            nt' rq fl cs).
Proof.
  intros Hd Hms. cbn [step]. apply Z.leb_le in Hms. rewrite Hms.
  editor_fields. cbn [length fireDue]. editor_fields.
  cbn [List.find]. editor_fields.
  apply Z.leb_gt in Hd. rewrite Hd. reflexivity.
Qed.


Lemma delete_length_snoc {A} (l : list A) x : delete (length l) (l ++ [x]) = l.
Proof.
  induction l as [|y l IH]; [reflexivity|].
  cbn [length app delete list_delete]. f_equal. exact IH.
Qed.

Lemma step_Inserted_open a b t ct hc d1 d2 tm :
  step (Inserted a b t)
    (mkSystem (Some f) nr ct hc sv ls tr d1 d2 ck tm nt rq fl cs)
  = Some (settle
            (mkSystem (Some f) nr
               (String.substring 0 a ct +:+ t +:+ Js.substring b ct)
               true sv ls tr d1 d2 ck tm nt rq fl cs)).
Proof.
  cbn [step app_activeFile].
  rewrite bool_decide_eq_true_2 by (eexists; reflexivity). reflexivity.
Qed.

Lemma step_SaveRequested_open ct d1 d2 tm :
  step SaveRequested
    (mkSystem (Some f) nr ct true sv ls tr d1 d2 ck tm nt rq fl cs)
  = Some (settle
            (mkSystem (Some f) nr ct true true ls tr d1 d2 ck tm nt
               (rq ++ [(file_path f, ct)])
               (fl ++ [{| activeFile := Some f; render_content := ct;
                          render_hasChanges := true |}]) cs)).
Proof.
  cbn [step app_activeFile].
  rewrite bool_decide_eq_true_2 by (eexists; reflexivity). reflexivity.
Qed.

Lemma step_SaveFulfilled_last af ct cur hc d1 d2 tm nowIso :
  step (SaveFulfilled (length fl) nowIso)
    (mkSystem af nr cur hc sv ls tr d1 d2 ck tm nt rq
       (fl ++ [{| activeFile := Some f; render_content := ct;
                  render_hasChanges := true |}]) cs)
  = Some (settle
            (mkSystem (Some (withContent nr f ct)) (S nr) cur false false
               (Some nowIso) tr d1 d2 ck tm nt rq fl cs)).
Proof.
  cbn [step inflight]. rewrite lookup_app_r by lia. rewrite Nat.sub_diag.
  cbn [lookup list_lookup]. unfold saveFulfilled, handleFileUpdate,
    handleFileChange. editor_fields.
  rewrite String.eqb_refl. editor_fields.
  rewrite delete_length_snoc. reflexivity.
Qed.

End Saving.

Section SavingClaims.
Import CodeEditor.

Lemma stable_inv s f :
  stable s = true -> app_activeFile s = Some f ->
  deps1 s = Some (Some (ref f)) /\
  deps2 s = Some (content s, hasChanges s, Some (ref f)).
Proof.
  intros Hst Haf. unfold stable, changed1, changed2, render, depsOf1, depsOf2 in Hst.
  cbn [activeFile render_content render_hasChanges] in Hst.
  rewrite Haf in Hst. cbn [fmap option_fmap option_map] in Hst.
  apply andb_true_iff in Hst as [H1 H2].
  apply negb_true_iff, negb_false_iff, bool_decide_eq_true_1 in H1.
  apply negb_true_iff, negb_false_iff, bool_decide_eq_true_1 in H2.
  split; assumption.
Qed.

Ltac open_session s f Hst Haf :=
  let H1 := fresh "Hd1" in
  let H2 := fresh "Hd2" in
  destruct (stable_inv s f Hst Haf) as [H1 H2];
  destruct s as [af nr ct hc sv ls tr d1 d2 ck tm nt rq fl cs];
  cbn [app_activeFile nextRef content hasChanges isSaving lastSaved
       saveTimeoutRef deps1 deps2 clock timers nextTimer requests inflight
       console] in *;
  subst af d1 d2.

(** X24: in a clean session with an open file, text inserted at the
    caret marks the editor as changed and arms the auto-save timer; when
    2000 ms have passed the content is sent to the backend once, and before
    that nothing is sent. *)
Theorem insertion_autosaved_after_quiet_period s f a b t ms :
  stable s = true ->
  app_activeFile s = Some f ->
  hasChanges s = false ->
  timers s = [] ->
  0 <= ms ->
  exists s1 s2,
    step (Inserted a b t) s = Some s1 /\
    content s1 = String.substring 0 a (content s) +:+ t +:+
                 Js.substring b (content s) /\
    hasChanges s1 = true /\
    requests s1 = requests s /\
    step (Advanced ms) s1 = Some s2 /\
    content s2 = content s1 /\
    requests s2 =
      requests s ++
      (if 2000 <=? ms then [(file_path f, content s1)] else []) /\
    (2000 <= ms -> timers s2 = [] /\ isSaving s2 = true).
Proof.
  intros Hst Haf Hch Htm Hms. open_session s f Hst Haf. subst hc tm.
  rewrite step_Inserted_open.
  rewrite settle_inserted; [|intros [=]|destruct tr; reflexivity].
  eexists. destruct (2000 <=? ms) eqn:E.
  - apply Z.leb_le in E. eexists. split; [reflexivity|].
    cbn [content hasChanges requests].
    rewrite advance_fires by lia. cbn [content requests timers isSaving].
    repeat split.
  - apply Z.leb_gt in E. eexists. split; [reflexivity|].
    cbn [content hasChanges requests].
    rewrite advance_waits by lia. cbn [content requests timers isSaving].
    rewrite app_nil_r. repeat split; lia.
Qed.

Lemma insertion_autosaved_after_quiet_period_witness :
  exists s1 s2,
    step (Inserted 3 3 "X")
      openedSession = Some s1 /\
    step (Advanced 2000) s1 = Some s2 /\
    requests s2 = [("/a.js", "abcX")].
Proof.
  destruct (insertion_autosaved_after_quiet_period
              openedSession
              {| ref := 0%nat; file_id := "f1"; file_path := "/a.js";
                 file_content := Some "abc"; modified_at := Some "t0" |}
              3 3 "X" 2000 eq_refl eq_refl eq_refl eq_refl)
    as (s1 & s2 & H1 & H2 & _ & _ & H5 & _ & H7 & _); [lia|].
  exists s1, s2. split; [exact H1|]. split; [exact H5|].
  rewrite H7, H2. reflexivity.
Defined.

(** X25: two insertions less than 2000 ms apart are saved together:
    nothing is sent after the first one, and 2000 ms after the second one
    exactly one request goes out, carrying the text with both insertions. *)
Theorem insertions_debounced s f a b t ms1 a' b' t' ms2 :
  stable s = true ->
  app_activeFile s = Some f ->
  hasChanges s = false ->
  timers s = [] ->
  0 <= ms1 < 2000 ->
  2000 <= ms2 ->
  exists s2 s3,
    run [Inserted a b t; Advanced ms1; Inserted a' b' t'] s = Some s2 /\
    content s2 =
      (let c1 := String.substring 0 a (content s) +:+ t +:+
                 Js.substring b (content s) in
       String.substring 0 a' c1 +:+ t' +:+ Js.substring b' c1) /\
    requests s2 = requests s /\
    step (Advanced ms2) s2 = Some s3 /\
    requests s3 = requests s ++ [(file_path f, content s2)] /\
    content s3 = content s2 /\
    timers s3 = [].
Proof.
  intros Hst Haf Hch Htm Hms1 Hms2. open_session s f Hst Haf. subst hc tm.
  cbn [run]. rewrite step_Inserted_open.
  rewrite settle_inserted; [|intros [=]|destruct tr; reflexivity].
  rewrite advance_waits by lia. rewrite step_Inserted_open.
  set (c1 := substring 0 a ct +:+ t +:+ Js.substring b ct).
  set (c2 := substring 0 a' c1 +:+ t' +:+ Js.substring b' c1).
  destruct (decide (c2 = c1)) as [Heq|Hne].
  - rewrite Heq. rewrite settle_stable by apply (stable_deps (Some f)).
    eexists. eexists. split; [reflexivity|]. cbn [content requests].
    split; [reflexivity|].
    split; [reflexivity|]. rewrite advance_fires by lia.
    cbn [content requests timers]. repeat split.
  - rewrite settle_inserted.
    + eexists. eexists. split; [reflexivity|]. cbn [content requests].
      split; [reflexivity|].
      split; [reflexivity|]. rewrite advance_fires by lia.
      cbn [content requests timers]. repeat split.
    + intros [= H]. apply Hne. symmetry. exact H.
    + cbn [cleared List.filter timer_id]. rewrite Nat.eqb_refl. reflexivity.
Qed.

Lemma insertions_debounced_witness :
  exists s2 s3,
    run [Inserted 3 3 "X"; Advanced 500; Inserted 4 4 "Y"] openedSession
      = Some s2 /\
    step (Advanced 2000) s2 = Some s3 /\
    requests s3 = [("/a.js", "abcXY")].
Proof.
  destruct (insertions_debounced openedSession
              {| ref := 0%nat; file_id := "f1"; file_path := "/a.js";
                 file_content := Some "abc"; modified_at := Some "t0" |}
              3 3 "X" 500 4 4 "Y" 2000 eq_refl eq_refl eq_refl eq_refl)
    as (s2 & s3 & H1 & H2 & _ & H4 & H5 & _); [lia|lia|].
  exists s2, s3. split; [exact H1|]. split; [exact H4|].
  rewrite H5, H2. reflexivity.
Defined.

(** X26: a manual save does not cancel the pending auto-save timer: when
    the request is still in flight as the timer expires, the same content
    is sent to the backend a second time. *)
Theorem save_in_flight_sent_again s f a b t ms :
  stable s = true ->
  app_activeFile s = Some f ->
  hasChanges s = false ->
  timers s = [] ->
  2000 <= ms ->
  exists s',
    run [Inserted a b t; SaveRequested; Advanced ms] s = Some s' /\
    content s' = String.substring 0 a (content s) +:+ t +:+
                 Js.substring b (content s) /\
    requests s' =
      requests s ++ [(file_path f, content s'); (file_path f, content s')] /\
    length (inflight s') = (length (inflight s) + 2)%nat.
Proof.
  intros Hst Haf Hch Htm Hms. open_session s f Hst Haf. subst hc tm.
  cbn [run]. rewrite step_Inserted_open.
  rewrite settle_inserted; [|intros [=]|destruct tr; reflexivity].
  rewrite step_SaveRequested_open.
  rewrite settle_stable by apply (stable_deps (Some f)).
  rewrite advance_fires by lia.
  eexists. split; [reflexivity|]. cbn [content requests inflight].
  rewrite <- !app_assoc, !length_app. cbn [app length].
  split; [reflexivity|]. split; [reflexivity|lia].
Qed.

Lemma save_in_flight_sent_again_witness :
  exists s',
    run [Inserted 3 3 "X"; SaveRequested; Advanced 2000] openedSession
      = Some s' /\
    requests s' = [("/a.js", "abcX"); ("/a.js", "abcX")].
Proof.
  destruct (save_in_flight_sent_again openedSession
              {| ref := 0%nat; file_id := "f1"; file_path := "/a.js";
                 file_content := Some "abc"; modified_at := Some "t0" |}
              3 3 "X" 2000 eq_refl eq_refl eq_refl eq_refl)
    as (s' & H1 & H2 & H3 & _); [lia|].
  exists s'. split; [exact H1|]. rewrite H3, H2. reflexivity.
Defined.

(** X27: when a save is confirmed, the parent replaces [activeFile] by
    a copy holding the saved content, so the editor is reset from it: the
    content is the one that was sent, the session is clean, no timer is
    pending, and the last-saved stamp is the [modified_at] of the file as
    it was opened, not the time of the save. *)
Theorem save_fulfilled_resets_editor s f nowIso :
  stable s = true ->
  app_activeFile s = Some f ->
  (ref f < nextRef s)%nat ->
  hasChanges s = true ->
  onlyTrackedTimer s ->
  exists s1 s2,
    step SaveRequested s = Some s1 /\
    requests s1 = requests s ++ [(file_path f, content s)] /\
    step (SaveFulfilled (length (inflight s)) nowIso) s1 = Some s2 /\
    content s2 = content s /\
    hasChanges s2 = false /\
    isSaving s2 = false /\
    lastSaved s2 = modified_at f /\
    app_activeFile s2 = Some (withContent (nextRef s) f (content s)) /\
    timers s2 = [] /\
    requests s2 = requests s1 /\
    inflight s2 = inflight s.
Proof.
  intros Hst Haf Href Hch Htr. open_session s f Hst Haf. subst hc.
  rewrite step_SaveRequested_open.
  rewrite settle_stable by apply (stable_deps (Some f)).
  eexists. eexists. split; [reflexivity|]. cbn [requests].
  split; [reflexivity|].
  rewrite step_SaveFulfilled_last.
  rewrite settle_replaced; [|exact Href|].
  - repeat split.
  - unfold onlyTrackedTimer, clearSaveTimeout, clearTimeout in Htr.
    cbn [saveTimeoutRef] in Htr. destruct tr; exact Htr.
Qed.

Lemma save_fulfilled_resets_editor_witness :
  exists s1 s2,
    step SaveRequested dirtySession = Some s1 /\
    step (SaveFulfilled 0 "t1") s1 = Some s2 /\
    content s2 = "abcX" /\
    hasChanges s2 = false /\
    lastSaved s2 = Some "t0".
Proof.
  destruct (save_fulfilled_resets_editor dirtySession
              {| ref := 0%nat; file_id := "f1"; file_path := "/a.js";
                 file_content := Some "abc"; modified_at := Some "t0" |}
              "t1" eq_refl eq_refl)
    as (s1 & s2 & H1 & _ & H3 & H4 & H5 & _ & H7 & _);
    [apply Nat.ltb_lt; vm_compute; reflexivity|reflexivity|reflexivity|].
  exists s1, s2. repeat split; assumption.
Defined.

(** X28: text inserted while a save is in flight is lost when the save
    is confirmed: the editor goes back to the content that was sent, is
    marked clean, and no timer is left that would save the insertion. *)
Theorem edit_during_save_is_discarded s f a b t nowIso :
  stable s = true ->
  app_activeFile s = Some f ->
  (ref f < nextRef s)%nat ->
  hasChanges s = true ->
  onlyTrackedTimer s ->
  exists s1 s2,
    run [SaveRequested; Inserted a b t] s = Some s1 /\
    content s1 = String.substring 0 a (content s) +:+ t +:+
                 Js.substring b (content s) /\
    hasChanges s1 = true /\
    step (SaveFulfilled (length (inflight s)) nowIso) s1 = Some s2 /\
    content s2 = content s /\
    hasChanges s2 = false /\
    timers s2 = [] /\
    requests s2 = requests s ++ [(file_path f, content s)].
Proof.
  intros Hst Haf Href Hch Htr. open_session s f Hst Haf. subst hc.
  assert (Hclr : cleared tr tm = []).
  { unfold onlyTrackedTimer, clearSaveTimeout, clearTimeout in Htr.
    cbn [saveTimeoutRef] in Htr. destruct tr; exact Htr. }
  cbn [run]. rewrite step_SaveRequested_open.
  rewrite settle_stable by apply (stable_deps (Some f)).
  rewrite step_Inserted_open.
  set (c1 := substring 0 a ct +:+ t +:+ Js.substring b ct).
  destruct (decide (c1 = ct)) as [Heq|Hne].
  - rewrite Heq. rewrite settle_stable by apply (stable_deps (Some f)).
    eexists. eexists. split; [reflexivity|]. cbn [content hasChanges].
    split; [reflexivity|]. split; [reflexivity|].
    rewrite step_SaveFulfilled_last.
    rewrite settle_replaced; [|exact Href|exact Hclr]. repeat split.
  - rewrite settle_inserted;
      [|intros [= H]; apply Hne; symmetry; exact H|exact Hclr].
    eexists. eexists. split; [reflexivity|]. cbn [content hasChanges].
    split; [reflexivity|]. split; [reflexivity|].
    rewrite step_SaveFulfilled_last.
    rewrite settle_replaced; [repeat split|exact Href|].
    cbn [cleared List.filter timer_id]. rewrite Nat.eqb_refl. reflexivity.
Qed.

Lemma edit_during_save_is_discarded_witness :
  exists s1 s2,
    run [SaveRequested; Inserted 4 4 "Y"] dirtySession = Some s1 /\
    content s1 = "abcXY" /\
    step (SaveFulfilled 0 "t1") s1 = Some s2 /\
    content s2 = "abcX" /\
    hasChanges s2 = false.
Proof.
  destruct (edit_during_save_is_discarded dirtySession
              {| ref := 0%nat; file_id := "f1"; file_path := "/a.js";
                 file_content := Some "abc"; modified_at := Some "t0" |}
              4 4 "Y" "t1" eq_refl eq_refl)
    as (s1 & s2 & H1 & H2 & _ & H4 & H5 & H6 & _);
    [apply Nat.ltb_lt; vm_compute; reflexivity|reflexivity|reflexivity|].
  exists s1, s2. repeat split; assumption.
Defined.

(** X29: code inserted from the assistant is appended, after a line
    feed, to the content of the [activeFile] object, not to the text in
    the editor; the editor then shows that text marked as unchanged, with
    no auto-save timer pending and no request sent. *)
Theorem assistant_code_replaces_editor_text s f code :
  stable s = true ->
  app_activeFile s = Some f ->
  (ref f < nextRef s)%nat ->
  onlyTrackedTimer s ->
  content (settle (insertCodeIntoEditor (render s) code s))
    = default "undefined" (file_content f) +:+ Js.nl +:+ code /\
  hasChanges (settle (insertCodeIntoEditor (render s) code s)) = false /\
  timers (settle (insertCodeIntoEditor (render s) code s)) = [] /\
  requests (settle (insertCodeIntoEditor (render s) code s)) = requests s /\
  inflight (settle (insertCodeIntoEditor (render s) code s)) = inflight s.
Proof.
  intros Hst Haf Href Htr. open_session s f Hst Haf.
  assert (Hclr : cleared tr tm = []).
  { unfold onlyTrackedTimer, clearSaveTimeout, clearTimeout in Htr.
    cbn [saveTimeoutRef] in Htr. destruct tr; exact Htr. }
  unfold insertCodeIntoEditor, handleFileChange, render.
  cbn [activeFile app_activeFile]. rewrite String.eqb_refl.
  cbn [setActiveFile setNextRef nextRef].
  rewrite settle_replaced; [repeat split|exact Href|exact Hclr].
Qed.

Lemma assistant_code_replaces_editor_text_witness :
  content dirtySession = "abcX" /\
  content (settle (insertCodeIntoEditor (render dirtySession) "x = 1"
                     dirtySession))
    = "abc" +:+ Js.nl +:+ "x = 1" /\
  hasChanges (settle (insertCodeIntoEditor (render dirtySession) "x = 1"
                        dirtySession)) = false.
Proof.
  destruct (assistant_code_replaces_editor_text dirtySession
              {| ref := 0%nat; file_id := "f1"; file_path := "/a.js";
                 file_content := Some "abc"; modified_at := Some "t0" |}
              "x = 1" eq_refl eq_refl)
    as (H1 & H2 & _); [apply Nat.ltb_lt; vm_compute; reflexivity|reflexivity|].
  split; [reflexivity|]. split; [exact H1|exact H2].
Defined.

End SavingClaims.

Section MockClear.
Import FileExplorer TerminalMock.

(** X30: the command clear, typed into the mock terminal, empties the
    whole history, its own entry included, once its timer fires; the
    command-text log used for recall still records it. *)
Theorem mock_clear_command_empties_history af d c s :
  isRunning s = false ->
  timers s = [] ->
  Js.trim c = "clear" ->
  submitAndComplete af d c s =
  Some {| command := Some "";
          history := [];
          isRunning := false;
          commandHistory := commandHistory s ++ ["clear"];
          historyIndex := -1;
          timers := [] |}.
Proof.
  intros Hr Ht Hc.
  assert (Htruthy : Js.truthy (Js.trim c) = true) by (rewrite Hc; reflexivity).
  unfold submitAndComplete.
  rewrite (handleSubmit_accepted af c (setCommand (Some c) s) eq_refl Htruthy Hr).
  unfold fireTimer. cbn [timers setCommand]. rewrite Ht.
  cbn [app lookup list_lookup delete list_delete].
  unfold onTimeout. cbn [trimmedCmd TerminalMock.activeFile]. rewrite Hc.
  reflexivity.
Qed.

Lemma mock_clear_command_empties_history_witness :
  (history <$> submitAndComplete None "" " clear " initial) = Some [] /\
  length (history initial) = 4%nat.
Proof.
  rewrite (mock_clear_command_empties_history None "" " clear "
             initial eq_refl eq_refl eq_refl).
  split; reflexivity.
Defined.

End MockClear.
